(** * GrandMawsCookie: the recipe quantity adjuster

    A shallow embedding of the pure core shared by the console program
    [GrandMawsCookie_Console_Working.py] and the Kivy program
    [GrandMawsCookie_APK.py]: [is_valid_servings],
    [calculate_scaling_factor], [scale_recipe] and [format_amount];
    and of what each program builds on it: [format_ingredient_name],
    [display_recipe], [compare_recipes] and the loop of
    [recipe_adjuster] for the console, the handlers of
    [RecipeAdjusterApp] for Kivy.

    Python values are modelled as the interpreter has them:
    - [int] is an unbounded integer, here [Z];
    - [float] is IEEE 754 binary64, here [spec_float] with the operations
      of [SpecFloat] at precision 53 and maximal exponent 1024;
    - [str] is a sequence of code points, here [string], each [ascii]
      standing for the code point of the same number (0 to 255);
    - a [dict] is insertion ordered, here an association list;
    - a raised exception is a value of [exn] in the [result] monad. *)

From Stdlib Require Import ZArith QArith List String Ascii Bool Lia.
From Stdlib Require Import Floats.SpecFloat.
From Stdlib Require Import Numbers.DecimalString Numbers.DecimalPos.
Import ListNotations.

Open Scope string_scope.
Open Scope Z_scope.

(** ** Exceptions *)

Inductive exn : Type :=
| ValueError
| OverflowError
| ZeroDivisionError
| KeyError
| AssertionError (msg : string).

Inductive result (A : Type) : Type :=
| Ok (a : A)
| Raise (e : exn).

Arguments Ok {A} a.
Arguments Raise {A} e.

Definition bind {A B : Type} (r : result A) (k : A -> result B) : result B :=
  match r with
  | Ok a => k a
  | Raise e => Raise e
  end.

Notation "x <- r ;; k" := (bind r (fun x => k))
  (at level 61, r at next level, right associativity).

(** [assert c, msg]; the message keeps the constant part of the source's
    f-string. *)
Definition py_assert (c : bool) (msg : string) : result unit :=
  if c then Ok tt else Raise (AssertionError msg).

(** ** Floats: IEEE 754 binary64 *)

Module F64.

Definition prec : Z := 53.
Definition emax : Z := 1024.

Definition float := spec_float.

Definition mul : float -> float -> float := SFmul prec emax.
Definition sub : float -> float -> float := SFsub prec emax.
Definition compare : float -> float -> option comparison := SFcompare.
Definition valid : float -> bool := valid_binary prec emax.

Definition is_finite (x : float) : bool :=
  match x with
  | S754_zero _ | S754_finite _ _ _ => true
  | _ => false
  end.

(** The binary64 number nearest to the integer [z] (ties to even);
    an infinity when [z] is out of range. *)
Definition of_Z (z : Z) : float := binary_normalize prec emax z 0 false.

(** The binary64 number nearest to [(-1)^s * n / d] (ties to even), as
    a correctly rounded conversion computes it; signed zero on
    underflow, an infinity on overflow. *)
Definition of_ratio (s : bool) (n : N) (d : positive) : float :=
  match n with
  | N0 => S754_zero s
  | Npos n => SFdiv prec emax (S754_finite s n 0) (S754_finite false d 0)
  end.

(** The binary64 number nearest to [(-1)^s * m * 10^e]: what a decimal
    literal or a decimal string denotes. *)
Definition of_decimal (s : bool) (m : N) (e : Z) : float :=
  match m with
  | N0 => S754_zero s
  | Npos p =>
      match e with
      | Zneg k => of_ratio s m (Pos.pow 10 k)
      | _ => of_Z ((if s then Z.opp else id) (Zpos p * 10 ^ e))
      end
  end.

(** The exact value of a finite nonzero float, [m * 2^e], as a fraction
    with a positive denominator. *)
Definition num_den (m : positive) (e : Z) : Z * positive :=
  match e with
  | Zneg k => (Zpos m, Pos.pow 2 k)
  | _ => (Zpos m * 2 ^ e, 1%positive)
  end.

(** The exact value of a finite float as a rational number; the floats
    that are not finite are given the value 0. *)
Definition to_Q (x : float) : Q :=
  match x with
  | S754_finite s m e =>
      let '(n, d) := num_den m e in Qmake (if s then Z.opp n else n) d
  | _ => Qmake 0 1
  end.

(** The mantissa [m] shifted left by [d] bits, [m * 2^d]. *)
Definition shl (m : positive) (d : Z) : positive :=
  match d with
  | Zpos d => Pos.iter xO m d
  | _ => m
  end.

(** [y] is [x] shifted right by [k] bits: the mantissa is divided by
    [2^k], and a raised round or sticky bit tells that a bit was lost,
    now or before. *)
Definition shifted (k : Z) (x y : shr_record) : Prop :=
  shr_m y = shr_m x / 2 ^ k
  /\ (shr_r y || shr_s y = true ->
      shr_r x || shr_s x = true \/ shr_m x mod 2 ^ k <> 0).

End F64.

(** ** Numbers: Python's [int] and [float] under one type *)

Inductive num : Type :=
| PyInt (z : Z)
| PyFloat (x : F64.float).

Module Num.

(** [float(z)] for an [int]: correctly rounded, and [OverflowError] when
    the integer is too large for a float. *)
Definition float_of_int (z : Z) : result F64.float :=
  match F64.of_Z z with
  | S754_infinity _ => Raise OverflowError
  | x => Ok x
  end.

(** [int(x)] for a [float]: truncation toward zero; [int(nan)] raises
    [ValueError] and [int(inf)] raises [OverflowError]. *)
Definition int_of_float (x : F64.float) : result Z :=
  match x with
  | S754_nan => Raise ValueError
  | S754_infinity _ => Raise OverflowError
  | S754_zero _ => Ok 0
  | S754_finite s m e =>
      let '(n, d) := F64.num_den m e in
      Ok ((if s then Z.opp else id) (n / Zpos d))
  end.

Definition int (a : num) : result Z :=
  match a with
  | PyInt z => Ok z
  | PyFloat x => int_of_float x
  end.

(** Comparison of a float with an integer is exact in Python: the float
    is not rounded and the integer is not converted. *)
Definition compare_float_int (x : F64.float) (z : Z) : option comparison :=
  match x with
  | S754_nan => None
  | S754_infinity s => Some (if s then Lt else Gt)
  | S754_zero _ => Some (0 ?= z)
  | S754_finite s m e =>
      let '(n, d) := F64.num_den m e in
      Some ((if s then Z.opp n else n) ?= z * Zpos d)
  end.

Definition compare (a b : num) : option comparison :=
  match a, b with
  | PyInt x, PyInt y => Some (x ?= y)
  | PyFloat x, PyFloat y => F64.compare x y
  | PyFloat x, PyInt y => compare_float_int x y
  | PyInt x, PyFloat y => option_map CompOpp (compare_float_int y x)
  end.

(** [a == b], [a != b], [a > b], [a < b], [a <= b] *)
Definition eqb (a b : num) : bool :=
  match compare a b with Some Eq => true | _ => false end.
Definition neb (a b : num) : bool := negb (eqb a b).
Definition gtb (a b : num) : bool :=
  match compare a b with Some Gt => true | _ => false end.
Definition ltb (a b : num) : bool :=
  match compare a b with Some Lt => true | _ => false end.
Definition leb (a b : num) : bool :=
  match compare a b with Some (Lt | Eq) => true | _ => false end.

(** [a * b]: exact on two integers; otherwise the integer operand is
    converted to a float first. *)
Definition mul (a b : num) : result num :=
  match a, b with
  | PyInt x, PyInt y => Ok (PyInt (x * y))
  | PyFloat x, PyFloat y => Ok (PyFloat (F64.mul x y))
  | PyInt x, PyFloat y =>
      x' <- float_of_int x ;; Ok (PyFloat (F64.mul x' y))
  | PyFloat x, PyInt y =>
      y' <- float_of_int y ;; Ok (PyFloat (F64.mul x y'))
  end.

(** [a - b] *)
Definition sub (a b : num) : result num :=
  match a, b with
  | PyInt x, PyInt y => Ok (PyInt (x - y))
  | PyFloat x, PyFloat y => Ok (PyFloat (F64.sub x y))
  | PyInt x, PyFloat y =>
      x' <- float_of_int x ;; Ok (PyFloat (F64.sub x' y))
  | PyFloat x, PyInt y =>
      y' <- float_of_int y ;; Ok (PyFloat (F64.sub x y'))
  end.

(** [a / b] on two integers: the correctly rounded quotient, and
    [OverflowError] when it is too large for a float. *)
Definition truediv_int (a b : Z) : result F64.float :=
  match b with
  | Z0 => Raise ZeroDivisionError
  | _ =>
      let s := xorb (a <? 0) (b <? 0) in
      match F64.of_ratio s (Z.abs_N a) (Z.to_pos (Z.abs b)) with
      | S754_infinity _ => Raise OverflowError
      | x => Ok x
      end
  end.

(** The integer nearest to [n / d], ties to the even one; [0 <= n], [0 < d]. *)
Definition round_half_even (n d : Z) : Z :=
  let q := n / d in
  let r := n mod d in
  match 2 * r ?= d with
  | Lt => q
  | Gt => q + 1
  | Eq => if Z.even q then q else q + 1
  end.

(** The number of hundredths nearest to the magnitude [m * 2^e]. *)
Definition hundredths (m : positive) (e : Z) : Z :=
  let '(n, d) := F64.num_den m e in round_half_even (100 * n) (Zpos d).

(** [round(x, 2)] on a float: the decimal with two places nearest to the
    exact value of [x] (ties to even), converted back to a float. *)
Definition round2_float (x : F64.float) : F64.float :=
  match x with
  | S754_finite s m e => F64.of_ratio s (Z.to_N (hundredths m e)) 100
  | _ => x
  end.

(** The exact value of a number as a fraction; 0 for the floats that
    are not finite. *)
Definition exact (a : num) : Z * positive :=
  match a with
  | PyInt z => (z, 1%positive)
  | PyFloat (S754_finite s m e) =>
      let '(n, d) := F64.num_den m e in (if s then Z.opp n else n, d)
  | PyFloat _ => (0, 1%positive)
  end.

(** [round(a, 2)]; an [int] is returned unchanged. *)
Definition round2 (a : num) : num :=
  match a with
  | PyInt z => PyInt z
  | PyFloat x => PyFloat (round2_float x)
  end.

End Num.

(** The float literals of the source. *)
Definition f0_25 : F64.float := Eval vm_compute in F64.of_decimal false 25 (-2).
Definition f0_5 : F64.float := Eval vm_compute in F64.of_decimal false 5 (-1).
Definition f0_75 : F64.float := Eval vm_compute in F64.of_decimal false 75 (-2).
Definition f1_5 : F64.float := Eval vm_compute in F64.of_decimal false 15 (-1).
Definition f1_0 : F64.float := Eval vm_compute in F64.of_decimal false 10 (-1).
Definition f2_33 : F64.float := Eval vm_compute in F64.of_decimal false 233 (-2).

(** ** Strings: the [str] methods and conversions the source calls *)

Module Str.

Definition code (c : ascii) : Z := Z.of_nat (nat_of_ascii c).

Definition is_digit (c : ascii) : bool := (48 <=? code c) && (code c <=? 57).

Definition digit_val (c : ascii) : Z := code c - 48.

Definition digit_char (d : Z) : ascii := ascii_of_nat (Z.to_nat (48 + d)).

(** [c.isspace()] for the code points 0 to 255. *)
Definition is_space (c : ascii) : bool :=
  let n := code c in
  ((9 <=? n) && (n <=? 13)) || ((28 <=? n) && (n <=? 32))
  || (n =? 133) || (n =? 160).

(** The white space of the C locale, which [float] skips at both ends. *)
Definition is_c_space (c : ascii) : bool :=
  let n := code c in ((9 <=? n) && (n <=? 13)) || (n =? 32).

Section Strip.
Variable drop : ascii -> bool.

Fixpoint lstrip_by (s : string) : string :=
  match s with
  | String c s' => if drop c then lstrip_by s' else s
  | EmptyString => EmptyString
  end.

Fixpoint rstrip_by (s : string) : string :=
  match s with
  | String c s' =>
      match rstrip_by s' with
      | EmptyString => if drop c then EmptyString else String c EmptyString
      | r => String c r
      end
  | EmptyString => EmptyString
  end.

Definition strip_by (s : string) : string := rstrip_by (lstrip_by s).
End Strip.

(** [s.strip()] *)
Definition strip : string -> string := strip_by is_space.

(** [s.rstrip(c)] for a one-character argument. *)
Definition rstrip (c : ascii) : string -> string := rstrip_by (Ascii.eqb c).

(** [str(z)] for an [int]. *)
Definition of_int (z : Z) : string := NilZero.string_of_int (Z.to_int z).

(** *** [float(s)] *)

Fixpoint span_digits (l : list ascii) : list ascii * list ascii :=
  match l with
  | c :: r =>
      if is_digit c then let '(ds, rest) := span_digits r in (c :: ds, rest)
      else ([], l)
  | [] => ([], [])
  end.

Definition digits_val (ds : list ascii) : Z :=
  fold_left (fun acc c => 10 * acc + digit_val c) ds 0.

Definition parse_sign (l : list ascii) : bool * list ascii :=
  match l with
  | "-"%char :: r => (true, r)
  | "+"%char :: r => (false, r)
  | _ => (false, l)
  end.

Definition lower (c : ascii) : ascii :=
  if (65 <=? code c) && (code c <=? 90)
  then ascii_of_nat (nat_of_ascii c + 32) else c.

(** The grammar of a decimal number:
    [sign? (digits ('.' digits?)? | '.' digits) ([eE] sign? digits)?],
    all of the input consumed. *)
Definition parse_decimal (l : list ascii) : option F64.float :=
  let '(s, l1) := parse_sign l in
  let '(ip, l2) := span_digits l1 in
  let '(fp, l3) :=
    match l2 with
    | "."%char :: r => span_digits r
    | _ => ([], l2)
    end in
  match (ip ++ fp)%list with
  | [] => None
  | ds =>
      let m := Z.to_N (digits_val ds) in
      let k := Z.of_nat (List.length fp) in
      match l3 with
      | [] => Some (F64.of_decimal s m (- k))
      | c :: r =>
          if Ascii.eqb (lower c) "e" then
            let '(es, r1) := parse_sign r in
            match span_digits r1 with
            | (d :: ed, []) =>
                let x := digits_val (d :: ed) in
                Some (F64.of_decimal s m ((if es then - x else x) - k))
            | _ => None
            end
          else None
      end
  end.

(** [sign? ("inf" | "infinity" | "nan")], letters in either case. *)
Definition parse_inf_nan (l : list ascii) : option F64.float :=
  let '(s, l1) := parse_sign l in
  let w := string_of_list_ascii (map lower l1) in
  if String.eqb w "inf" || String.eqb w "infinity" then Some (S754_infinity s)
  else if String.eqb w "nan" then Some S754_nan
  else None.

(** An underscore is accepted between two digits only; the underscores
    are removed before the number is read. *)
Fixpoint drop_underscores (prev : ascii) (l : list ascii) : option (list ascii) :=
  match l with
  | [] => if Ascii.eqb prev "_" then None else Some []
  | c :: r =>
      if Ascii.eqb c "_" then
        if is_digit prev then drop_underscores c r else None
      else if Ascii.eqb prev "_" && negb (is_digit c) then None
      else option_map (cons c) (drop_underscores c r)
  end.

(** The white space beyond ASCII is read as a blank. *)
Definition blank_wide_space (c : ascii) : ascii :=
  if (127 <=? code c) && is_space c then " "%char else c.

Definition to_float (s : string) : result F64.float :=
  let l := map blank_wide_space (list_ascii_of_string s) in
  match drop_underscores zero l with
  | None => Raise ValueError
  | Some l' =>
      let t := list_ascii_of_string
                 (strip_by is_c_space (string_of_list_ascii l')) in
      match parse_decimal t with
      | Some x => Ok x
      | None =>
          match parse_inf_nan t with
          | Some x => Ok x
          | None => Raise ValueError
          end
      end
  end.

(** *** [f"{a:.2f}"] *)

Definition two_digits (k : Z) : string :=
  String (digit_char (k / 10)) (String (digit_char (k mod 10)) EmptyString).

Definition sign_string (s : bool) : string := if s then "-" else "".

(** The fixed-point rendering with two decimals of a float: the exact
    value rounded to the nearest hundredth, ties to even. *)
Definition format_2f_float (x : F64.float) : string :=
  match x with
  | S754_nan => "nan"
  | S754_infinity s => (sign_string s ++ "inf")%string
  | S754_zero s => (sign_string s ++ "0.00")%string
  | S754_finite s m e =>
      let h := Num.hundredths m e in
      (sign_string s ++ of_int (h / 100) ++ "." ++ two_digits (h mod 100))%string
  end.

(** An [int] is converted to a float first. *)
Definition format_2f (a : num) : result string :=
  match a with
  | PyInt z => x <- Num.float_of_int z ;; Ok (format_2f_float x)
  | PyFloat x => Ok (format_2f_float x)
  end.

End Str.

(** ** Dictionaries: insertion ordered, keys compared with [==] *)

Module Dict.
Section Dict.
Context {K V : Type}.
Variable eqb : K -> K -> bool.

Definition keys (d : list (K * V)) : list K := map fst d.

Definition len (d : list (K * V)) : Z := Z.of_nat (List.length d).

(** [k in d] *)
Definition mem (k : K) (d : list (K * V)) : bool :=
  existsb (fun e => eqb k (fst e)) d.

(** [d[k]] *)
Fixpoint getitem (d : list (K * V)) (k : K) : result V :=
  match d with
  | [] => Raise KeyError
  | (k', v) :: r => if eqb k k' then Ok v else getitem r k
  end.

(** [d[k] = v]: a present key keeps its place, a new one goes last. *)
Fixpoint setitem (d : list (K * V)) (k : K) (v : V) : list (K * V) :=
  match d with
  | [] => [(k, v)]
  | (k', v') :: r =>
      if eqb k k' then (k', v) :: r else (k', v') :: setitem r k v
  end.

(** [set(d1.keys()) == set(d2.keys())] *)
Definition same_keys (d1 d2 : list (K * V)) : bool :=
  forallb (fun k => existsb (eqb k) (keys d2)) (keys d1)
  && forallb (fun k => existsb (eqb k) (keys d1)) (keys d2).
End Dict.
End Dict.

(** ** The data model *)

(** The value of one ingredient, [{"amount": ..., "unit": ...}]. *)
Record IngredientEntry : Type := { amount : num; unit_ : string }.

(** A recipe maps ingredient names to entries, in insertion order. *)
Definition Recipe : Type := list (string * IngredientEntry).

(** ** The console program, [GrandMawsCookie_Console_Working.py] *)

Module Console.

Definition ORIGINAL_SERVINGS : Z := 12.
Definition MIN_SERVINGS : Z := 1.
Definition MAX_SERVINGS : Z := 100.

Definition ORIGINAL_RECIPE : Recipe :=
  [ ("flour", {| amount := PyInt 3; unit_ := "cups" |});
    ("sugar", {| amount := PyInt 2; unit_ := "cups" |});
    ("butter", {| amount := PyInt 1; unit_ := "cup" |});
    ("eggs", {| amount := PyInt 4; unit_ := "large" |});
    ("milk", {| amount := PyFloat f1_5; unit_ := "cups" |});
    ("baking_powder", {| amount := PyInt 2; unit_ := "teaspoons" |});
    ("vanilla_extract", {| amount := PyInt 1; unit_ := "teaspoon" |});
    ("salt", {| amount := PyFloat f0_5; unit_ := "teaspoon" |}) ].

Definition format_amount (amount : num) : result string :=
  _ <- py_assert (Num.gtb amount (PyInt 0)) "Amount must be positive" ;;
  i <- Num.int amount ;;
  if Num.eqb amount (PyInt i) then
    i' <- Num.int amount ;; Ok (Str.of_int i')
  else
    let fractions := [ (PyFloat f0_25, "1/4"); (PyFloat f0_5, "1/2");
                       (PyFloat f0_75, "3/4") ] in
    whole <- Num.int amount ;;
    d <- Num.sub amount (PyInt whole) ;;
    let decimal := Num.round2 d in
    if (0 <? whole) && Dict.mem Num.eqb decimal fractions then
      fr <- Dict.getitem Num.eqb fractions decimal ;;
      Ok (Str.of_int whole ++ " " ++ fr)%string
    else if Dict.mem Num.eqb decimal fractions then
      Dict.getitem Num.eqb fractions decimal
    else
      s <- Str.format_2f amount ;;
      Ok (Str.rstrip "." (Str.rstrip "0" s)).

(** The body of the [try] block: [inl] is an early [return], [inr] the
    value of [servings] when the block falls through. *)
Definition is_valid_servings_try (servings_str : string)
  : result ((bool * string * Z) + Z) :=
  servings <- Str.to_float servings_str ;;
  i <- Num.int_of_float servings ;;
  if Num.neb (PyFloat servings) (PyInt i) then
    Ok (inl (false, "Servings must be a whole number", 0))
  else
    servings' <- Num.int_of_float servings ;; Ok (inr servings').

Definition is_valid_servings (servings_str : string)
  : result (bool * string * Z) :=
  if String.eqb servings_str "" then
    Ok (false, "Servings cannot be empty", 0)
  else
    let servings_str := Str.strip servings_str in
    match is_valid_servings_try servings_str with
    | Raise ValueError => Ok (false, "Servings must be a valid number", 0)
    | Raise e => Raise e
    | Ok (inl r) => Ok r
    | Ok (inr servings) =>
        if servings <? MIN_SERVINGS then
          Ok (false,
              ("Servings must be at least " ++ Str.of_int MIN_SERVINGS)%string, 0)
        else if servings >? MAX_SERVINGS then
          Ok (false,
              ("Servings cannot exceed " ++ Str.of_int MAX_SERVINGS)%string, 0)
        else
          _ <- py_assert ((MIN_SERVINGS <=? servings)
                          && (servings <=? MAX_SERVINGS))
                 "Internal error: validated value out of range" ;;
          Ok (true, "", servings)
    end.

Definition calculate_scaling_factor (original desired : Z)
  : result F64.float :=
  _ <- py_assert (original >? 0) "Original servings must be positive" ;;
  _ <- py_assert (desired >? 0) "Desired servings must be positive" ;;
  result <- Num.truediv_int desired original ;;
  _ <- py_assert (Num.gtb (PyFloat result) (PyInt 0))
         "Scaling factor should be positive" ;;
  _ <- py_assert (Num.leb (PyFloat result) (PyInt 100))
         "Scaling factor too large" ;;
  Ok result.

(** The first loop of [scale_recipe], which validates the entries. *)
Fixpoint scale_recipe_validate (items : Recipe) : result unit :=
  match items with
  | [] => Ok tt
  | (ingredient, details) :: rest =>
      _ <- py_assert (Num.gtb (amount details) (PyInt 0))
             "Amount must be positive" ;;
      scale_recipe_validate rest
  end.

(** The second loop of [scale_recipe], which fills [scaled_recipe]. *)
Fixpoint scale_recipe_loop (items : Recipe) (scaling_factor : num)
    (scaled_recipe : Recipe) : result Recipe :=
  match items with
  | [] => Ok scaled_recipe
  | (ingredient, details) :: rest =>
      scaled_amount <- Num.mul (amount details) scaling_factor ;;
      _ <- py_assert (Num.gtb scaled_amount (PyInt 0))
             "Scaled amount is not positive" ;;
      _ <- py_assert (Num.ltb scaled_amount (PyInt 10000))
             "Scaled amount seems unreasonably large" ;;
      scale_recipe_loop rest scaling_factor
        (Dict.setitem String.eqb scaled_recipe ingredient
           {| amount := scaled_amount; unit_ := unit_ details |})
  end.

Definition scale_recipe (recipe : Recipe) (scaling_factor : num)
  : result Recipe :=
  _ <- py_assert (Dict.len recipe >? 0) "Recipe cannot be empty" ;;
  _ <- py_assert (Num.gtb scaling_factor (PyInt 0))
         "Scaling factor must be positive" ;;
  _ <- scale_recipe_validate recipe ;;
  scaled_recipe <- scale_recipe_loop recipe scaling_factor [] ;;
  _ <- py_assert (Dict.same_keys String.eqb scaled_recipe recipe)
         "Scaled recipe has different keys than original" ;;
  _ <- py_assert (Dict.len scaled_recipe =? Dict.len recipe)
         "Scaled recipe size mismatch" ;;
  Ok scaled_recipe.

End Console.

(** ** The Kivy program, [GrandMawsCookie_APK.py] *)

Module APK.

Definition ORIGINAL_SERVINGS : Z := 12.
Definition MIN_SERVINGS : Z := 1.
Definition MAX_SERVINGS : Z := 100.

Definition ORIGINAL_RECIPE : Recipe :=
  [ ("flour", {| amount := PyInt 3; unit_ := "cups" |});
    ("sugar", {| amount := PyInt 2; unit_ := "cups" |});
    ("butter", {| amount := PyInt 1; unit_ := "cup" |});
    ("eggs", {| amount := PyInt 4; unit_ := "large" |});
    ("milk", {| amount := PyFloat f1_5; unit_ := "cups" |});
    ("baking_powder", {| amount := PyInt 2; unit_ := "teaspoons" |});
    ("vanilla_extract", {| amount := PyInt 1; unit_ := "teaspoon" |});
    ("salt", {| amount := PyFloat f0_5; unit_ := "teaspoon" |}) ].

Definition format_amount (amount : num) : result string :=
  _ <- py_assert (Num.gtb amount (PyInt 0)) "Amount must be positive" ;;
  i <- Num.int amount ;;
  if Num.eqb amount (PyInt i) then
    i' <- Num.int amount ;; Ok (Str.of_int i')
  else
    let fractions := [ (PyFloat f0_25, "1/4"); (PyFloat f0_5, "1/2");
                       (PyFloat f0_75, "3/4") ] in
    whole <- Num.int amount ;;
    d <- Num.sub amount (PyInt whole) ;;
    let decimal := Num.round2 d in
    if (0 <? whole) && Dict.mem Num.eqb decimal fractions then
      fr <- Dict.getitem Num.eqb fractions decimal ;;
      Ok (Str.of_int whole ++ " " ++ fr)%string
    else if Dict.mem Num.eqb decimal fractions then
      Dict.getitem Num.eqb fractions decimal
    else
      s <- Str.format_2f amount ;;
      Ok (Str.rstrip "." (Str.rstrip "0" s)).

(** The body of the [try] block: [inl] is an early [return], [inr] the
    value of [servings] when the block falls through. *)
Definition is_valid_servings_try (servings_str : string)
  : result ((bool * string * Z) + Z) :=
  servings <- Str.to_float servings_str ;;
  i <- Num.int_of_float servings ;;
  if Num.neb (PyFloat servings) (PyInt i) then
    Ok (inl (false, "Servings must be a whole number", 0))
  else
    servings' <- Num.int_of_float servings ;; Ok (inr servings').

Definition is_valid_servings (servings_str : string)
  : result (bool * string * Z) :=
  if String.eqb servings_str "" then
    Ok (false, "Servings cannot be empty", 0)
  else
    let servings_str := Str.strip servings_str in
    match is_valid_servings_try servings_str with
    | Raise ValueError => Ok (false, "Servings must be a valid number", 0)
    | Raise e => Raise e
    | Ok (inl r) => Ok r
    | Ok (inr servings) =>
        if servings <? MIN_SERVINGS then
          Ok (false,
              ("Servings must be at least " ++ Str.of_int MIN_SERVINGS)%string, 0)
        else if servings >? MAX_SERVINGS then
          Ok (false,
              ("Servings cannot exceed " ++ Str.of_int MAX_SERVINGS)%string, 0)
        else
          _ <- py_assert ((MIN_SERVINGS <=? servings)
                          && (servings <=? MAX_SERVINGS))
                 "Internal error: validated value out of range" ;;
          Ok (true, "", servings)
    end.

Definition calculate_scaling_factor (original desired : Z)
  : result F64.float :=
  _ <- py_assert (original >? 0) "Original servings must be positive" ;;
  _ <- py_assert (desired >? 0) "Desired servings must be positive" ;;
  result <- Num.truediv_int desired original ;;
  _ <- py_assert (Num.gtb (PyFloat result) (PyInt 0))
         "Scaling factor should be positive" ;;
  _ <- py_assert (Num.leb (PyFloat result) (PyInt 100))
         "Scaling factor too large" ;;
  Ok result.

(** The first loop of [scale_recipe], which validates the entries. *)
Fixpoint scale_recipe_validate (items : Recipe) : result unit :=
  match items with
  | [] => Ok tt
  | (ingredient, details) :: rest =>
      _ <- py_assert (Num.gtb (amount details) (PyInt 0))
             "Amount must be positive" ;;
      scale_recipe_validate rest
  end.

(** The second loop of [scale_recipe], which fills [scaled_recipe]. *)
Fixpoint scale_recipe_loop (items : Recipe) (scaling_factor : num)
    (scaled_recipe : Recipe) : result Recipe :=
  match items with
  | [] => Ok scaled_recipe
  | (ingredient, details) :: rest =>
      scaled_amount <- Num.mul (amount details) scaling_factor ;;
      _ <- py_assert (Num.gtb scaled_amount (PyInt 0))
             "Scaled amount is not positive" ;;
      _ <- py_assert (Num.ltb scaled_amount (PyInt 10000))
             "Scaled amount seems unreasonably large" ;;
      scale_recipe_loop rest scaling_factor
        (Dict.setitem String.eqb scaled_recipe ingredient
           {| amount := scaled_amount; unit_ := unit_ details |})
  end.

Definition scale_recipe (recipe : Recipe) (scaling_factor : num)
  : result Recipe :=
  _ <- py_assert (Dict.len recipe >? 0) "Recipe cannot be empty" ;;
  _ <- py_assert (Num.gtb scaling_factor (PyInt 0))
         "Scaling factor must be positive" ;;
  _ <- scale_recipe_validate recipe ;;
  scaled_recipe <- scale_recipe_loop recipe scaling_factor [] ;;
  _ <- py_assert (Dict.same_keys String.eqb scaled_recipe recipe)
         "Scaled recipe has different keys than original" ;;
  _ <- py_assert (Dict.len scaled_recipe =? Dict.len recipe)
         "Scaled recipe size mismatch" ;;
  Ok scaled_recipe.

End APK.


(** ** Text: a [str] whose code points may exceed 255

    The literals the two programs print hold code points above 255, and
    so may a name in title case; such a [str] is a list of code
    points. *)

Definition text : Type := list N.

Module Text.

Definition of_string (s : string) : text :=
  map N_of_ascii (list_ascii_of_string s).

(** A literal given by its code points. *)
Definition cps (l : list Z) : text := map Z.to_N l.

(** [s * n] *)
Definition times (s : string) (n : nat) : text :=
  List.concat (repeat (of_string s) n).

(** [f"{t:>width}"] and [f"{t:<width}"]: blanks are added up to the
    width, and a longer text is left as it is. *)
Definition rjust (width : nat) (t : text) : text :=
  (repeat 32%N (width - List.length t) ++ t)%list.

Definition ljust (width : nat) (t : text) : text :=
  (t ++ repeat 32%N (width - List.length t))%list.

End Text.

(** ** The letter cases of the code points 0 to 255 *)

Module Unicode.

Definition between (lo hi n : Z) : bool := (lo <=? n) && (n <=? hi).

(** The cased code points: the letters of ASCII and of Latin-1, the two
    ordinal indicators and the micro sign. *)
Definition is_cased (c : ascii) : bool :=
  let n := Str.code c in
  between 65 90 n || between 97 122 n
  || (n =? 170) || (n =? 181) || (n =? 186)
  || between 192 214 n || between 216 246 n || between 248 255 n.

Definition to_lower (c : ascii) : N :=
  let n := Str.code c in
  if between 65 90 n || between 192 214 n || between 216 222 n
  then Z.to_N (n + 32) else Z.to_N n.

(** The title case of the micro sign and of [y] with diaeresis is above
    255, and that of the sharp s is two letters. *)
Definition to_title (c : ascii) : text :=
  let n := Str.code c in
  if between 97 122 n || between 224 246 n || between 248 254 n
  then [Z.to_N (n - 32)]
  else if n =? 181 then [924%N]
  else if n =? 223 then [83%N; 115%N]
  else if n =? 255 then [376%N]
  else [Z.to_N n].

(** [s.title()]: a character that follows a cased one is put in lower
    case, any other in title case. *)
Fixpoint title_from (previous_is_cased : bool) (l : list ascii) : text :=
  match l with
  | [] => []
  | c :: r =>
      ((if previous_is_cased then [to_lower c] else to_title c)
       ++ title_from (is_cased c) r)%list
  end.

Definition title (s : string) : text :=
  title_from false (list_ascii_of_string s).

(** [s.lower()], which stays within the code points 0 to 255. *)
Definition lower (s : string) : string :=
  string_of_list_ascii
    (map (fun c => ascii_of_N (to_lower c)) (list_ascii_of_string s)).

End Unicode.

(** [s.replace(a, b)] for two one-character arguments. *)
Definition str_replace (a b : ascii) (s : string) : string :=
  string_of_list_ascii
    (map (fun c => if Ascii.eqb c a then b else c) (list_ascii_of_string s)).

(** ** Printing: what is written to the standard output, and a result

    The output is the text written, before any encoding; the standard
    input is the list of the lines it holds, and a keyboard interrupt
    is not modelled. *)

Definition out (A : Type) : Type := (text * result A)%type.

Module Out.

Definition ret {A : Type} (a : A) : out A := ([], Ok a).

Definition bind {A B : Type} (c : out A) (k : A -> out B) : out B :=
  match c with
  | (o, Ok a) => let '(o', r) := k a in ((o ++ o')%list, r)
  | (o, Raise e) => (o, Raise e)
  end.

Definition lift {A : Type} (r : result A) : out A := ([], r).

(** [print(t)] *)
Definition print (t : text) : out unit := ((t ++ [10%N])%list, Ok tt).

(** The prompt of [input(t)], written without a line end. *)
Definition write (t : text) : out unit := (t, Ok tt).

End Out.

Notation "x <-- c ;;; k" := (Out.bind c (fun x => k))
  (at level 61, c at next level, right associativity).

(** ** The console program: display and main loop *)

Module ConsoleShell.

Definition format_ingredient_name (ingredient : string) : text :=
  Unicode.title (str_replace "_" " " ingredient).

(** The loop of [display_recipe]. *)
Fixpoint display_recipe_rows (items : Recipe) : out unit :=
  match items with
  | [] => Out.ret tt
  | (ingredient, details) :: rest =>
      let name := format_ingredient_name ingredient in
      amount_str <-- Out.lift (Console.format_amount (amount details)) ;;;
      let unit_str := unit_ details in
      _ <-- Out.print
              (Text.of_string "  " ++ Text.cps [8218; 196; 162]
               ++ Text.of_string " " ++ Text.rjust 8 (Text.of_string amount_str)
               ++ Text.of_string " " ++ Text.ljust 12 (Text.of_string unit_str)
               ++ Text.of_string " " ++ name)%list ;;;
      display_recipe_rows rest
  end.

Definition display_recipe (recipe : Recipe) (servings : Z) : out unit :=
  _ <-- Out.lift (py_assert (Dict.len recipe >? 0) "Recipe cannot be empty") ;;;
  _ <-- Out.lift (py_assert (servings >? 0) "Servings must be positive") ;;;
  _ <-- Out.lift
          (py_assert ((Console.MIN_SERVINGS <=? servings)
                      && (servings <=? Console.MAX_SERVINGS))
             "Servings out of valid range") ;;;
  _ <-- Out.print ([10%N] ++ Text.times "=" 60)%list ;;;
  _ <-- Out.print
          (Text.of_string ("RECIPE FOR " ++ Str.of_int servings ++ " SERVINGS")) ;;;
  _ <-- Out.print (Text.times "=" 60 ++ [10%N])%list ;;;
  _ <-- Out.print (Text.of_string "INGREDIENTS:") ;;;
  _ <-- Out.print (Text.times "-" 60) ;;;
  _ <-- display_recipe_rows recipe ;;;
  Out.print (Text.times "-" 60).

(** The loop of [compare_recipes], over the keys of [original]. *)
Fixpoint compare_recipes_rows (keys : list string) (original scaled : Recipe)
  : out unit :=
  match keys with
  | [] => Out.ret tt
  | ingredient :: rest =>
      let name := format_ingredient_name ingredient in
      o <-- Out.lift (Dict.getitem String.eqb original ingredient) ;;;
      orig_amount <-- Out.lift (Console.format_amount (amount o)) ;;;
      let orig_str := (orig_amount ++ " " ++ unit_ o)%string in
      s <-- Out.lift (Dict.getitem String.eqb scaled ingredient) ;;;
      new_amount <-- Out.lift (Console.format_amount (amount s)) ;;;
      let new_str := (new_amount ++ " " ++ unit_ s)%string in
      _ <-- Out.print
              (Text.ljust 20 name
               ++ Text.of_string " " ++ Text.rjust 20 (Text.of_string orig_str)
               ++ Text.of_string " " ++ Text.rjust 20 (Text.of_string new_str))%list ;;;
      compare_recipes_rows rest original scaled
  end.

Definition compare_recipes (original scaled : Recipe)
    (original_servings new_servings : Z) : out unit :=
  _ <-- Out.lift (py_assert (Dict.len original >? 0)
                    "Original recipe cannot be empty") ;;;
  _ <-- Out.lift (py_assert (Dict.len scaled >? 0)
                    "Scaled recipe cannot be empty") ;;;
  _ <-- Out.lift (py_assert (original_servings >? 0)
                    "Original servings must be positive") ;;;
  _ <-- Out.lift (py_assert (new_servings >? 0)
                    "New servings must be positive") ;;;
  _ <-- Out.lift (py_assert (Dict.same_keys String.eqb original scaled)
                    "Original and scaled recipes have different ingredients") ;;;
  _ <-- Out.print ([10%N] ++ Text.times "=" 70)%list ;;;
  _ <-- Out.print (Text.of_string "RECIPE COMPARISON") ;;;
  _ <-- Out.print (Text.times "=" 70) ;;;
  _ <-- Out.print
          (Text.ljust 20 (Text.of_string "INGREDIENT")
           ++ Text.of_string " "
           ++ Text.rjust 20
                (Text.of_string
                   ("ORIGINAL (" ++ Str.of_int original_servings ++ ")"))
           ++ Text.of_string " "
           ++ Text.rjust 20
                (Text.of_string ("NEW (" ++ Str.of_int new_servings ++ ")")))%list ;;;
  _ <-- Out.print (Text.times "-" 70) ;;;
  _ <-- compare_recipes_rows (Dict.keys original) original scaled ;;;
  Out.print (Text.times "-" 70).

(** The three places where the loop of [recipe_adjuster] waits for a
    line of input, and its end. *)
Inductive waiting : Type :=
| AskServings
| AskComparison (scaled_recipe : Recipe) (desired_servings : Z)
| AskAnother
| Finished.

(** The prompt of each [input]. *)
Definition prompt (w : waiting) : text :=
  match w with
  | AskServings =>
      ([10%N]
       ++ Text.of_string
            ("How many servings do you need? ("
             ++ Str.of_int Console.MIN_SERVINGS ++ "-"
             ++ Str.of_int Console.MAX_SERVINGS ++ "): "))%list
  | AskComparison _ _ =>
      ([10%N] ++ Text.of_string "Show comparison with original recipe? (y/n): ")%list
  | AskAnother =>
      ([10%N; 10%N]
       ++ Text.of_string "Scale for different number of servings? (y/n): ")%list
  | Finished => []
  end.

(** [answer in ['y', 'yes']] *)
Definition is_yes (answer : string) : bool :=
  String.eqb answer "y" || String.eqb answer "yes".

(** The body of the loop from one [input] to the next, on the line that
    was read. *)
Definition step (w : waiting) (line : string) : out waiting :=
  match w with
  | AskServings =>
      let servings_input := Str.strip line in
      r <-- Out.lift (Console.is_valid_servings servings_input) ;;;
      let '(is_valid, error_msg, desired_servings) := r in
      if negb is_valid then
        _ <-- Out.print (Text.cps [8218; 249; 229] ++ Text.of_string " "
                         ++ Text.of_string error_msg)%list ;;;
        Out.ret AskServings
      else
        scaling_factor <-- Out.lift
          (Console.calculate_scaling_factor Console.ORIGINAL_SERVINGS
             desired_servings) ;;;
        _ <-- Out.print
                ([10%N] ++ Text.cps [63743; 252; 236; 228]
                 ++ Text.of_string
                      (" Scaling factor: "
                       ++ Str.format_2f_float scaling_factor ++ "x"))%list ;;;
        if Num.eqb (PyFloat scaling_factor) (PyFloat f1_0) then
          _ <-- Out.print
                  (Text.cps [8218; 250; 214]
                   ++ Text.of_string
                        " No scaling needed! Use the original recipe.")%list ;;;
          _ <-- display_recipe Console.ORIGINAL_RECIPE
                  Console.ORIGINAL_SERVINGS ;;;
          Out.ret AskAnother
        else
          scaled_recipe <-- Out.lift
            (Console.scale_recipe Console.ORIGINAL_RECIPE
               (PyFloat scaling_factor)) ;;;
          _ <-- display_recipe scaled_recipe desired_servings ;;;
          Out.ret (AskComparison scaled_recipe desired_servings)
  | AskComparison scaled_recipe desired_servings =>
      let show_comparison := Unicode.lower (Str.strip line) in
      _ <-- (if is_yes show_comparison then
               compare_recipes Console.ORIGINAL_RECIPE scaled_recipe
                 Console.ORIGINAL_SERVINGS desired_servings
             else Out.ret tt) ;;;
      Out.ret AskAnother
  | AskAnother =>
      let another := Unicode.lower (Str.strip line) in
      if negb (is_yes another) then
        _ <-- Out.print
                (Text.cps [10; 63743; 252; 235; 174; 8218; 196; 231;
                           63743; 252; 231; 8805]
                 ++ Text.of_string " Happy cooking! Enjoy your recipe!")%list ;;;
        Out.ret Finished
      else Out.ret AskServings
  | Finished => Out.ret Finished
  end.

(** The loop, on the lines the standard input holds.  At the end of the
    input [input] raises [EOFError], which the [except] clause around
    the loop answers with a message; the function then returns. *)
Fixpoint run (w : waiting) (inputs : list string) : out unit :=
  match w with
  | Finished => Out.ret tt
  | _ =>
      _ <-- Out.write (prompt w) ;;;
      match inputs with
      | [] =>
          Out.print
            (Text.cps [10; 10; 8218; 246; 8224; 212; 8719; 232]
             ++ Text.of_string "  Input interrupted. Exiting program.")%list
      | line :: rest =>
          w' <-- step w line ;;;
          run w' rest
      end
  end.

Definition recipe_adjuster (inputs : list string) : out unit :=
  _ <-- Out.lift (py_assert (Console.ORIGINAL_SERVINGS >? 0)
                    "ORIGINAL_SERVINGS must be positive") ;;;
  _ <-- Out.lift (py_assert (Console.MIN_SERVINGS >? 0)
                    "MIN_SERVINGS must be positive int") ;;;
  _ <-- Out.lift (py_assert (Console.MAX_SERVINGS >? Console.MIN_SERVINGS)
                    "MAX_SERVINGS must be > MIN_SERVINGS") ;;;
  _ <-- Out.lift
          (py_assert ((Console.ORIGINAL_SERVINGS >=? Console.MIN_SERVINGS)
                      && (Console.ORIGINAL_SERVINGS <=? Console.MAX_SERVINGS))
             "ORIGINAL_SERVINGS out of valid range") ;;;
  _ <-- Out.lift (py_assert (Dict.len Console.ORIGINAL_RECIPE >? 0)
                    "ORIGINAL_RECIPE cannot be empty") ;;;
  _ <-- Out.print ([10%N] ++ Text.times "=" 70)%list ;;;
  _ <-- Out.print (Text.cps [63743; 252; 231; 8734]
                   ++ Text.of_string "  RECIPE QUANTITY ADJUSTER")%list ;;;
  _ <-- Out.print (Text.times "=" 70) ;;;
  _ <-- Out.print
          (Text.of_string
             ("Original recipe serves: "
              ++ Str.of_int Console.ORIGINAL_SERVINGS ++ " people")) ;;;
  _ <-- Out.print (Text.times "=" 70) ;;;
  run AskServings inputs.

End ConsoleShell.

(** ** The Kivy program: the state of the application and its handlers *)

Module ApkShell.

Definition format_ingredient_name (ingredient : string) : text :=
  Unicode.title (str_replace "_" " " ingredient).

(** What the handlers read and write: the text of the input field, the
    text of the results label, the two attributes [scaled_recipe] and
    [desired_servings], and the messages of the popups opened so far. *)
Record App : Type := {
  servings_input_text : string;
  results_label_text : text;
  scaled_recipe : option Recipe;
  desired_servings : Z;
  popups : list string
}.

(** The state after [__init__] and [build]. *)
Definition build : App := {|
  servings_input_text := "";
  results_label_text := Text.of_string "Enter servings and tap Scale Recipe";
  scaled_recipe := None;
  desired_servings := 0;
  popups := []
|}.

(** The loop of the two display methods; [gap] is the blank or the two
    blanks before the name. *)
Fixpoint ingredient_lines (gap : string) (items : Recipe) (result_text : text)
  : result text :=
  match items with
  | [] => Ok result_text
  | (ingredient, details) :: rest =>
      let name := format_ingredient_name ingredient in
      amount_str <- APK.format_amount (amount details) ;;
      let unit_str := unit_ details in
      ingredient_lines gap rest
        (result_text ++ Text.of_string "  " ++ [8226%N]
         ++ Text.of_string (" " ++ amount_str ++ " " ++ unit_str ++ gap)
         ++ name ++ [10%N])%list
  end.

(** A handler leaves the state it reached when an exception stops it. *)
Definition handler : Type := App -> App * result unit.

Definition display_original_recipe : handler := fun app =>
  let result_text :=
    (Text.of_string "[b]No scaling needed![/b]" ++ [10%N; 10%N]
     ++ Text.of_string "[b]INGREDIENTS:[/b]" ++ [10%N])%list in
  match ingredient_lines " " APK.ORIGINAL_RECIPE result_text with
  | Ok result_text =>
      ({| servings_input_text := servings_input_text app;
          results_label_text := result_text;
          scaled_recipe := scaled_recipe app;
          desired_servings := desired_servings app;
          popups := popups app |}, Ok tt)
  | Raise e => (app, Raise e)
  end.

Definition display_scaled_recipe (recipe : Recipe) (servings : Z)
    (scaling_factor : F64.float) : handler := fun app =>
  let result_text :=
    (Text.of_string ("[b]RECIPE FOR " ++ Str.of_int servings ++ " SERVINGS[/b]")
     ++ [10%N]
     ++ Text.of_string
          ("[size=12sp](Scaling factor: "
           ++ Str.format_2f_float scaling_factor ++ "x)[/size]")
     ++ [10%N; 10%N]
     ++ Text.of_string "[b]INGREDIENTS:[/b]" ++ [10%N])%list in
  match ingredient_lines "  " recipe result_text with
  | Ok result_text =>
      ({| servings_input_text := servings_input_text app;
          results_label_text := result_text;
          scaled_recipe := scaled_recipe app;
          desired_servings := desired_servings app;
          popups := popups app |}, Ok tt)
  | Raise e => (app, Raise e)
  end.

(** [show_error] opens a popup that shows the message. *)
Definition show_error (message : string) : handler := fun app =>
  ({| servings_input_text := servings_input_text app;
      results_label_text := results_label_text app;
      scaled_recipe := scaled_recipe app;
      desired_servings := desired_servings app;
      popups := (popups app ++ [message])%list |}, Ok tt).

Definition on_scale_pressed : handler := fun app =>
  let servings_str := Str.strip (servings_input_text app) in
  match APK.is_valid_servings servings_str with
  | Raise e => (app, Raise e)
  | Ok (is_valid, error_msg, servings) =>
      if negb is_valid then show_error error_msg app
      else
        let app :=
          {| servings_input_text := servings_input_text app;
             results_label_text := results_label_text app;
             scaled_recipe := scaled_recipe app;
             desired_servings := servings;
             popups := popups app |} in
        match APK.calculate_scaling_factor APK.ORIGINAL_SERVINGS servings with
        | Raise e => (app, Raise e)
        | Ok scaling_factor =>
            if Num.eqb (PyFloat scaling_factor) (PyFloat f1_0) then
              display_original_recipe app
            else
              match APK.scale_recipe APK.ORIGINAL_RECIPE
                      (PyFloat scaling_factor) with
              | Raise e => (app, Raise e)
              | Ok scaled =>
                  display_scaled_recipe scaled servings scaling_factor
                    {| servings_input_text := servings_input_text app;
                       results_label_text := results_label_text app;
                       scaled_recipe := Some scaled;
                       desired_servings := desired_servings app;
                       popups := popups app |}
              end
        end
  end.

Definition on_reset_pressed : handler := fun app =>
  ({| servings_input_text := "";
      results_label_text := Text.of_string "Enter servings and tap Scale Recipe";
      scaled_recipe := None;
      desired_servings := desired_servings app;
      popups := popups app |}, Ok tt).

(** What the user does: type a text in the field, or tap a button. *)
Inductive event : Type :=
| Type_text (s : string)
| Tap_scale
| Tap_reset.

Definition handle (ev : event) : handler :=
  match ev with
  | Type_text s => fun app =>
      ({| servings_input_text := s;
          results_label_text := results_label_text app;
          scaled_recipe := scaled_recipe app;
          desired_servings := desired_servings app;
          popups := popups app |}, Ok tt)
  | Tap_scale => on_scale_pressed
  | Tap_reset => on_reset_pressed
  end.

(** The events in turn, until one raises. *)
Fixpoint handle_all (evs : list event) : handler := fun app =>
  match evs with
  | [] => (app, Ok tt)
  | ev :: rest =>
      match handle ev app with
      | (app', Ok _) => handle_all rest app'
      | (app', Raise e) => (app', Raise e)
      end
  end.

End ApkShell.
(** ** The vocabulary of the specification *)

(** The five validation errors; the code tells them apart by message. *)
Inductive ValidationError : Type :=
| EmptyInput
| NotNumeric
| NotWholeNumber
| BelowMinimum
| AboveMaximum.

Definition error_message (e : ValidationError) : string :=
  match e with
  | EmptyInput => "Servings cannot be empty"
  | NotNumeric => "Servings must be a valid number"
  | NotWholeNumber => "Servings must be a whole number"
  | BelowMinimum => "Servings must be at least 1"
  | AboveMaximum => "Servings cannot exceed 100"
  end.

(** The tuple [is_valid_servings] returns on a validation error, and on
    success. *)
Definition failure (e : ValidationError) : result (bool * string * Z) :=
  Ok (false, error_message e, 0).

Definition success (n : Z) : result (bool * string * Z) := Ok (true, "", n).

(** [InvalidAmount] is the failed precondition of [format_amount]. *)
Definition InvalidAmount : exn := AssertionError "Amount must be positive".

(** [d1 == d2] on two recipes: the same keys, and equal values under
    each key, the amounts compared as numbers. *)
Definition entry_eqb (a b : IngredientEntry) : bool :=
  Num.eqb (amount a) (amount b) && String.eqb (unit_ a) (unit_ b).

Definition recipe_eqb (d1 d2 : Recipe) : bool :=
  (Dict.len d1 =? Dict.len d2)
  && forallb (fun e =>
       match Dict.getitem String.eqb d2 (fst e) with
       | Ok v => entry_eqb (snd e) v
       | Raise _ => false
       end) d1.

(** An entry whose amount is strictly positive. *)
Definition positive_amount (e : string * IngredientEntry) : Prop :=
  Num.gtb (amount (snd e)) (PyInt 0) = true.

(** [e'] is [e] scaled by [f]: the name and the unit of [e], and the
    product of its amount by [f]. *)
Definition scaled_entry (f : num) (e e' : string * IngredientEntry) : Prop :=
  fst e' = fst e
  /\ unit_ (snd e') = unit_ (snd e)
  /\ Num.mul (amount (snd e)) f = Ok (amount (snd e')).

(** The product of the amount of [e] by [f] exists and lies strictly
    between 0 and 10000. *)
Definition sane_product (f : num) (e : string * IngredientEntry) : Prop :=
  exists p, Num.mul (amount (snd e)) f = Ok p
            /\ Num.gtb p (PyInt 0) = true
            /\ Num.ltb p (PyInt 10000) = true.

(** The integers from [lo] upward, [n] of them. *)
Fixpoint Zseq (lo : Z) (n : nat) : list Z :=
  match n with
  | O => []
  | S n' => lo :: Zseq (lo + 1) n'
  end.

(** A strictly positive finite amount: a positive [int], or a positive
    finite binary64 number. *)
Definition positive_finite (a : num) : bool :=
  match a with
  | PyInt z => 0 <? z
  | PyFloat x => F64.valid x && F64.is_finite x && Num.gtb a (PyInt 0)
  end.

(** The strict table of fractions, on a number of hundredths. *)
Definition fraction_of_hundredths (h : Z) : option string :=
  if h =? 25 then Some "1/4"
  else if h =? 50 then Some "1/2"
  else if h =? 75 then Some "3/4"
  else None.

(** The rendering of [h] hundredths with two decimals. *)
Definition fixed2 (h : Z) : string :=
  (Str.of_int (h / 100) ++ "." ++ Str.two_digits (h mod 100))%string.

(** The three steps of the formatting policy, in their order, on the
    exact value [n / d] of the amount. *)
Definition format_amount_policy (v : Z * positive) : string :=
  let '(n, d) := v in
  let whole := n / Zpos d in
  let remainder := n mod Zpos d in
  if remainder =? 0 then Str.of_int whole
  else
    match fraction_of_hundredths
            (Num.round_half_even (100 * remainder) (Zpos d)) with
    | Some fr =>
        if whole =? 0 then fr else (Str.of_int whole ++ " " ++ fr)%string
    | None =>
        Str.rstrip "." (Str.rstrip "0"
          (fixed2 (Num.round_half_even (100 * n) (Zpos d))))
    end.

(** The table of fractions of the source, looked up with the float of
    [h] hundredths, agrees with [fraction_of_hundredths h]. *)
Definition fractions_agree (h : Z) : bool :=
  let fractions := [ (PyFloat f0_25, "1/4"); (PyFloat f0_5, "1/2");
                     (PyFloat f0_75, "3/4") ] in
  let decimal := PyFloat (F64.of_ratio false (Z.to_N h) 100) in
  match fraction_of_hundredths h with
  | Some fr =>
      Dict.mem Num.eqb decimal fractions
      && match Dict.getitem Num.eqb fractions decimal with
         | Ok s => String.eqb s fr
         | Raise _ => false
         end
  | None => negb (Dict.mem Num.eqb decimal fractions)
  end.

(** The characters of a formatted amount: the digits, the blank, the
    slash and the point. *)
Definition amount_char (c : ascii) : bool :=
  Str.is_digit c || Ascii.eqb c " " || Ascii.eqb c "/" || Ascii.eqb c ".".

(** The rendering of [h] hundredths with no more decimals than needed:
    none when both are zero, one when the second is zero. *)
Definition fixed2_stripped (h : Z) : string :=
  let q := h / 100 in
  let r := h mod 100 in
  if r =? 0 then Str.of_int q
  else if r mod 10 =? 0 then
    (Str.of_int q ++ "." ++ String (Str.digit_char (r / 10)) EmptyString)%string
  else (Str.of_int q ++ "." ++ Str.two_digits r)%string.

(** The exceptions [scale_recipe] raises on a recipe it refuses: a
    failed precondition, a failed sanity check of the loop, or the
    overflow of an integer amount too large for a float. *)
Definition scale_recipe_rejection (e : exn) : Prop :=
  e = OverflowError
  \/ In e (map AssertionError
             [ "Recipe cannot be empty"; "Scaling factor must be positive";
               "Amount must be positive"; "Scaled amount is not positive";
               "Scaled amount seems unreasonably large" ]).


(** ** The vocabulary of the theorems about the two programs *)

(** A lower-case letter of ASCII. *)
Definition is_lower_letter (c : ascii) : bool :=
  Unicode.between 97 122 (Str.code c).

(** A word of lower-case letters of ASCII, possibly empty. *)
Definition lower_word (w : string) : Prop :=
  Forall (fun c => is_lower_letter c = true) (list_ascii_of_string w).

(** A word with its first letter in upper case. *)
Definition capitalized (w : string) : text :=
  match w with
  | EmptyString => []
  | String c r => Z.to_N (Str.code c - 32) :: Text.of_string r
  end.

(** The words separated by blanks. *)
Fixpoint spaced (words : list text) : text :=
  match words with
  | [] => []
  | [w] => w
  | w :: rest => (w ++ 32%N :: spaced rest)%list
  end.

(** The amount of an entry can be formatted. *)
Definition formattable (e : string * IngredientEntry) : Prop :=
  exists s, Console.format_amount (amount (snd e)) = Ok s.

(** Whether a result is a return. *)
Definition returns {A : Type} (r : result A) : bool :=
  match r with
  | Ok _ => true
  | Raise _ => false
  end.

(** A state in which the console loop can wait: the comparison it may
    be asked for returns. *)
Definition comparable (w : ConsoleShell.waiting) : bool :=
  match w with
  | ConsoleShell.AskComparison scaled desired =>
      returns (snd (ConsoleShell.compare_recipes Console.ORIGINAL_RECIPE
                      scaled Console.ORIGINAL_SERVINGS desired))
  | _ => true
  end.

(** On the numeral of [n], the body of the console loop returns and
    leaves a state in which the loop can wait. *)
Definition serves (n : Z) : bool :=
  match snd (ConsoleShell.step ConsoleShell.AskServings (Str.of_int n)) with
  | Ok w => comparable w
  | Raise _ => false
  end.

(** A line on which the validation of the servings overflows. *)
Definition overflows (line : string) : Prop :=
  Console.is_valid_servings (Str.strip line) = Raise OverflowError.

(** A text made of digits only, which is what the input field of the
    Kivy program is set to accept, and the number it denotes. *)
Definition all_digits (s : string) : bool :=
  forallb Str.is_digit (list_ascii_of_string s).

Definition numeral_value (s : string) : Z :=
  Str.digits_val (list_ascii_of_string s).

(** The state of the Kivy program at its start, with a text typed in
    the input field. *)
Definition typed (s : string) : ApkShell.App :=
  fst (ApkShell.handle (ApkShell.Type_text s) ApkShell.build).

(** The five messages of [is_valid_servings]. *)
Definition validation_messages : list string :=
  map error_message
    [EmptyInput; NotNumeric; NotWholeNumber; BelowMinimum; AboveMaximum].

(** Two lists of keys are the same, in the same order. *)
Fixpoint same_order (a b : list string) : bool :=
  match a, b with
  | [], [] => true
  | x :: a', y :: b' => String.eqb x y && same_order a' b'
  | _, _ => false
  end.

(** For [n] servings the three steps go through: the factor exists,
    the original recipe is scaled by it, the scaled recipe has the
    ingredients of the original in their order, and every scaled
    amount can be formatted. *)
Definition goes_through (n : Z) : bool :=
  match Console.calculate_scaling_factor Console.ORIGINAL_SERVINGS n with
  | Ok q =>
      match Console.scale_recipe Console.ORIGINAL_RECIPE (PyFloat q) with
      | Ok scaled =>
          same_order (Dict.keys scaled) (Dict.keys Console.ORIGINAL_RECIPE)
          && forallb (fun e => returns (Console.format_amount (amount (snd e))))
               scaled
      | Raise _ => false
      end
  | Raise _ => false
  end.

(** The state of the Kivy program is sound: the servings it remembers
    are 0, as at the start, or from 1 to 100; the recipe it remembers,
    if any, has the ingredients of the original; every popup shows a
    message of the validation. *)
Definition sound (app : ApkShell.App) : Prop :=
  0 <= ApkShell.desired_servings app <= 100
  /\ match ApkShell.scaled_recipe app with
     | None => True
     | Some scaled => Dict.keys scaled = Dict.keys APK.ORIGINAL_RECIPE
     end
  /\ Forall (fun msg => In msg validation_messages) (ApkShell.popups app).
(** ** The model on the examples of the source's tests *)

Example of_ratio_tenth :
  F64.of_ratio false 1 10 = S754_finite false 7205759403792794 (-56).
Proof. vm_compute. reflexivity. Qed.

Example of_decimal_2_33 :
  F64.of_decimal false 233 (-2) = S754_finite false 5246693565886628 (-51).
Proof. vm_compute. reflexivity. Qed.

Example of_decimal_huge : F64.of_decimal false 1 309 = S754_infinity false.
Proof. vm_compute. reflexivity. Qed.

Example of_Z_3 : F64.of_Z 3 = S754_finite false 6755399441055744 (-51).
Proof. vm_compute. reflexivity. Qed.

Example round2_0_125 :
  Num.round2_float (F64.of_decimal false 125 (-3)) = F64.of_decimal false 12 (-2).
Proof. vm_compute. reflexivity. Qed.

Example round2_0_375 :
  Num.round2_float (F64.of_decimal false 375 (-3)) = F64.of_decimal false 38 (-2).
Proof. vm_compute. reflexivity. Qed.

Example round2_0_235 :
  Num.round2_float (F64.of_decimal false 235 (-3)) = F64.of_decimal false 23 (-2).
Proof. vm_compute. reflexivity. Qed.

Example truediv_1_12 :
  Num.truediv_int 1 12 = Ok (S754_finite false 6004799503160661 (-56)).
Proof. vm_compute. reflexivity. Qed.

Example strip_24 : Str.strip "  24  " = "24".
Proof. reflexivity. Qed.

Example to_float_12_5 : Str.to_float "12.5" = Ok (F64.of_decimal false 125 (-1)).
Proof. vm_compute. reflexivity. Qed.

Example to_float_abc : Str.to_float "abc" = Raise ValueError.
Proof. vm_compute. reflexivity. Qed.

Example to_float_exp : Str.to_float "1_0.e+1" = Ok (F64.of_Z 100).
Proof. vm_compute. reflexivity. Qed.

Example to_float_bad_exp : Str.to_float "1e" = Raise ValueError.
Proof. vm_compute. reflexivity. Qed.

Example to_float_inf : Str.to_float "-Infinity" = Ok (S754_infinity true).
Proof. vm_compute. reflexivity. Qed.

Example to_float_empty : Str.to_float "" = Raise ValueError.
Proof. vm_compute. reflexivity. Qed.

Example format_2f_2_33 : Str.format_2f (PyFloat f2_33) = Ok "2.33".
Proof. vm_compute. reflexivity. Qed.

Example of_int_neg : Str.of_int (-5) = "-5".
Proof. reflexivity. Qed.

Example rstrip_zeros : Str.rstrip "." (Str.rstrip "0" "10.00") = "10".
Proof. reflexivity. Qed.

Example console_format_1_5 : Console.format_amount (PyFloat f1_5) = Ok "1 1/2".
Proof. vm_compute. reflexivity. Qed.

Example console_valid_24 : Console.is_valid_servings "  24  " = Ok (true, "", 24).
Proof. vm_compute. reflexivity. Qed.

Example console_valid_12_5 :
  Console.is_valid_servings "12.5" = Ok (false, "Servings must be a whole number", 0).
Proof. vm_compute. reflexivity. Qed.

Example console_valid_150 :
  Console.is_valid_servings "150" = Ok (false, "Servings cannot exceed 100", 0).
Proof. vm_compute. reflexivity. Qed.

Example console_valid_neg :
  Console.is_valid_servings "-5" = Ok (false, "Servings must be at least 1", 0).
Proof. vm_compute. reflexivity. Qed.

Example console_factor_6 : Console.calculate_scaling_factor 12 6 = Ok f0_5.
Proof. vm_compute. reflexivity. Qed.

(** The cases of [run_tests] and of [test_apk_logic.py]. *)

Example run_tests_is_valid_servings :
  map (fun s => match Console.is_valid_servings s with
                | Ok (v, _, _) => Some v
                | Raise _ => None
                end)
    ["12"; "1"; "100"; "0"; "-5"; ""; "abc"; "12.5"; "150"; "  24  "]
  = map Some [true; true; true; false; false; false; false; false; false; true].
Proof. vm_compute. reflexivity. Qed.

Example run_tests_calculate_scaling_factor :
  map (fun d => Console.calculate_scaling_factor 12 d) [12; 24; 6; 36]
  = map (fun z => Ok (F64.of_decimal false z (-1))) [10; 20; 5; 30]%N.
Proof. vm_compute. reflexivity. Qed.

Example run_tests_format_amount :
  map Console.format_amount
    (map PyFloat [f1_0; f0_5; f0_25; f0_75; f1_5; f2_33])
  = map Ok ["1"; "1/2"; "1/4"; "3/4"; "1 1/2"; "2.33"].
Proof. vm_compute. reflexivity. Qed.

Example run_tests_scale_recipe :
  Console.scale_recipe
    [ ("ingredient1", {| amount := PyFloat (F64.of_Z 2); unit_ := "cups" |});
      ("ingredient2", {| amount := PyFloat (F64.of_Z 1); unit_ := "tbsp" |}) ]
    (PyFloat (F64.of_Z 2))
  = Ok [ ("ingredient1", {| amount := PyFloat (F64.of_Z 4); unit_ := "cups" |});
         ("ingredient2", {| amount := PyFloat (F64.of_Z 2); unit_ := "tbsp" |}) ].
Proof. vm_compute. reflexivity. Qed.

(** The scenarios of the specification: the baseline recipe for 24 and
    for 6 servings. *)
Example scenario_24_servings :
  exists factor scaled flour salt,
    Console.calculate_scaling_factor 12 24 = Ok factor
    /\ Console.scale_recipe Console.ORIGINAL_RECIPE (PyFloat factor) = Ok scaled
    /\ Dict.getitem String.eqb scaled "flour" = Ok flour
    /\ Console.format_amount (amount flour) = Ok "6"
    /\ Dict.getitem String.eqb scaled "salt" = Ok salt
    /\ Console.format_amount (amount salt) = Ok "1".
Proof. do 4 eexists. repeat split; vm_compute; reflexivity. Qed.

Example scenario_6_servings :
  exists factor scaled flour milk,
    Console.calculate_scaling_factor 12 6 = Ok factor
    /\ Console.scale_recipe Console.ORIGINAL_RECIPE (PyFloat factor) = Ok scaled
    /\ Dict.getitem String.eqb scaled "flour" = Ok flour
    /\ Console.format_amount (amount flour) = Ok "1 1/2"
    /\ Dict.getitem String.eqb scaled "milk" = Ok milk
    /\ Console.format_amount (amount milk) = Ok "3/4".
Proof. do 4 eexists. repeat split; vm_compute; reflexivity. Qed.

Lemma Zseq_In (n : nat) : forall lo z,
  lo <= z < lo + Z.of_nat n -> In z (Zseq lo n).
Proof.
  induction n as [|n IH]; intros lo z Hz.
  - lia.
  - cbn [Zseq]. destruct (Z.eq_dec lo z) as [->|Hne].
    + now left.
    + right. apply IH. lia.
Qed.


(** ** Facts on binary64 rounding *)

Module F64Facts.

Import F64.

Lemma digits2_size (p : positive) : digits2_pos p = Pos.size p.
Proof. induction p; cbn; congruence. Qed.

Lemma digits_upper (p : positive) : Zpos p < 2 ^ Zpos (digits2_pos p).
Proof.
  rewrite digits2_size. pose proof (Pos.size_gt p) as H.
  apply Pos2Z.pos_lt_pos in H. now rewrite Pos2Z.inj_pow in H.
Qed.

Lemma digits_lower (p : positive) : 2 ^ Zpos (digits2_pos p) <= 2 * Zpos p.
Proof.
  rewrite digits2_size. pose proof (Pos.size_le p) as H.
  apply Pos2Z.pos_le_pos in H. now rewrite Pos2Z.inj_pow in H.
Qed.

(** A mantissa below [2^k] has at most [k] digits. *)
Lemma digits_le (p : positive) (k : Z) :
  Zpos p < 2 ^ k -> Zpos (digits2_pos p) <= k.
Proof.
  intros Hp. destruct (Z.le_gt_cases (Zpos (digits2_pos p)) k) as [|Hk]; [assumption|].
  exfalso. pose proof (digits_lower p) as Hl.
  assert (0 <= k).
  { destruct (Z.le_gt_cases 0 k); [assumption|].
    rewrite Z.pow_neg_r in Hp by assumption. lia. }
  assert (2 ^ (k + 1) <= 2 ^ Zpos (digits2_pos p))
    by (apply Z.pow_le_mono_r; lia).
  rewrite Z.pow_add_r in * by lia. lia.
Qed.

(** A mantissa of at least [2^k] has more than [k] digits. *)
Lemma digits_gt (p : positive) (k : Z) :
  2 ^ k <= Zpos p -> k < Zpos (digits2_pos p).
Proof.
  intros Hp. destruct (Z.lt_ge_cases k (Zpos (digits2_pos p))) as [|Hk]; [assumption|].
  exfalso. pose proof (digits_upper p) as Hu.
  assert (2 ^ Zpos (digits2_pos p) <= 2 ^ k) by (apply Z.pow_le_mono_r; lia).
  lia.
Qed.

(** Shifting a mantissa to the left by [d] bits. *)
Lemma iter_xO_value (d p : positive) :
  Zpos (Pos.iter xO p d) = Zpos p * 2 ^ Zpos d.
Proof.
  induction d as [|d IH] using Pos.peano_ind.
  - cbn. lia.
  - rewrite Pos.iter_succ, Pos2Z.inj_succ, Z.pow_succ_r by lia.
    rewrite Pos2Z.inj_xO, IH. lia.
Qed.

Lemma iter_xO_digits (d p : positive) :
  digits2_pos (Pos.iter xO p d) = (digits2_pos p + d)%positive.
Proof.
  induction d as [|d IH] using Pos.peano_ind.
  - cbn. lia.
  - rewrite Pos.iter_succ. cbn [digits2_pos]. rewrite IH. lia.
Qed.

(** When the exponent is already the canonical one nothing is shifted
    out and the rounding is the identity. *)
Lemma shr_fexp_id (m e : Z) (l : location) :
  fexp prec emax (Zdigits2 m + e) <= e ->
  shr_fexp prec emax m e l = (shr_record_of_loc m l, e).
Proof.
  intros H. unfold shr_fexp, shr.
  destruct (fexp prec emax (Zdigits2 m + e) - e) eqn:E; try reflexivity. lia.
Qed.

Lemma binary_round_aux_id (s : bool) (m : positive) (e : Z) :
  fexp prec emax (Zpos (digits2_pos m) + e) <= e ->
  e <= emax - prec ->
  binary_round_aux prec emax s (Zpos m) e loc_Exact = S754_finite s m e.
Proof.
  intros Hc He. unfold binary_round_aux.
  rewrite shr_fexp_id by exact Hc. cbn [shr_record_of_loc shr_m loc_of_shr_record round_nearest_even].
  rewrite shr_fexp_id by exact Hc. cbn [shr_record_of_loc shr_m].
  apply Z.leb_le in He. now rewrite He.
Qed.

Lemma shl_value (m : positive) (d : Z) :
  0 <= d -> Zpos (shl m d) = Zpos m * 2 ^ d.
Proof.
  intros Hd. destruct d as [|d|d]; cbn [shl]; [lia | apply iter_xO_value | lia].
Qed.

(** A number that needs no more than the precision is rounded to
    itself, in its canonical representation. *)
Lemma binary_round_exact (s : bool) (m : positive) (e : Z) :
  let t := fexp prec emax (Zpos (digits2_pos m) + e) in
  t <= e -> t <= emax - prec ->
  binary_round prec emax s m e = S754_finite s (shl m (e - t)) t.
Proof.
  intros t. assert (Et : fexp prec emax (Zpos (digits2_pos m) + e) = t) by reflexivity.
  clearbody t. intros Ht Hmax. unfold binary_round, shl_align. rewrite Et.
  destruct (t - e) as [|d|d] eqn:E.
  - assert (e = t) by lia. subst e. rewrite Z.sub_diag. cbn [shl].
    apply binary_round_aux_id; [rewrite Et; lia | exact Hmax].
  - lia.
  - assert (Hd : e - t = Zpos d) by lia. rewrite Hd. cbn [shl].
    apply binary_round_aux_id; [|exact Hmax].
    rewrite iter_xO_digits, Pos2Z.inj_add.
    replace (Zpos (digits2_pos m) + Zpos d + t) with (Zpos (digits2_pos m) + e) by lia.
    rewrite Et. lia.
Qed.

End F64Facts.

(** ** The fractional part of a float *)

Module F64Sub.

Import F64 F64Facts.

Lemma fexp_eq (z : Z) : fexp prec emax z = Z.max (z - 53) (-1074).
Proof. reflexivity. Qed.

Lemma pow_pos_Z (k : positive) : Zpos (Pos.pow 2 k) = 2 ^ Zpos k.
Proof. now rewrite Pos2Z.inj_pow. Qed.

(** Scaling the numerator and the denominator leaves the rounding
    unchanged. *)
Lemma round_half_even_scale (c n d : Z) :
  0 < c -> 0 < d ->
  Num.round_half_even (n * c) (d * c) = Num.round_half_even n d.
Proof.
  intros Hc Hd. unfold Num.round_half_even.
  rewrite Z.div_mul_cancel_r, Z.mul_mod_distr_r by lia.
  replace (2 * (n mod d * c)) with (2 * (n mod d) * c) by lia.
  rewrite <- Zmult_compare_compat_r by lia. reflexivity.
Qed.

Section FractionalPart.

Variables (m k : positive).
Let e : Z := Zneg k.
Let x : float := S754_finite false m e.
Let w : Z := Zpos m / 2 ^ Zpos k.
Let r : Z := Zpos m mod 2 ^ Zpos k.

Hypothesis Hvalid : valid x = true.
Hypothesis Hw : 0 < w.
Hypothesis Hr : r <> 0.

Lemma pow_k_pos : 0 < 2 ^ Zpos k.
Proof. apply Z.pow_pos_nonneg; lia. Qed.

Lemma m_split : Zpos m = w * 2 ^ Zpos k + r /\ 0 < r < 2 ^ Zpos k.
Proof.
  pose proof pow_k_pos as Hk.
  pose proof (Z.div_mod (Zpos m) (2 ^ Zpos k) ltac:(lia)).
  pose proof (Z.mod_pos_bound (Zpos m) (2 ^ Zpos k) Hk).
  subst w r. split; lia.
Qed.

(** A float with an integer part of at least 1 and a fractional part is
    a normal number: its mantissa has 53 digits and its exponent is at
    least -52. *)
Lemma normal_digits : Zpos (digits2_pos m) = 53 /\ Zpos k <= 52.
Proof.
  pose proof pow_k_pos as Hk. destruct m_split as [Hm Hrb].
  unfold valid, valid_binary, x, bounded, canonical_mantissa in Hvalid.
  apply andb_true_iff in Hvalid as [Hc _]. apply Z.eqb_eq in Hc.
  rewrite fexp_eq in Hc. subst e.
  assert (Hge : 2 ^ Zpos k <= Zpos m) by nia.
  apply digits_gt in Hge. lia.
Qed.

Lemma w_digits (ww : positive) :
  w = Zpos ww -> Zpos (digits2_pos ww) = 53 - Zpos k.
Proof.
  intros Eww. pose proof pow_k_pos as Hk.
  destruct m_split as [Hm Hrb]. destruct normal_digits as [Hd Hk52].
  pose proof (digits_upper m) as Hu. pose proof (digits_lower m) as Hl.
  rewrite Hd in Hu, Hl.
  assert (E53 : 2 ^ 53 = 2 ^ (53 - Zpos k) * 2 ^ Zpos k)
    by (rewrite <- Z.pow_add_r by lia; f_equal; lia).
  assert (E52 : 2 ^ 53 = 2 * (2 ^ (52 - Zpos k) * 2 ^ Zpos k)).
  { rewrite <- Z.pow_add_r by lia. rewrite <- Z.pow_succ_r by lia. f_equal; lia. }
  assert (Hlt : Zpos ww < 2 ^ (53 - Zpos k)) by (rewrite <- Eww; nia).
  assert (Hge : 2 ^ (52 - Zpos k) <= Zpos ww).
  { rewrite <- Eww.
    assert (0 < 2 ^ (52 - Zpos k)) by (apply Z.pow_pos_nonneg; lia).
    nia. }
  apply digits_le in Hlt. apply digits_gt in Hge. lia.
Qed.

(** [float(whole)] is exact. *)
Lemma float_of_whole (ww : positive) :
  w = Zpos ww ->
  Num.float_of_int w = Ok (S754_finite false (shl ww (Zpos k)) e).
Proof.
  intros Eww. pose proof (w_digits ww Eww) as Hd.
  destruct normal_digits as [_ Hk52].
  unfold Num.float_of_int, of_Z. rewrite Eww. cbn [binary_normalize].
  pose proof (binary_round_exact false ww 0) as Hx. cbv zeta in Hx.
  rewrite fexp_eq, Z.add_0_r, Hd in Hx.
  replace (Z.max (53 - Zpos k - 53) (-1074)) with e in Hx by (subst e; lia).
  rewrite Hx by (subst e; unfold emax, prec; lia).
  replace (0 - e) with (Zpos k) by (subst e; lia). reflexivity.
Qed.

(** The canonical exponent of the fractional part. *)
Let t (rr : positive) : Z := fexp prec emax (Zpos (digits2_pos rr) + e).

Lemma t_bounds (rr : positive) : r = Zpos rr -> -1074 <= t rr < e.
Proof.
  intros Err. destruct m_split as [_ Hrb]. destruct normal_digits as [_ Hk52].
  assert (Hlt : Zpos rr < 2 ^ Zpos k) by lia.
  apply digits_le in Hlt. unfold t. rewrite fexp_eq. subst e. lia.
Qed.

(** [amount - whole] is exact: the difference of the mantissas is the
    remainder of the mantissa, and it needs no rounding. *)
Lemma sub_whole (ww rr : positive) :
  w = Zpos ww -> r = Zpos rr ->
  sub x (S754_finite false (shl ww (Zpos k)) e)
  = S754_finite false (shl rr (e - t rr)) (t rr).
Proof.
  intros Eww Err. destruct m_split as [Hm _].
  pose proof (t_bounds rr Err) as Ht.
  unfold sub, SFsub, x. rewrite Z.min_id.
  unfold shl_align. rewrite Z.sub_diag. cbn [fst cond_Zopp].
  rewrite shl_value by lia.
  replace (Zpos m - Zpos ww * 2 ^ Zpos k) with (Zpos rr) by lia.
  cbn [binary_normalize].
  apply binary_round_exact; fold (t rr); unfold emax, prec; lia.
Qed.

(** The hundredths of the difference are those of the remainder. *)
Lemma hundredths_remainder (rr : positive) :
  r = Zpos rr ->
  Num.hundredths (shl rr (e - t rr)) (t rr)
  = Num.round_half_even (100 * r) (2 ^ Zpos k).
Proof.
  intros Err. pose proof (t_bounds rr Err) as Ht.
  pose proof pow_k_pos as Hk.
  unfold Num.hundredths, num_den.
  destruct (t rr) as [|q|q] eqn:Eq; [subst e; lia | subst e; lia |].
  rewrite shl_value, pow_pos_Z by lia.
  assert (Hq : Zpos q = Zpos k + (e - Zneg q)) by (subst e; lia).
  rewrite Hq, Z.pow_add_r by lia.
  rewrite Z.mul_assoc, <- Err.
  apply round_half_even_scale; [apply Z.pow_pos_nonneg; lia | exact Hk].
Qed.

End FractionalPart.

End F64Sub.

(** ** The rounded quotient of two integers *)

Module F64Div.

Import F64 F64Facts.

(** *** Shifting to the right *)

Lemma shr_1_shifted (x : shr_record) :
  0 <= shr_m x -> shifted 1 x (shr_1 x).
Proof.
  destruct x as [m r s]. cbn [shr_m]. intros Hm. unfold shifted.
  destruct m as [|[p|p|]|p]; cbn [shr_1 shr_m shr_r shr_s]; try lia;
    change (2 ^ 1) with 2.
  - split; [reflexivity|]. cbn [orb]. auto.
  - rewrite Pos2Z.inj_xI. split; [|intros _; right];
      Z.div_mod_to_equations; lia.
  - rewrite Pos2Z.inj_xO. split; [Z.div_mod_to_equations; lia|].
    cbn [orb]. auto.
  - split; [reflexivity|]. intros _. right. discriminate.
Qed.

Lemma shifted_nonneg (k : Z) (x y : shr_record) :
  0 <= k -> 0 <= shr_m x -> shifted k x y -> 0 <= shr_m y.
Proof.
  intros Hk Hx [Hm _]. rewrite Hm. apply Z.div_pos; [exact Hx|].
  apply Z.pow_pos_nonneg; lia.
Qed.

Lemma shifted_trans (a b : Z) (x y z : shr_record) :
  0 <= a -> 0 <= b -> 0 <= shr_m x ->
  shifted a x y -> shifted b y z -> shifted (a + b) x z.
Proof.
  intros Ha Hb Hx [Hy Fy] [Hz Fz].
  assert (Pa : 0 < 2 ^ a) by (apply Z.pow_pos_nonneg; lia).
  assert (Pb : 0 < 2 ^ b) by (apply Z.pow_pos_nonneg; lia).
  split.
  - rewrite Hz, Hy, Z.pow_add_r, Z.div_div by lia. reflexivity.
  - intros F. destruct (Fz F) as [F'|Hmod].
    + destruct (Fy F') as [F''|Hmod]; [now left|right].
      intros H0. apply Hmod.
      rewrite Z.pow_add_r in H0 by lia.
      apply Z.mod_divide in H0; [|lia]. apply Z.mod_divide; [lia|].
      destruct H0 as [c Hc]. exists (c * 2 ^ b). rewrite Hc. ring.
    + right. intros H0. apply Hmod. rewrite Hy.
      rewrite Z.pow_add_r in H0 by lia.
      apply Z.mod_divide in H0; [|lia]. apply Z.mod_divide; [lia|].
      destruct H0 as [c Hc]. exists c.
      rewrite Hc. replace (c * (2 ^ a * 2 ^ b)) with (c * 2 ^ b * 2 ^ a) by ring.
      now rewrite Z.div_mul by lia.
Qed.

Lemma iter_shr_1_shifted (p : positive) : forall x : shr_record,
  0 <= shr_m x -> shifted (Zpos p) x (iter_pos shr_1 p x).
Proof.
  induction p as [p IH|p IH|]; intros x Hx; cbn [iter_pos].
  - pose proof (shr_1_shifted x Hx) as H1.
    pose proof (shifted_nonneg 1 _ _ ltac:(lia) Hx H1) as Hx1.
    pose proof (IH _ Hx1) as H2.
    pose proof (shifted_nonneg (Zpos p) _ _ ltac:(lia) Hx1 H2) as Hx2.
    pose proof (IH _ Hx2) as H3.
    pose proof (shifted_trans 1 (Zpos p) _ _ _ ltac:(lia) ltac:(lia) Hx H1 H2)
      as H12.
    pose proof (shifted_trans (1 + Zpos p) (Zpos p) _ _ _
                  ltac:(lia) ltac:(lia) Hx H12 H3) as H.
    replace (Zpos p~1) with (1 + Zpos p + Zpos p) by lia. exact H.
  - pose proof (IH _ Hx) as H1.
    pose proof (shifted_nonneg (Zpos p) _ _ ltac:(lia) Hx H1) as Hx1.
    pose proof (IH _ Hx1) as H2.
    pose proof (shifted_trans (Zpos p) (Zpos p) _ _ _
                  ltac:(lia) ltac:(lia) Hx H1 H2) as H.
    replace (Zpos p~0) with (Zpos p + Zpos p) by lia. exact H.
  - apply shr_1_shifted, Hx.
Qed.

Lemma shifted_refl (x : shr_record) : shifted 0 x x.
Proof. split; [now rewrite Z.div_1_r | auto]. Qed.

(** [shr] shifts by [n] bits when [n] is positive, and not at all
    otherwise. *)
Lemma shr_shifted (x : shr_record) (e n : Z) :
  0 <= shr_m x ->
  exists k, 0 <= k /\ (0 < n -> k = n) /\ (n <= 0 -> k = 0)
            /\ shifted k x (fst (shr x e n)) /\ snd (shr x e n) = e + k.
Proof.
  intros Hx. destruct n as [|p|p]; cbn [shr fst snd].
  - exists 0. split; [lia|]. split; [lia|]. split; [lia|].
    split; [apply shifted_refl | lia].
  - exists (Zpos p). split; [lia|]. split; [lia|]. split; [lia|].
    split; [apply iter_shr_1_shifted, Hx | reflexivity].
  - exists 0. split; [lia|]. split; [lia|]. split; [lia|].
    split; [apply shifted_refl | lia].
Qed.

Lemma shr_record_of_loc_m (m : Z) (l : location) :
  shr_m (shr_record_of_loc m l) = m.
Proof. destruct l as [|[]]; reflexivity. Qed.

Lemma shr_record_of_loc_flags (m : Z) (l : location) :
  shr_r (shr_record_of_loc m l) || shr_s (shr_record_of_loc m l) = true ->
  l <> loc_Exact.
Proof. destruct l as [|[]]; cbn; congruence. Qed.

(** The shift of [shr_fexp] on a positive mantissa: it brings the
    mantissa down to 53 digits at most and leaves it positive. *)
Lemma shr_fexp_spec (mm : positive) (e : Z) (l : location) :
  -1074 <= e ->
  exists k mrs,
    shr_fexp prec emax (Zpos mm) e l = (mrs, e + k)
    /\ 0 <= k
    /\ shifted k (shr_record_of_loc (Zpos mm) l) mrs
    /\ 1 <= shr_m mrs
    /\ (k = 0 \/ e + k = Zpos (digits2_pos mm) + e - 53).
Proof.
  intros He. unfold shr_fexp. cbn [Zdigits2].
  set (x := shr_record_of_loc (Zpos mm) l).
  set (n := fexp prec emax (Zpos (digits2_pos mm) + e) - e).
  assert (Hx : 0 <= shr_m x) by (subst x; rewrite shr_record_of_loc_m; lia).
  destruct (shr_shifted x e n Hx) as (k & Hk & Hpos & Hneg & Hsh & He2).
  exists k, (fst (shr x e n)). split.
  { rewrite <- He2. now destruct (shr x e n). }
  split; [exact Hk|]. split; [exact Hsh|].
  assert (Hn : n = Z.max (Zpos (digits2_pos mm) - 53) (-1074 - e)).
  { subst n. unfold fexp, emin, emax, prec. lia. }
  destruct (Z.le_gt_cases n 0) as [Hle|Hgt].
  - rewrite (Hneg Hle) in *. split; [|now left].
    destruct Hsh as [Hm _]. rewrite Hm. subst x.
    rewrite shr_record_of_loc_m, Z.div_1_r. lia.
  - rewrite (Hpos Hgt) in *. split; [|right; lia].
    destruct Hsh as [Hm _]. rewrite Hm. subst x.
    rewrite shr_record_of_loc_m.
    assert (Hnd : n = Zpos (digits2_pos mm) - 53) by lia.
    pose proof (digits_lower mm) as Hl.
    assert (E : 2 ^ Zpos (digits2_pos mm) = 2 * (2 ^ 52 * 2 ^ n)).
    { rewrite <- Z.pow_add_r, <- Z.pow_succ_r by lia. f_equal. lia. }
    assert (Pn : 0 < 2 ^ n) by (apply Z.pow_pos_nonneg; lia).
    assert (2 ^ 52 <= Zpos mm / 2 ^ n); [|lia].
    apply Z.div_le_lower_bound; lia.
Qed.

Lemma round_nearest_even_bounds (mrs : shr_record) :
  let r := round_nearest_even (shr_m mrs) (loc_of_shr_record mrs) in
  shr_m mrs <= r <= shr_m mrs + 1
  /\ (r <> shr_m mrs -> shr_r mrs || shr_s mrs = true).
Proof.
  destruct mrs as [m [] []]; cbn; try destruct (Z.even m); split; auto; lia.
Qed.

(** *** Rounding a quotient *)

(** [binary_round_aux] on the truncated quotient [N / D] at an exponent
    [e'] with its location: when the quotient is at least 1 and the
    exact value [N / D * 2^e'] is at most [K], the result is a positive
    finite float of value at most [K]. *)
Lemma round_aux_bounds (sx : bool) (qq : positive) (e' : Z) (l : location)
    (N D K : Z) :
  0 < D -> Zpos qq = N / D -> (l <> loc_Exact -> N mod D <> 0) ->
  -1074 <= e' <= 0 -> 0 < K < 2 ^ 53 -> N <= K * 2 ^ (- e') * D ->
  exists m e,
    binary_round_aux prec emax sx (Zpos qq) e' l = S754_finite sx m e
    /\ e <= 0 /\ Zpos m <= K * 2 ^ (- e).
Proof.
  intros HD Hq Hl He' HK HN.
  assert (Pe' : 0 < 2 ^ (- e')) by (apply Z.pow_pos_nonneg; lia).
  assert (Hqle : Zpos qq <= K * 2 ^ (- e')).
  { rewrite Hq. apply Z.div_le_upper_bound; [lia|]. nia. }
  assert (Hdq : Zpos (digits2_pos qq) <= 53 - e').
  { apply digits_le. replace (53 - e') with (53 + - e') by lia.
    rewrite Z.pow_add_r by lia. nia. }
  destruct (shr_fexp_spec qq e' l ltac:(lia))
    as (k1 & mrs1 & E1 & Hk1 & Hsh1 & Hm1 & Hc1).
  unfold binary_round_aux. rewrite E1.
  pose proof (round_nearest_even_bounds mrs1) as Hr. cbv zeta in Hr.
  set (m1 := round_nearest_even (shr_m mrs1) (loc_of_shr_record mrs1)) in *.
  destruct Hr as [Hr1 Hr2].
  set (e1 := e' + k1) in *.
  assert (He1 : -1074 <= e1 <= 0) by (subst e1; lia).
  assert (Pk1 : 0 < 2 ^ k1) by (apply Z.pow_pos_nonneg; lia).
  assert (Pe1 : 0 < 2 ^ (- e1)) by (apply Z.pow_pos_nonneg; lia).
  assert (Epow : 2 ^ (- e') = 2 ^ (- e1) * 2 ^ k1).
  { rewrite <- Z.pow_add_r by lia. f_equal. subst e1. lia. }
  assert (Hm1le : m1 <= K * 2 ^ (- e1)).
  { destruct Hsh1 as [Hm Hf]. rewrite shr_record_of_loc_m in Hm, Hf.
    assert (Hfloor : shr_m mrs1 = N / (D * 2 ^ k1)).
    { rewrite Hm, Hq, Z.div_div by lia. reflexivity. }
    assert (HNle : N <= K * 2 ^ (- e1) * (D * 2 ^ k1)).
    { rewrite Epow in HN. nia. }
    assert (Hle : shr_m mrs1 <= K * 2 ^ (- e1)).
    { rewrite Hfloor. apply Z.div_le_upper_bound; nia. }
    destruct (Z.eq_dec m1 (shr_m mrs1)) as [->|Hne]; [exact Hle|].
    assert (Hmod : N mod (D * 2 ^ k1) <> 0).
    { destruct (Hf (Hr2 Hne)) as [F|F].
      - apply shr_record_of_loc_flags in F. apply Hl in F.
        intros H0. apply F.
        apply Z.mod_divide in H0; [|nia]. apply Z.mod_divide; [lia|].
        destruct H0 as [c Hc]. exists (c * 2 ^ k1). rewrite Hc. ring.
      - intros H0. apply F. rewrite Hq.
        apply Z.mod_divide in H0; [|nia]. apply Z.mod_divide; [lia|].
        destruct H0 as [c Hc]. exists c. rewrite Hc.
        replace (c * (D * 2 ^ k1)) with (c * 2 ^ k1 * D) by ring.
        now rewrite Z.div_mul by lia. }
    assert (Hlt : N < K * 2 ^ (- e1) * (D * 2 ^ k1)).
    { destruct (Z.eq_dec N (K * 2 ^ (- e1) * (D * 2 ^ k1))) as [Heq|]; [|lia].
      exfalso. apply Hmod. rewrite Heq. apply Z.mod_mul. nia. }
    assert (N / (D * 2 ^ k1) < K * 2 ^ (- e1)).
    { apply Z.div_lt_upper_bound; nia. }
    lia. }
  destruct m1 as [|mm1|mm1] eqn:Em1; [lia| |lia].
  assert (Hdm1 : Zpos (digits2_pos mm1) <= 53 - e1).
  { apply digits_le. replace (53 - e1) with (53 + - e1) by lia.
    rewrite Z.pow_add_r by lia. nia. }
  destruct (shr_fexp_spec mm1 e1 loc_Exact ltac:(lia))
    as (k2 & mrs2 & E2 & Hk2 & Hsh2 & Hm2 & Hc2).
  rewrite E2.
  set (e2 := e1 + k2) in *.
  assert (He2 : e2 <= 0) by (subst e2; lia).
  destruct Hsh2 as [Hm Hf]. rewrite shr_record_of_loc_m in Hm.
  destruct (shr_m mrs2) as [|mm2|mm2] eqn:Em2; [lia| |lia].
  exists mm2, e2.
  replace (e2 <=? emax - prec) with true
    by (symmetry; apply Z.leb_le; unfold emax, prec; lia).
  split; [reflexivity|]. split; [exact He2|].
  assert (Pk2 : 0 < 2 ^ k2) by (apply Z.pow_pos_nonneg; lia).
  assert (Epow2 : 2 ^ (- e1) = 2 ^ (- e2) * 2 ^ k2).
  { rewrite <- Z.pow_add_r by lia. f_equal. subst e2. lia. }
  rewrite Hm. apply Z.div_le_upper_bound; [lia|].
  rewrite Epow2 in Hm1le. nia.
Qed.

(** The same with a bound on each side: rounding does not cross an
    integer. *)
Lemma round_aux_between (sx : bool) (qq : positive) (e' : Z) (l : location)
    (N D K1 K : Z) :
  0 <= K1 -> K1 * 2 ^ (- e') * D <= N ->
  0 < D -> Zpos qq = N / D -> (l <> loc_Exact -> N mod D <> 0) ->
  -1074 <= e' <= 0 -> 0 < K < 2 ^ 53 -> N <= K * 2 ^ (- e') * D ->
  exists m e,
    binary_round_aux prec emax sx (Zpos qq) e' l = S754_finite sx m e
    /\ e <= 0 /\ K1 * 2 ^ (- e) <= Zpos m <= K * 2 ^ (- e).
Proof.
  intros HK1 HN1 HD Hq Hl He' HK HN.
  assert (Pe' : 0 < 2 ^ (- e')) by (apply Z.pow_pos_nonneg; lia).
  assert (Hqle : Zpos qq <= K * 2 ^ (- e')).
  { rewrite Hq. apply Z.div_le_upper_bound; [lia|]. nia. }
  assert (Hdq : Zpos (digits2_pos qq) <= 53 - e').
  { apply digits_le. replace (53 - e') with (53 + - e') by lia.
    rewrite Z.pow_add_r by lia. nia. }
  destruct (shr_fexp_spec qq e' l ltac:(lia))
    as (k1 & mrs1 & E1 & Hk1 & Hsh1 & Hm1 & Hc1).
  unfold binary_round_aux. rewrite E1.
  pose proof (round_nearest_even_bounds mrs1) as Hr. cbv zeta in Hr.
  set (m1 := round_nearest_even (shr_m mrs1) (loc_of_shr_record mrs1)) in *.
  destruct Hr as [Hr1 Hr2].
  set (e1 := e' + k1) in *.
  assert (He1 : -1074 <= e1 <= 0) by (subst e1; lia).
  assert (Pk1 : 0 < 2 ^ k1) by (apply Z.pow_pos_nonneg; lia).
  assert (Pe1 : 0 < 2 ^ (- e1)) by (apply Z.pow_pos_nonneg; lia).
  assert (Epow : 2 ^ (- e') = 2 ^ (- e1) * 2 ^ k1).
  { rewrite <- Z.pow_add_r by lia. f_equal. subst e1. lia. }
  assert (Hm1le : m1 <= K * 2 ^ (- e1)).
  { destruct Hsh1 as [Hm Hf]. rewrite shr_record_of_loc_m in Hm, Hf.
    assert (Hfloor : shr_m mrs1 = N / (D * 2 ^ k1)).
    { rewrite Hm, Hq, Z.div_div by lia. reflexivity. }
    assert (HNle : N <= K * 2 ^ (- e1) * (D * 2 ^ k1)).
    { rewrite Epow in HN. nia. }
    assert (Hle : shr_m mrs1 <= K * 2 ^ (- e1)).
    { rewrite Hfloor. apply Z.div_le_upper_bound; nia. }
    destruct (Z.eq_dec m1 (shr_m mrs1)) as [->|Hne]; [exact Hle|].
    assert (Hmod : N mod (D * 2 ^ k1) <> 0).
    { destruct (Hf (Hr2 Hne)) as [F|F].
      - apply shr_record_of_loc_flags in F. apply Hl in F.
        intros H0. apply F.
        apply Z.mod_divide in H0; [|nia]. apply Z.mod_divide; [lia|].
        destruct H0 as [c Hc]. exists (c * 2 ^ k1). rewrite Hc. ring.
      - intros H0. apply F. rewrite Hq.
        apply Z.mod_divide in H0; [|nia]. apply Z.mod_divide; [lia|].
        destruct H0 as [c Hc]. exists c. rewrite Hc.
        replace (c * (D * 2 ^ k1)) with (c * 2 ^ k1 * D) by ring.
        now rewrite Z.div_mul by lia. }
    assert (Hlt : N < K * 2 ^ (- e1) * (D * 2 ^ k1)).
    { destruct (Z.eq_dec N (K * 2 ^ (- e1) * (D * 2 ^ k1))) as [Heq|]; [|lia].
      exfalso. apply Hmod. rewrite Heq. apply Z.mod_mul. nia. }
    assert (N / (D * 2 ^ k1) < K * 2 ^ (- e1)).
    { apply Z.div_lt_upper_bound; nia. }
    lia. }
  assert (Hm1ge : K1 * 2 ^ (- e1) <= m1).
  { destruct Hsh1 as [Hm _]. rewrite shr_record_of_loc_m in Hm.
    assert (Hfloor : shr_m mrs1 = N / (D * 2 ^ k1)).
    { rewrite Hm, Hq, Z.div_div by lia. reflexivity. }
    assert (K1 * 2 ^ (- e1) <= N / (D * 2 ^ k1)); [|lia].
    apply Z.div_le_lower_bound; [nia|]. rewrite Epow in HN1. nia. }
  destruct m1 as [|mm1|mm1] eqn:Em1; [lia| |lia].
  assert (Hdm1 : Zpos (digits2_pos mm1) <= 53 - e1).
  { apply digits_le. replace (53 - e1) with (53 + - e1) by lia.
    rewrite Z.pow_add_r by lia. nia. }
  destruct (shr_fexp_spec mm1 e1 loc_Exact ltac:(lia))
    as (k2 & mrs2 & E2 & Hk2 & Hsh2 & Hm2 & Hc2).
  rewrite E2.
  set (e2 := e1 + k2) in *.
  assert (He2 : e2 <= 0) by (subst e2; lia).
  destruct Hsh2 as [Hm Hf]. rewrite shr_record_of_loc_m in Hm.
  destruct (shr_m mrs2) as [|mm2|mm2] eqn:Em2; [lia| |lia].
  exists mm2, e2.
  replace (e2 <=? emax - prec) with true
    by (symmetry; apply Z.leb_le; unfold emax, prec; lia).
  split; [reflexivity|]. split; [exact He2|].
  assert (Pk2 : 0 < 2 ^ k2) by (apply Z.pow_pos_nonneg; lia).
  assert (Epow2 : 2 ^ (- e1) = 2 ^ (- e2) * 2 ^ k2).
  { rewrite <- Z.pow_add_r by lia. f_equal. subst e2. lia. }
  rewrite Hm. split.
  - apply Z.div_le_lower_bound; [lia|]. rewrite Epow2 in Hm1ge. nia.
  - apply Z.div_le_upper_bound; [lia|]. rewrite Epow2 in Hm1le. nia.
Qed.

Lemma new_location_exact (nb r : Z) :
  new_location nb r <> loc_Exact -> r <> 0.
Proof.
  intros H ->. apply H. unfold new_location, new_location_even, new_location_odd.
  now destruct (Z.even nb).
Qed.

(** The first step of the division of [n] by [d]: the numerator is
    scaled by [2^s] so that the truncated quotient has enough digits. *)
Lemma div_core_spec (n d : positive) :
  let e' := Z.min (fexp prec emax (Zpos (digits2_pos n) - Zpos (digits2_pos d))) 0 in
  exists q l,
    SFdiv_core_binary prec emax (Zpos n) 0 (Zpos d) 0 = (q, e', l)
    /\ q = Zpos n * 2 ^ (- e') / Zpos d
    /\ (l <> loc_Exact -> (Zpos n * 2 ^ (- e')) mod Zpos d <> 0).
Proof.
  intros e'. unfold SFdiv_core_binary. cbn [Zdigits2].
  rewrite !Z.add_0_r. change (0 - 0) with 0. fold e'.
  assert (He' : e' <= 0) by (subst e'; lia).
  set (m' := match 0 - e' with
             | 0 => Zpos n
             | Zpos _ => Z.shiftl (Zpos n) (0 - e')
             | Zneg _ => 0
             end).
  assert (Hm' : m' = Zpos n * 2 ^ (- e')).
  { subst m'. replace (0 - e') with (- e') by lia.
    destruct (- e') as [|p|p] eqn:E; [lia | | lia].
    now rewrite Z.shiftl_mul_pow2 by lia. }
  pose proof (Z_div_mod_full m' (Zpos d) ltac:(lia)) as Hdiv.
  unfold Z.div, Z.modulo in *. rewrite <- Hm'.
  destruct (Z.div_eucl m' (Zpos d)) as [q r].
  exists q, (new_location (Zpos d) r). split; [reflexivity|].
  split; [reflexivity|]. apply new_location_exact.
Qed.

(** The rounded quotient of [n] by [d] is a positive finite float of
    value at most [K] when [n / d] is at most [K] and does not
    underflow. *)
Lemma of_ratio_bounds (n d : positive) (K : Z) :
  0 < K < 2 ^ 53 ->
  Zpos n <= K * Zpos d ->
  Zpos d <= Zpos n * 2 ^ 1074 ->
  exists m e,
    of_ratio false (Npos n) d = S754_finite false m e
    /\ e <= 0 /\ Zpos m <= K * 2 ^ (- e).
Proof.
  intros HK Hle Hunder. unfold of_ratio, SFdiv.
  destruct (div_core_spec n d) as (q & l & -> & Hq & Hl). cbn [xorb].
  set (d1 := Zpos (digits2_pos n)) in *. set (d2 := Zpos (digits2_pos d)) in *.
  set (e' := Z.min (fexp prec emax (d1 - d2)) 0) in *.
  assert (He' : e' = Z.min (Z.max (d1 - d2 - 53) (-1074)) 0) by reflexivity.
  assert (Pe' : 0 < 2 ^ (- e')) by (apply Z.pow_pos_nonneg; lia).
  pose proof (digits_lower n) as Hn1. pose proof (digits_upper d) as Hd2.
  fold d1 in Hn1. fold d2 in Hd2.
  assert (Hq1 : 1 <= q).
  { rewrite Hq. apply Z.div_le_lower_bound; [lia|]. rewrite Z.mul_1_r.
    destruct (Z.eq_dec e' (-1074)) as [E|E].
    - rewrite E. exact Hunder.
    - destruct (Z.eq_dec e' 0) as [E0|E0].
      + rewrite E0, Z.mul_1_r.
        assert (2 ^ (d2 + 1) <= 2 ^ d1) by (apply Z.pow_le_mono_r; lia).
        rewrite Z.pow_add_r in * by lia. lia.
      + assert (Es : - e' = 53 + d2 - d1) by lia.
        assert (Ep : 2 ^ d1 * 2 ^ (- e') = 2 ^ 53 * 2 ^ d2).
        { rewrite <- !Z.pow_add_r by lia. f_equal. lia. }
        nia. }
  destruct q as [|qq|qq]; [lia| |lia].
  apply (round_aux_bounds false qq e' l (Zpos n * 2 ^ (- e')) (Zpos d) K);
    try assumption; try lia.
  nia.
Qed.

(** The rounded quotient of [n] by [d] lies between the integers that
    enclose [n / d]. *)
Lemma of_ratio_between (n d : positive) (K1 K : Z) :
  0 <= K1 -> K1 * Zpos d <= Zpos n ->
  0 < K < 2 ^ 53 ->
  Zpos n <= K * Zpos d ->
  Zpos d <= Zpos n * 2 ^ 1074 ->
  exists m e,
    of_ratio false (Npos n) d = S754_finite false m e
    /\ e <= 0 /\ K1 * 2 ^ (- e) <= Zpos m <= K * 2 ^ (- e).
Proof.
  intros HK1 Hge HK Hle Hunder. unfold of_ratio, SFdiv.
  destruct (div_core_spec n d) as (q & l & -> & Hq & Hl). cbn [xorb].
  set (d1 := Zpos (digits2_pos n)) in *. set (d2 := Zpos (digits2_pos d)) in *.
  set (e' := Z.min (fexp prec emax (d1 - d2)) 0) in *.
  assert (He' : e' = Z.min (Z.max (d1 - d2 - 53) (-1074)) 0) by reflexivity.
  assert (Pe' : 0 < 2 ^ (- e')) by (apply Z.pow_pos_nonneg; lia).
  pose proof (digits_lower n) as Hn1. pose proof (digits_upper d) as Hd2.
  fold d1 in Hn1. fold d2 in Hd2.
  assert (Hq1 : 1 <= q).
  { rewrite Hq. apply Z.div_le_lower_bound; [lia|]. rewrite Z.mul_1_r.
    destruct (Z.eq_dec e' (-1074)) as [E|E].
    - rewrite E. exact Hunder.
    - destruct (Z.eq_dec e' 0) as [E0|E0].
      + rewrite E0, Z.mul_1_r.
        assert (2 ^ (d2 + 1) <= 2 ^ d1) by (apply Z.pow_le_mono_r; lia).
        rewrite Z.pow_add_r in * by lia. lia.
      + assert (Es : - e' = 53 + d2 - d1) by lia.
        assert (Ep : 2 ^ d1 * 2 ^ (- e') = 2 ^ 53 * 2 ^ d2).
        { rewrite <- !Z.pow_add_r by lia. f_equal. lia. }
        nia. }
  destruct q as [|qq|qq]; [lia| |lia].
  apply (round_aux_between false qq e' l (Zpos n * 2 ^ (- e')) (Zpos d) K1 K);
    try assumption; try lia; nia.
Qed.

End F64Div.
(** ** Validation of the servings *)

Lemma is_valid_servings_empty : Console.is_valid_servings "" = failure EmptyInput.
Proof. reflexivity. Qed.

(** C1. A string that is empty after trimming is rejected, but only the
    empty string itself with [EmptyInput]: the emptiness test comes
    before the [strip], so a non-empty string of white space reaches
    [float] and is rejected with [NotNumeric], in both programs. *)
Theorem is_valid_servings_blank (s : string) :
  Str.strip s = "" ->
  Console.is_valid_servings s
  = (if String.eqb s "" then failure EmptyInput else failure NotNumeric)
  /\ APK.is_valid_servings s = Console.is_valid_servings s
  /\ failure NotNumeric <> failure EmptyInput.
Proof.
  intros Hstrip. split; [|split; [reflexivity | discriminate]].
  unfold Console.is_valid_servings.
  destruct (String.eqb s ""); [reflexivity|].
  rewrite Hstrip. reflexivity.
Qed.

Lemma is_valid_servings_blank_witness :
  Console.is_valid_servings "   " = failure NotNumeric
  /\ APK.is_valid_servings "   " = Console.is_valid_servings "   "
  /\ failure NotNumeric <> failure EmptyInput.
Proof.
  apply (is_valid_servings_blank "   "). reflexivity.
Defined.

Lemma to_float_raises (s : string) (e : exn) :
  Str.to_float s = Raise e -> e = ValueError.
Proof.
  unfold Str.to_float.
  destruct (Str.drop_underscores _ _) as [l'|]; [|congruence].
  destruct (Str.parse_decimal _); [discriminate|].
  destruct (Str.parse_inf_nan _); [discriminate|congruence].
Qed.

(** Apart from [OverflowError] the function does return one of the six
    results of the specification. *)
Lemma is_valid_servings_outcomes (s : string) :
  (exists n, 1 <= n <= 100 /\ Console.is_valid_servings s = success n)
  \/ (exists e, Console.is_valid_servings s = failure e)
  \/ Console.is_valid_servings s = Raise OverflowError.
Proof.
  unfold Console.is_valid_servings.
  destruct (String.eqb s "").
  { right; left. now exists EmptyInput. }
  unfold Console.is_valid_servings_try.
  destruct (Str.to_float (Str.strip s)) as [x|e] eqn:Hf; cbn [bind].
  2:{ apply to_float_raises in Hf as ->. right; left. now exists NotNumeric. }
  destruct (Num.int_of_float x) as [i|e] eqn:Hi; cbn [bind].
  2:{ destruct x; cbn in Hi; try discriminate.
      - injection Hi as <-. now right; right.
      - injection Hi as <-. right; left. now exists NotNumeric.
      - destruct (F64.num_den m e0); discriminate. }
  destruct (Num.neb _ _).
  { right; left. now exists NotWholeNumber. }
  unfold Console.MIN_SERVINGS, Console.MAX_SERVINGS.
  destruct (Z.ltb_spec i 1).
  { right; left. now exists BelowMinimum. }
  destruct (Z.gtb_spec i 100).
  { right; left. now exists AboveMaximum. }
  left. exists i. split; [lia|].
  replace ((1 <=? i) && (i <=? 100)) with true; [reflexivity|].
  symmetry. apply andb_true_iff. split; apply Z.leb_le; lia.
Qed.

(** C2. [is_valid_servings] is not total: [int(float("inf"))] raises
    [OverflowError], which the [except ValueError] clause does not
    catch.  That exception is the only escape: on every string the
    function either raises it or returns a success in the range or one
    of the five validation errors. *)
Theorem is_valid_servings_inf_raises :
  Console.is_valid_servings "inf" = Raise OverflowError
  /\ forall s : string,
       (exists n, 1 <= n <= 100 /\ Console.is_valid_servings s = success n)
       \/ (exists e, Console.is_valid_servings s = failure e)
       \/ Console.is_valid_servings s = Raise OverflowError.
Proof.
  split; [vm_compute; reflexivity | exact is_valid_servings_outcomes].
Qed.

(** ** The two programs share their core *)

(** C9. The four core functions of the Kivy program are, on every
    input, the functions of the same names of the console program. *)
Theorem apk_matches_console :
  (forall s, APK.is_valid_servings s = Console.is_valid_servings s)
  /\ (forall original desired,
        APK.calculate_scaling_factor original desired
        = Console.calculate_scaling_factor original desired)
  /\ (forall recipe scaling_factor,
        APK.scale_recipe recipe scaling_factor
        = Console.scale_recipe recipe scaling_factor)
  /\ (forall amount, APK.format_amount amount = Console.format_amount amount).
Proof. repeat split. Qed.

(** ** Scaling *)

(** C5. At the baseline the factor is exactly [1.0], and the recipe
    scaled by it has the keys of [ORIGINAL_RECIPE] in the same order and
    is equal to it as a dictionary ([3 * 1.0] is the float [3.0], equal
    to the integer [3]). *)
Theorem baseline_round_trip :
  Console.calculate_scaling_factor Console.ORIGINAL_SERVINGS 12 = Ok f1_0
  /\ exists scaled,
       Console.scale_recipe Console.ORIGINAL_RECIPE (PyFloat f1_0) = Ok scaled
       /\ Dict.keys scaled = Dict.keys Console.ORIGINAL_RECIPE
       /\ recipe_eqb scaled Console.ORIGINAL_RECIPE = true
       /\ recipe_eqb Console.ORIGINAL_RECIPE scaled = true.
Proof.
  split; [vm_compute; reflexivity|].
  eexists. split; [vm_compute; reflexivity|].
  repeat split; vm_compute; reflexivity.
Qed.

Section ScaleRecipe.

Variable f : num.

Lemma setitem_fresh (d : Recipe) (k : string) (v : IngredientEntry) :
  ~ In k (Dict.keys d) -> Dict.setitem String.eqb d k v = (d ++ [(k, v)])%list.
Proof.
  induction d as [|[k' v'] d IH]; intros Hk; cbn.
  - reflexivity.
  - destruct (String.eqb_spec k k') as [->|_].
    + exfalso. apply Hk. now left.
    + rewrite IH; [reflexivity|]. intros Hin. apply Hk. now right.
Qed.

Lemma validate_ok (items : Recipe) :
  Forall positive_amount items -> Console.scale_recipe_validate items = Ok tt.
Proof.
  induction 1 as [|[k d] items Hd _ IH]; cbn.
  - reflexivity.
  - unfold positive_amount in Hd. cbn in Hd. rewrite Hd. cbn. exact IH.
Qed.

Lemma loop_ok (items : Recipe) : forall acc : Recipe,
  NoDup (Dict.keys acc ++ Dict.keys items) ->
  Forall (sane_product f) items ->
  exists out,
    Console.scale_recipe_loop items f acc = Ok (acc ++ out)%list
    /\ Forall2 (scaled_entry f) items out
    /\ Forall positive_amount out.
Proof.
  induction items as [|[k d] items IH]; intros acc Hnd Hsane.
  - exists []. rewrite app_nil_r. repeat split; constructor.
  - inversion Hsane as [|? ? (p & Hmul & Hpos & Hlt) Hrest]; subst.
    cbn in Hmul. cbn [Console.scale_recipe_loop].
    rewrite Hmul. cbn [bind]. rewrite Hpos, Hlt. cbn [py_assert bind].
    rewrite setitem_fresh.
    2:{ cbn in Hnd. apply NoDup_remove_2 in Hnd.
        intros Hin. apply Hnd. apply in_or_app. now left. }
    destruct (IH (acc ++ [(k, {| amount := p; unit_ := unit_ d |})])%list)
      as (out & Hloop & Hout & Hposout).
    + unfold Dict.keys in *. rewrite map_app, <- app_assoc. exact Hnd.
    + exact Hrest.
    + exists ((k, {| amount := p; unit_ := unit_ d |}) :: out).
      rewrite Hloop, <- app_assoc. repeat split.
      * constructor; [|exact Hout]. repeat split. exact Hmul.
      * constructor; [exact Hpos | exact Hposout].
Qed.

Lemma scaled_keys (items out : Recipe) :
  Forall2 (scaled_entry f) items out -> Dict.keys out = Dict.keys items.
Proof.
  unfold Dict.keys.
  induction 1 as [|e e' items out (Hk & _) _ IH]; cbn.
  - reflexivity.
  - now rewrite Hk, IH.
Qed.

End ScaleRecipe.

Lemma same_keys_refl (d1 d2 : Recipe) :
  Dict.keys d1 = Dict.keys d2 -> Dict.same_keys String.eqb d1 d2 = true.
Proof.
  intros Hk. unfold Dict.same_keys. rewrite Hk.
  assert (H : forallb (fun k => existsb (String.eqb k) (Dict.keys d2))
                (Dict.keys d2) = true).
  { apply forallb_forall. intros k Hin. apply existsb_exists.
    exists k. split; [exact Hin | apply String.eqb_refl]. }
  now rewrite H.
Qed.

(** C4, as stated, fails: the baseline recipe and the positive factor
    [5000.0] meet its hypotheses, and [scale_recipe] raises on the
    first ingredient, whose scaled amount is not below 10000. *)
Lemma scale_recipe_large_factor_raises :
  Console.ORIGINAL_RECIPE <> []
  /\ Forall positive_amount Console.ORIGINAL_RECIPE
  /\ Num.gtb (PyFloat (F64.of_Z 5000)) (PyInt 0) = true
  /\ Console.scale_recipe Console.ORIGINAL_RECIPE (PyFloat (F64.of_Z 5000))
     = Raise (AssertionError "Scaled amount seems unreasonably large").
Proof.
  split; [discriminate|]. split; [|split; vm_compute; reflexivity].
  repeat constructor.
Qed.

Example scale_recipe_underflow_raises :
  Console.scale_recipe
    [("salt", {| amount := PyFloat (S754_finite false 1 (-1074));
                 unit_ := "teaspoon" |})]
    (PyFloat f0_5)
  = Raise (AssertionError "Scaled amount is not positive").
Proof. vm_compute. reflexivity. Qed.

(** An integer amount too large for a float overflows in the product,
    before the sanity assertions. *)
Example scale_recipe_overflow_raises :
  Console.scale_recipe
    [("a", {| amount := PyInt (10 ^ 400); unit_ := "cups" |})]
    (PyFloat f0_5)
  = Raise OverflowError.
Proof. vm_compute. reflexivity. Qed.

(** C4, amended. For a non-empty recipe with positive amounts and a
    positive factor, when every product of an amount by the factor lies
    strictly between 0 and 10000 (the two sanity assertions of the
    loop), [scale_recipe] returns a recipe with the same keys in the same
    order, of the same size, each unit unchanged, each amount the
    product of the original amount by the factor, and every amount
    positive. *)
Theorem scale_recipe_correct (recipe : Recipe) (f : num) :
  recipe <> [] ->
  NoDup (Dict.keys recipe) ->
  Forall positive_amount recipe ->
  Num.gtb f (PyInt 0) = true ->
  Forall (sane_product f) recipe ->
  exists scaled,
    Console.scale_recipe recipe f = Ok scaled
    /\ Dict.keys scaled = Dict.keys recipe
    /\ List.length scaled = List.length recipe
    /\ Forall2 (scaled_entry f) recipe scaled
    /\ Forall positive_amount scaled.
Proof.
  intros Hne Hnd Hpos Hf Hsane.
  destruct (loop_ok f recipe [] Hnd Hsane) as (out & Hloop & Hout & Hposout).
  cbn [app] in Hloop.
  pose proof (scaled_keys f recipe out Hout) as Hkeys.
  assert (Hlen : List.length out = List.length recipe).
  { symmetry. eapply Forall2_length. exact Hout. }
  exists out. repeat split; try assumption.
  unfold Console.scale_recipe.
  replace (Dict.len recipe >? 0) with true.
  2:{ symmetry. apply Z.gtb_lt. unfold Dict.len.
      destruct recipe; [congruence | cbn; lia]. }
  cbn [py_assert bind]. rewrite Hf. cbn [py_assert bind].
  rewrite (validate_ok recipe Hpos). cbn [bind].
  rewrite Hloop. cbn [bind].
  rewrite (same_keys_refl out recipe Hkeys). cbn [py_assert bind].
  unfold Dict.len. rewrite Hlen, Z.eqb_refl. reflexivity.
Qed.

Lemma scale_recipe_correct_witness :
  exists scaled,
    Console.scale_recipe Console.ORIGINAL_RECIPE (PyFloat f0_5) = Ok scaled
    /\ Dict.keys scaled = Dict.keys Console.ORIGINAL_RECIPE
    /\ List.length scaled = List.length Console.ORIGINAL_RECIPE
    /\ Forall2 (scaled_entry (PyFloat f0_5)) Console.ORIGINAL_RECIPE scaled
    /\ Forall positive_amount scaled.
Proof.
  apply (scale_recipe_correct Console.ORIGINAL_RECIPE (PyFloat f0_5)).
  - discriminate.
  - repeat constructor; cbn; intuition discriminate.
  - repeat constructor.
  - reflexivity.
  - repeat constructor; eexists; (split; [vm_compute; reflexivity|]);
      split; vm_compute; reflexivity.
Defined.

(** ** The numerals of the integers *)

Section Numerals.

(** The characters of a numeral: the digits and the minus sign. *)
Let plain (c : ascii) : bool := Str.is_digit c || Ascii.eqb c "-".

Lemma plain_facts (c : ascii) :
  plain c = true ->
  Str.is_space c = false /\ Str.is_c_space c = false
  /\ Str.blank_wide_space c = c /\ Ascii.eqb c "_" = false.
Proof.
  destruct c as [[] [] [] [] [] [] [] []]; cbv; intros H;
    try discriminate H; repeat split.
Qed.

Lemma uint_chars_digits (d : Decimal.uint) :
  Forall (fun c => Str.is_digit c = true)
    (list_ascii_of_string (NilEmpty.string_of_uint d)).
Proof. induction d; cbn; constructor; auto. Qed.

Lemma digits_plain (l : list ascii) :
  Forall (fun c => Str.is_digit c = true) l ->
  Forall (fun c => plain c = true) l.
Proof.
  apply Forall_impl. intros c Hc. unfold plain. now rewrite Hc.
Qed.

Lemma digits_val_acc (d : Decimal.uint) : forall acc : positive,
  fold_left (fun a c => 10 * a + Str.digit_val c)
    (list_ascii_of_string (NilEmpty.string_of_uint d)) (Zpos acc)
  = Zpos (Pos.of_uint_acc d acc).
Proof.
  induction d; intros acc; cbn [NilEmpty.string_of_uint list_ascii_of_string
                                  fold_left Pos.of_uint_acc];
    [reflexivity
    | rewrite <- IHd; f_equal;
      match goal with
      | |- context [Str.digit_val ?c] =>
          let v := eval vm_compute in (Str.digit_val c) in
          change (Str.digit_val c) with v
      end; lia ..].
Qed.

Lemma digits_val_uint (d : Decimal.uint) :
  Str.digits_val (list_ascii_of_string (NilEmpty.string_of_uint d))
  = Z.of_N (Pos.of_uint d).
Proof.
  unfold Str.digits_val.
  induction d; cbn [NilEmpty.string_of_uint list_ascii_of_string
                      fold_left Pos.of_uint];
    [reflexivity | exact IHd
    | cbn [Z.of_N];
      match goal with
      | |- context [10 * 0 + Str.digit_val ?c] =>
          let v := eval vm_compute in (10 * 0 + Str.digit_val c) in
          change (10 * 0 + Str.digit_val c) with v
      end; apply digits_val_acc ..].
Qed.

(** Reading back the numeral of a positive number. *)
Lemma digits_val_pos (p : positive) :
  Str.digits_val
    (list_ascii_of_string (NilEmpty.string_of_uint (Pos.to_uint p)))
  = Zpos p.
Proof. now rewrite digits_val_uint, DecimalPos.Unsigned.of_to. Qed.

Lemma of_int_Zpos (p : positive) :
  Str.of_int (Zpos p) = NilEmpty.string_of_uint (Pos.to_uint p).
Proof.
  unfold Str.of_int. cbn [Z.to_int NilZero.string_of_int].
  unfold NilZero.string_of_uint.
  pose proof (DecimalPos.Unsigned.to_uint_nonnil p).
  now destruct (Pos.to_uint p).
Qed.

Lemma of_int_Zneg (p : positive) :
  Str.of_int (Zneg p) = String "-" (NilEmpty.string_of_uint (Pos.to_uint p)).
Proof.
  unfold Str.of_int. cbn [Z.to_int NilZero.string_of_int].
  unfold NilZero.string_of_uint.
  pose proof (DecimalPos.Unsigned.to_uint_nonnil p).
  now destruct (Pos.to_uint p).
Qed.

Lemma lstrip_by_id (drop : ascii -> bool) (c : ascii) (s : string) :
  drop c = false -> Str.lstrip_by drop (String c s) = String c s.
Proof. intros H. cbn. now rewrite H. Qed.

Lemma rstrip_by_id (drop : ascii -> bool) (s : string) :
  Forall (fun c => drop c = false) (list_ascii_of_string s) ->
  Str.rstrip_by drop s = s.
Proof.
  induction s as [|c s IH]; cbn [list_ascii_of_string Str.rstrip_by];
    intros H; [reflexivity|].
  inversion H as [|? ? Hc Hs]; subst. rewrite (IH Hs), Hc. now destruct s.
Qed.

Lemma strip_by_id (drop : ascii -> bool) (s : string) :
  Forall (fun c => drop c = false) (list_ascii_of_string s) ->
  Str.strip_by drop s = s.
Proof.
  intros H. unfold Str.strip_by.
  destruct s as [|c s]; [reflexivity|].
  rewrite lstrip_by_id by (now inversion H).
  now apply rstrip_by_id.
Qed.

Lemma drop_underscores_id (l : list ascii) : forall prev : ascii,
  Ascii.eqb prev "_" = false ->
  Forall (fun c => plain c = true) l ->
  Str.drop_underscores prev l = Some l.
Proof.
  induction l as [|c l IH]; intros prev Hprev Hl; cbn [Str.drop_underscores].
  - now rewrite Hprev.
  - inversion Hl as [|? ? Hc Hr]; subst.
    destruct (plain_facts c Hc) as (_ & _ & _ & Hu).
    rewrite Hu, Hprev. cbn [andb]. now rewrite (IH c Hu Hr).
Qed.

Lemma span_digits_all (l : list ascii) :
  Forall (fun c => Str.is_digit c = true) l -> Str.span_digits l = (l, []).
Proof.
  induction 1 as [|c l Hc _ IH]; cbn [Str.span_digits]; [reflexivity|].
  now rewrite Hc, IH.
Qed.

(** The characters of a numeral pass unchanged through the steps that
    come before the grammar. *)
Lemma to_float_plain (s : string) :
  Forall (fun c => plain c = true) (list_ascii_of_string s) ->
  Str.to_float s
  = match Str.parse_decimal (list_ascii_of_string s) with
    | Some x => Ok x
    | None =>
        match Str.parse_inf_nan (list_ascii_of_string s) with
        | Some x => Ok x
        | None => Raise ValueError
        end
    end.
Proof.
  intros H. unfold Str.to_float.
  assert (Hmap : map Str.blank_wide_space (list_ascii_of_string s)
                 = list_ascii_of_string s).
  { rewrite <- (map_id (list_ascii_of_string s)) at 2.
    apply map_ext_Forall. revert H. apply Forall_impl.
    intros c Hc. now destruct (plain_facts c Hc) as (_ & _ & -> & _). }
  rewrite Hmap, (drop_underscores_id _ zero eq_refl H).
  rewrite string_of_list_ascii_of_string, strip_by_id; [reflexivity|].
  revert H. apply Forall_impl.
  intros c Hc. now destruct (plain_facts c Hc) as (_ & -> & _).
Qed.

Lemma parse_decimal_pos (p : positive) :
  Str.parse_decimal
    (list_ascii_of_string (NilEmpty.string_of_uint (Pos.to_uint p)))
  = Some (F64.of_Z (Zpos p)).
Proof.
  set (l := list_ascii_of_string (NilEmpty.string_of_uint (Pos.to_uint p))).
  assert (Hd : Forall (fun c => Str.is_digit c = true) l)
    by apply uint_chars_digits.
  assert (Hv : Str.digits_val l = Zpos p) by apply digits_val_pos.
  unfold Str.parse_decimal.
  assert (Hs : Str.parse_sign l = (false, l)).
  { destruct l as [|c l']; [reflexivity|].
    inversion Hd as [|? ? Hc _]; subst.
    destruct c as [[] [] [] [] [] [] [] []]; try discriminate Hc; reflexivity. }
  rewrite Hs, (span_digits_all l Hd), app_nil_r. cbn [List.length Z.of_nat].
  destruct l as [|c l'] eqn:El; [discriminate Hv|].
  rewrite Hv. cbn [Z.to_N F64.of_decimal Z.opp id].
  now rewrite Z.mul_1_r.
Qed.

Lemma parse_decimal_neg (p : positive) :
  Str.parse_decimal
    ("-"%char
     :: list_ascii_of_string (NilEmpty.string_of_uint (Pos.to_uint p)))
  = Some (F64.of_Z (Zneg p)).
Proof.
  set (l := list_ascii_of_string (NilEmpty.string_of_uint (Pos.to_uint p))).
  assert (Hd : Forall (fun c => Str.is_digit c = true) l)
    by apply uint_chars_digits.
  assert (Hv : Str.digits_val l = Zpos p) by apply digits_val_pos.
  unfold Str.parse_decimal. cbn [Str.parse_sign].
  rewrite (span_digits_all l Hd), app_nil_r. cbn [List.length Z.of_nat].
  destruct l as [|c l'] eqn:El; [discriminate Hv|].
  rewrite Hv. cbn [Z.to_N F64.of_decimal Z.opp id].
  now rewrite Z.mul_1_r.
Qed.

(** [float(str(n))] is [float(n)], whatever the integer [n]. *)
Lemma to_float_of_int (n : Z) : Str.to_float (Str.of_int n) = Ok (F64.of_Z n).
Proof.
  destruct n as [|p|p].
  - reflexivity.
  - rewrite of_int_Zpos, to_float_plain, parse_decimal_pos; [reflexivity|].
    apply digits_plain, uint_chars_digits.
  - rewrite of_int_Zneg, to_float_plain.
    + cbn [list_ascii_of_string]. now rewrite parse_decimal_neg.
    + cbn [list_ascii_of_string]. constructor; [reflexivity|].
      apply digits_plain, uint_chars_digits.
Qed.

Lemma strip_of_int (n : Z) : Str.strip (Str.of_int n) = Str.of_int n.
Proof.
  apply strip_by_id.
  assert (H : Forall (fun c => plain c = true)
                (list_ascii_of_string (Str.of_int n))).
  { destruct n as [|p|p].
    - repeat constructor.
    - rewrite of_int_Zpos. apply digits_plain, uint_chars_digits.
    - rewrite of_int_Zneg. cbn [list_ascii_of_string].
      constructor; [reflexivity|]. apply digits_plain, uint_chars_digits. }
  revert H. apply Forall_impl.
  intros c Hc. now destruct (plain_facts c Hc) as (-> & _).
Qed.

End Numerals.

Lemma of_int_head (z : Z) :
  exists c s, Str.of_int z = String c s /\ c <> "."%char.
Proof.
  unfold Str.of_int, NilZero.string_of_int.
  destruct z as [|p|p]; cbn [Z.to_int].
  - exists "0"%char, EmptyString. split; [reflexivity|discriminate].
  - unfold NilZero.string_of_uint.
    destruct (Pos.to_uint p); cbn [NilEmpty.string_of_uint];
      eexists; eexists; (split; [reflexivity|discriminate]).
  - exists "-"%char. eexists. split; [reflexivity|discriminate].
Qed.

(** An integer of at most 53 bits is a float, exactly. *)
Lemma of_Z_exact (s : bool) (p : positive) :
  Zpos p < 2 ^ 53 ->
  exists m e d,
    F64.of_Z (if s then Zneg p else Zpos p) = S754_finite s m e
    /\ F64.num_den m e = (Zpos p * Zpos d, d).
Proof.
  intros Hp. apply F64Facts.digits_le in Hp.
  assert (E : F64.of_Z (if s then Zneg p else Zpos p)
              = binary_round F64.prec F64.emax s p 0) by now destruct s.
  rewrite E.
  pose proof (F64Facts.binary_round_exact s p 0) as Hx. cbv zeta in Hx.
  rewrite F64Sub.fexp_eq, Z.add_0_r in Hx.
  set (t := Z.max (Zpos (digits2_pos p) - 53) (-1074)) in *.
  rewrite Hx by (unfold F64.emax, F64.prec; lia).
  exists (F64.shl p (0 - t)), t.
  destruct t as [|k|k] eqn:Et; [| lia |].
  - exists 1%positive. split; [reflexivity|]. cbn [F64.num_den F64.shl Z.sub Z.opp Z.add].
    reflexivity.
  - exists (Pos.pow 2 k). split; [reflexivity|]. cbn [F64.num_den].
    f_equal. rewrite F64Facts.shl_value, F64Sub.pow_pos_Z by lia.
    f_equal.
Qed.

(** [int(float(n))] is [n], and [float(n)] is whole, for an integer of
    at most 53 bits. *)
Lemma int_of_float_of_Z (n : Z) :
  - 2 ^ 53 < n < 2 ^ 53 ->
  Num.int_of_float (F64.of_Z n) = Ok n
  /\ Num.neb (PyFloat (F64.of_Z n)) (PyInt n) = false.
Proof.
  intros Hn.
  assert (Hcase : n = 0
                  \/ exists (s : bool) (p : positive),
                       n = (if s then Zneg p else Zpos p) /\ Zpos p < 2 ^ 53).
  { destruct n as [|p|p]; [now left | right | right].
    - exists false, p. split; [reflexivity | lia].
    - exists true, p. split; [reflexivity | lia]. }
  destruct Hcase as [->|(s & p & -> & Hp)]; [split; reflexivity|].
  destruct (of_Z_exact s p Hp) as (m & e & d & -> & E).
  unfold Num.neb, Num.eqb, Num.compare, Num.compare_float_int, Num.int_of_float.
  rewrite E, Z.div_mul by lia.
  split; [now destruct s|].
  replace ((if s then - (Zpos p * Zpos d) else Zpos p * Zpos d)
           ?= (if s then Zneg p else Zpos p) * Zpos d) with Eq; [reflexivity|].
  symmetry. apply Z.compare_eq_iff. destruct s; lia.
Qed.

(** The numeral of an integer of at most 53 bits is accepted when the
    integer is in the range, and rejected with the error of its side
    otherwise. *)
Lemma is_valid_servings_numeral (n : Z) :
  - 2 ^ 53 < n < 2 ^ 53 ->
  Console.is_valid_servings (Str.of_int n)
  = if n <? Console.MIN_SERVINGS then failure BelowMinimum
    else if n >? Console.MAX_SERVINGS then failure AboveMaximum
    else success n.
Proof.
  intros Hn. destruct (int_of_float_of_Z n Hn) as [Hint Hneb].
  unfold Console.is_valid_servings.
  destruct (of_int_head n) as (c & s & Hs & _).
  rewrite Hs at 1. cbn [String.eqb].
  rewrite strip_of_int. unfold Console.is_valid_servings_try.
  rewrite to_float_of_int. cbn [bind]. rewrite Hint. cbn [bind].
  rewrite Hneb.
  unfold Console.MIN_SERVINGS, Console.MAX_SERVINGS.
  destruct (Z.ltb_spec n 1); [reflexivity|].
  destruct (Z.gtb_spec n 100); [reflexivity|].
  replace ((1 <=? n) && (n <=? 100)) with true; [reflexivity|].
  symmetry. apply andb_true_iff. split; apply Z.leb_le; lia.
Qed.

(** Every numeral from 1 to 100 is accepted, with its value. *)
Lemma is_valid_servings_in_range (n : Z) :
  Console.MIN_SERVINGS <= n <= Console.MAX_SERVINGS ->
  Console.is_valid_servings (Str.of_int n) = success n.
Proof.
  unfold Console.MIN_SERVINGS, Console.MAX_SERVINGS. intros Hn.
  pose proof (Z.pow_le_mono_r 2 7 53 ltac:(lia) ltac:(lia)) as Hp.
  change (2 ^ 7) with 128 in Hp.
  rewrite is_valid_servings_numeral by lia.
  unfold Console.MIN_SERVINGS, Console.MAX_SERVINGS.
  destruct (Z.ltb_spec n 1); [lia|]. destruct (Z.gtb_spec n 100); [lia|].
  reflexivity.
Qed.

(** C6. The numeral of an integer from 1 to 100 is accepted with its
    value, and the numeral of an integer outside the range is rejected
    with [BelowMinimum] or [AboveMaximum], as long as the integer has at
    most 53 bits.  It is not so for every integer: the numeral of
    [10^309] is read by [float] as [inf], and [int(inf)] raises
    [OverflowError], which is not caught. *)
Theorem is_valid_servings_numerals :
  (forall n : Z,
     - 2 ^ 53 < n < 2 ^ 53 ->
     Console.is_valid_servings (Str.of_int n)
     = if n <? Console.MIN_SERVINGS then failure BelowMinimum
       else if n >? Console.MAX_SERVINGS then failure AboveMaximum
       else success n)
  /\ Console.MAX_SERVINGS < 10 ^ 309
  /\ Console.is_valid_servings (Str.of_int (10 ^ 309)) = Raise OverflowError.
Proof.
  split; [exact is_valid_servings_numeral|].
  split; vm_compute; reflexivity.
Qed.

Lemma is_valid_servings_numerals_witness :
  Console.is_valid_servings (Str.of_int 150) = failure AboveMaximum
  /\ Console.is_valid_servings (Str.of_int (-5)) = failure BelowMinimum
  /\ Console.is_valid_servings (Str.of_int 100) = success 100.
Proof.
  split; [|split].
  - apply (proj1 is_valid_servings_numerals 150). vm_compute. split; reflexivity.
  - apply (proj1 is_valid_servings_numerals (-5)). vm_compute. split; reflexivity.
  - apply (proj1 is_valid_servings_numerals 100). vm_compute. split; reflexivity.
Defined.

(** ** Formatting of the amounts *)

Lemma gtb_false_of_leb (a b : num) : Num.leb a b = true -> Num.gtb a b = false.
Proof.
  unfold Num.leb, Num.gtb. destruct (Num.compare a b) as [[]|]; congruence.
Qed.

(** An amount that is zero or negative fails the precondition. *)
Lemma format_amount_rejects (a : num) :
  Num.leb a (PyInt 0) = true -> Console.format_amount a = Raise InvalidAmount.
Proof.
  intros H. unfold Console.format_amount.
  now rewrite (gtb_false_of_leb _ _ H).
Qed.

Lemma round_half_even_small (n d : Z) :
  0 <= n -> 2 * n < d -> Num.round_half_even n d = 0.
Proof.
  intros Hn Hd. unfold Num.round_half_even.
  rewrite Z.div_small, Z.mod_small by lia.
  destruct (Z.compare_spec (2 * n) d); lia.
Qed.

Lemma num_den_pos (m : positive) (e : Z) (n : Z) (d : positive) :
  F64.num_den m e = (n, d) -> 0 < n.
Proof.
  unfold F64.num_den.
  destruct e as [|p|p]; intros H; apply (f_equal fst) in H; cbn [fst] in H;
    subst n; lia.
Qed.

(** The steps of [format_amount] on a positive finite float of exact
    value [n / d]. *)
Section PositiveFloat.

Variables (m : positive) (e : Z) (n : Z) (d : positive).
Hypothesis E : F64.num_den m e = (n, d).

Let x : F64.float := S754_finite false m e.

Lemma float_gtb_zero : Num.gtb (PyFloat x) (PyInt 0) = true.
Proof.
  pose proof (num_den_pos _ _ _ _ E).
  unfold Num.gtb, Num.compare, Num.compare_float_int, x. rewrite E.
  replace (n ?= 0 * Zpos d) with Gt; [reflexivity|].
  symmetry. apply Z.compare_gt_iff. lia.
Qed.

Lemma float_int : Num.int (PyFloat x) = Ok (n / Zpos d).
Proof. unfold Num.int, Num.int_of_float, x. now rewrite E. Qed.

Lemma float_eqb_int : Num.eqb (PyFloat x) (PyInt (n / Zpos d)) = (n mod Zpos d =? 0).
Proof.
  unfold Num.eqb, Num.compare, Num.compare_float_int, x. rewrite E.
  pose proof (Z.div_mod n (Zpos d) ltac:(lia)) as Hdm.
  pose proof (Z.mod_pos_bound n (Zpos d) ltac:(lia)) as Hb.
  destruct (Z.eqb_spec (n mod Zpos d) 0) as [H0|H0].
  - replace (n ?= n / Zpos d * Zpos d) with Eq; [reflexivity|].
    symmetry. apply Z.compare_eq_iff. lia.
  - replace (n ?= n / Zpos d * Zpos d) with Gt; [reflexivity|].
    symmetry. apply Z.compare_gt_iff. lia.
Qed.

Lemma float_format_2f :
  Str.format_2f (PyFloat x)
  = Ok (fixed2 (Num.round_half_even (100 * n) (Zpos d))).
Proof.
  unfold Str.format_2f, Str.format_2f_float, x, Num.hundredths. now rewrite E.
Qed.

Lemma float_round2 :
  Num.round2 (PyFloat x)
  = PyFloat (F64.of_ratio false
               (Z.to_N (Num.round_half_even (100 * n) (Zpos d))) 100).
Proof.
  unfold Num.round2, Num.round2_float, x, Num.hundredths. now rewrite E.
Qed.

End PositiveFloat.

Lemma sub_int_zero (s : bool) (m : positive) (e : Z) :
  Num.sub (PyFloat (S754_finite s m e)) (PyInt 0)
  = Ok (PyFloat (S754_finite s m e)).
Proof. reflexivity. Qed.

(** C10. A positive amount below 0.005 is displayed as ["0"]: its
    integer part is 0, it is nearer to 0.00 than to 0.01, and the
    rendering ["0.00"] is stripped to ["0"]; in both programs. *)
Theorem format_amount_tiny (x : F64.float) :
  F64.is_finite x = true ->
  (0 < F64.to_Q x)%Q -> (F64.to_Q x < 5 # 1000)%Q ->
  Console.format_amount (PyFloat x) = Ok "0"
  /\ APK.format_amount (PyFloat x) = Ok "0".
Proof.
  intros Hfin Hpos Hlt.
  assert (Hc : Console.format_amount (PyFloat x) = Ok "0"); [|now split].
  destruct x as [s|s| |s m e]; try discriminate; try (now compute in Hpos).
  unfold F64.to_Q in Hpos, Hlt.
  destruct (F64.num_den m e) as [n d] eqn:E.
  pose proof (num_den_pos _ _ _ _ E) as Hn.
  unfold Qlt in Hpos, Hlt. cbn [Qnum Qden] in Hpos, Hlt.
  destruct s; [lia|].
  assert (Hd : 200 * n < Zpos d) by lia.
  assert (Hw : n / Zpos d = 0) by (apply Z.div_small; lia).
  unfold Console.format_amount.
  rewrite (float_gtb_zero _ _ _ _ E), (float_int _ _ _ _ E).
  cbn [py_assert bind]. rewrite (float_eqb_int _ _ _ _ E).
  rewrite Z.mod_small by lia.
  replace (n =? 0) with false by (symmetry; apply Z.eqb_neq; lia).
  rewrite Hw.
  rewrite sub_int_zero. cbn [bind]. rewrite (float_round2 _ _ _ _ E), (float_format_2f _ _ _ _ E).
  rewrite round_half_even_small by lia.
  reflexivity.
Qed.

Lemma format_amount_tiny_witness :
  Console.format_amount (PyFloat (F64.of_decimal false 4 (-3))) = Ok "0"
  /\ APK.format_amount (PyFloat (F64.of_decimal false 4 (-3))) = Ok "0".
Proof.
  apply (format_amount_tiny (F64.of_decimal false 4 (-3)));
    vm_compute; reflexivity.
Defined.

Lemma round_half_even_bounds (r d : Z) :
  0 <= r < d -> 0 <= Num.round_half_even (100 * r) d <= 100.
Proof.
  intros Hr. unfold Num.round_half_even.
  assert (0 <= 100 * r / d) by (apply Z.div_pos; lia).
  assert (100 * r / d < 100) by (apply Z.div_lt_upper_bound; lia).
  destruct (2 * ((100 * r) mod d) ?= d); [destruct (Z.even _)| |]; lia.
Qed.

(** The remainder of a positive finite float rounded to two decimals:
    [round(amount - whole, 2)] is the float of the hundredths nearest
    to the exact remainder. *)
Lemma float_remainder (m : positive) (e : Z) (n : Z) (d : positive) :
  F64.valid (S754_finite false m e) = true ->
  F64.num_den m e = (n, d) ->
  n mod Zpos d <> 0 ->
  exists y,
    Num.sub (PyFloat (S754_finite false m e)) (PyInt (n / Zpos d))
    = Ok (PyFloat y)
    /\ Num.round2 (PyFloat y)
       = PyFloat (F64.of_ratio false
           (Z.to_N (Num.round_half_even (100 * (n mod Zpos d)) (Zpos d))) 100).
Proof.
  intros Hvalid E Hr.
  destruct e as [|p|k]; cbn [F64.num_den] in E.
  1,2: injection E as <- <-; now rewrite Z.mod_1_r in Hr.
  injection E as <- <-. rewrite F64Sub.pow_pos_Z in *.
  assert (Hk : 0 < 2 ^ Zpos k) by (apply Z.pow_pos_nonneg; lia).
  assert (Hw0 : 0 <= Zpos m / 2 ^ Zpos k) by (apply Z.div_pos; lia).
  pose proof (Z.mod_pos_bound (Zpos m) (2 ^ Zpos k) Hk) as Hrb.
  destruct (Zpos m / 2 ^ Zpos k) as [|ww|ww] eqn:Eww; [| |lia].
  - exists (S754_finite false m (Zneg k)). split; [apply sub_int_zero|].
    rewrite (float_round2 m (Zneg k) (Zpos m) (Pos.pow 2 k) eq_refl).
    rewrite F64Sub.pow_pos_Z.
    apply Z.div_small_iff in Eww; [|lia].
    rewrite (Z.mod_small (Zpos m)) by lia. reflexivity.
  - destruct (Zpos m mod 2 ^ Zpos k) as [|rr|rr] eqn:Err; [congruence| |lia].
    assert (Hwpos : 0 < Zpos m / 2 ^ Zpos k) by lia.
    assert (Hrne : Zpos m mod 2 ^ Zpos k <> 0) by lia.
    eexists. split.
    + unfold Num.sub. rewrite <- Eww.
      rewrite (F64Sub.float_of_whole m k Hvalid Hwpos Hrne ww Eww).
      cbn [bind].
      rewrite (F64Sub.sub_whole m k Hvalid Hwpos Hrne ww rr Eww Err).
      reflexivity.
    + unfold Num.round2, Num.round2_float.
      rewrite (F64Sub.hundredths_remainder m k Hvalid Hwpos Hrne rr Err).
      now rewrite Err.
Qed.

Lemma fractions_table (h : Z) :
  0 <= h <= 100 -> fractions_agree h = true.
Proof.
  intros Hh.
  assert (Hall : forallb fractions_agree (Zseq 0 101) = true)
    by (vm_compute; reflexivity).
  rewrite forallb_forall in Hall. apply Hall, Zseq_In. lia.
Qed.

Lemma format_amount_int (z : Z) :
  0 < z -> Console.format_amount (PyInt z) = Ok (Str.of_int z).
Proof.
  intros Hz. unfold Console.format_amount, Num.gtb, Num.eqb, Num.compare.
  replace (z ?= 0) with Gt by (symmetry; apply Z.compare_gt_iff; lia).
  cbn [py_assert bind Num.int]. now rewrite Z.compare_refl.
Qed.

Lemma format_amount_float (m : positive) (e : Z) :
  F64.valid (S754_finite false m e) = true ->
  Console.format_amount (PyFloat (S754_finite false m e))
  = Ok (format_amount_policy (F64.num_den m e)).
Proof.
  intros Hvalid. destruct (F64.num_den m e) as [n d] eqn:E.
  pose proof (num_den_pos _ _ _ _ E) as Hn.
  assert (Hw : 0 <= n / Zpos d) by (apply Z.div_pos; lia).
  pose proof (Z.mod_pos_bound n (Zpos d) ltac:(lia)) as Hrb.
  unfold Console.format_amount, format_amount_policy.
  rewrite (float_gtb_zero _ _ _ _ E), (float_int _ _ _ _ E).
  cbn [py_assert bind]. rewrite (float_eqb_int _ _ _ _ E).
  destruct (Z.eqb_spec (n mod Zpos d) 0) as [Hr|Hr]; [reflexivity|].
  destruct (float_remainder m e n d Hvalid E Hr) as (y & Hsub & Hround).
  rewrite Hsub. cbn [bind]. rewrite Hround.
  pose proof (fractions_table
                (Num.round_half_even (100 * (n mod Zpos d)) (Zpos d))
                (round_half_even_bounds _ _ Hrb)) as Htab.
  unfold fractions_agree in Htab. cbv zeta in Htab.
  destruct (fraction_of_hundredths _) as [fr|].
  - apply andb_true_iff in Htab as [Hmem Hget]. rewrite Hmem.
    destruct (Dict.getitem _ _ _) as [s'|]; [|discriminate].
    apply String.eqb_eq in Hget. subst s'.
    destruct (Z.ltb_spec 0 (n / Zpos d)); cbn [andb bind].
    + replace (n / Zpos d =? 0) with false by (symmetry; apply Z.eqb_neq; lia).
      reflexivity.
    + replace (n / Zpos d =? 0) with true by (symmetry; apply Z.eqb_eq; lia).
      reflexivity.
  - apply negb_true_iff in Htab. rewrite Htab, andb_false_r.
    rewrite (float_format_2f _ _ _ _ E). reflexivity.
Qed.

Lemma positive_finite_float (x : F64.float) :
  positive_finite (PyFloat x) = true ->
  exists m e, x = S754_finite false m e /\ F64.valid x = true.
Proof.
  unfold positive_finite. intros H.
  apply andb_true_iff in H as [H Hpos]. apply andb_true_iff in H as [Hv Hf].
  destruct x as [s|s| |s m e]; try discriminate.
  destruct s; [|now exists m, e].
  exfalso. unfold Num.gtb, Num.compare, Num.compare_float_int in Hpos.
  destruct (F64.num_den m e) as [n d] eqn:E.
  pose proof (num_den_pos _ _ _ _ E).
  replace (- n ?= 0 * Zpos d) with Lt in Hpos; [discriminate|].
  symmetry. apply Z.compare_lt_iff. lia.
Qed.

Lemma format_amount_positive_finite (a : num) :
  positive_finite a = true ->
  Console.format_amount a = Ok (format_amount_policy (Num.exact a)).
Proof.
  destruct a as [z|x]; intros Hpf.
  - cbn in Hpf. apply Z.ltb_lt in Hpf.
    rewrite (format_amount_int z Hpf).
    unfold format_amount_policy, Num.exact.
    now rewrite Z.mod_1_r, Z.div_1_r.
  - destruct (positive_finite_float x Hpf) as (m & e & -> & Hvalid).
    rewrite (format_amount_float m e Hvalid).
    unfold Num.exact. now destruct (F64.num_den m e).
Qed.

(** C3. On a strictly positive finite amount [format_amount] returns
    the string of the three-step policy, computed on the exact value of
    the amount: the integer string when the amount is whole; otherwise
    the fraction of the strict table matched by the remainder rounded
    to hundredths, alone when the integer part is 0 and after the
    integer part and a blank when it is positive; otherwise the
    rendering with two decimals, its trailing zeros and then its
    trailing point stripped.  The five examples of the specification
    follow. *)
Theorem format_amount_follows_policy :
  (forall a, positive_finite a = true ->
     Console.format_amount a = Ok (format_amount_policy (Num.exact a)))
  /\ Console.format_amount (PyFloat f1_0) = Ok "1"
  /\ Console.format_amount (PyFloat f0_5) = Ok "1/2"
  /\ Console.format_amount (PyFloat f1_5) = Ok "1 1/2"
  /\ Console.format_amount (PyFloat f2_33) = Ok "2.33"
  /\ Console.format_amount (PyFloat f0_25) = Ok "1/4".
Proof.
  split; [exact format_amount_positive_finite|].
  repeat split; vm_compute; reflexivity.
Qed.

Lemma format_amount_follows_policy_witness :
  positive_finite (PyFloat f1_5) = true
  /\ Console.format_amount (PyFloat f1_5)
     = Ok (format_amount_policy (Num.exact (PyFloat f1_5))).
Proof.
  split; [vm_compute; reflexivity|].
  apply (proj1 format_amount_follows_policy (PyFloat f1_5)).
  vm_compute; reflexivity.
Defined.

(** *** The formatted string is never empty *)


Section Rstrip.

Variable drop : ascii -> bool.

Lemma rstrip_by_keep (c : ascii) (s : string) :
  drop c = false ->
  exists s', Str.rstrip_by drop (String c s) = String c s'.
Proof.
  intros Hc. cbn [Str.rstrip_by]. rewrite Hc.
  destruct (Str.rstrip_by drop s); eexists; reflexivity.
Qed.

Lemma rstrip_by_app_keep (a : string) (c : ascii) (b : string) :
  drop c = false ->
  Str.rstrip_by drop (a ++ String c b)
  = (a ++ String c (Str.rstrip_by drop b))%string.
Proof.
  intros Hc. induction a as [|x a IH]; cbn [append].
  - cbn [Str.rstrip_by]. rewrite Hc. now destruct (Str.rstrip_by drop b).
  - cbn [Str.rstrip_by]. rewrite IH. now destruct a.
Qed.

End Rstrip.

Lemma stripped_fixed2_nonempty (h : Z) :
  Str.rstrip "." (Str.rstrip "0" (fixed2 h)) <> "".
Proof.
  unfold fixed2, Str.rstrip.
  change ("." ++ Str.two_digits (h mod 100))%string
    with (String "." (Str.two_digits (h mod 100))).
  rewrite rstrip_by_app_keep by reflexivity.
  destruct (of_int_head (h / 100)) as (c & s & -> & Hc).
  cbn [append].
  destruct (rstrip_by_keep (Ascii.eqb ".") c
              (s ++ String "." (Str.rstrip_by (Ascii.eqb "0")
                                  (Str.two_digits (h mod 100)))))
    as [s' ->]; [|discriminate].
  apply Ascii.eqb_neq. congruence.
Qed.

Lemma format_amount_policy_nonempty (v : Z * positive) :
  format_amount_policy v <> "".
Proof.
  destruct v as [n d]. unfold format_amount_policy.
  destruct (of_int_head (n / Zpos d)) as (c & s & Hs & _).
  destruct (n mod Zpos d =? 0); [rewrite Hs; discriminate|].
  destruct (fraction_of_hundredths _) as [fr|] eqn:Efr.
  - destruct (n / Zpos d =? 0); [|rewrite Hs; discriminate].
    unfold fraction_of_hundredths in Efr.
    repeat match type of Efr with
           | (if ?b then _ else _) = _ => destruct b
           end; now inversion Efr.
  - apply stripped_fixed2_nonempty.
Qed.

(** C8. [format_amount] returns a string on every strictly positive
    finite amount, and never the empty one; on an amount that is zero
    or negative it fails its precondition, which is [InvalidAmount]; in
    both programs. *)
Theorem format_amount_nonempty_or_invalid (a : num) :
  (positive_finite a = true ->
     exists s, Console.format_amount a = Ok s
               /\ APK.format_amount a = Ok s
               /\ s <> "")
  /\ (Num.leb a (PyInt 0) = true ->
        Console.format_amount a = Raise InvalidAmount
        /\ APK.format_amount a = Raise InvalidAmount).
Proof.
  split.
  - intros Hpf. exists (format_amount_policy (Num.exact a)).
    pose proof (format_amount_positive_finite a Hpf) as Hc.
    repeat split; [exact Hc | exact Hc | apply format_amount_policy_nonempty].
  - intros Hle. split; apply (format_amount_rejects a Hle).
Qed.

Lemma format_amount_nonempty_or_invalid_witness :
  (exists s, Console.format_amount (PyFloat f2_33) = Ok s
             /\ APK.format_amount (PyFloat f2_33) = Ok s
             /\ s <> "")
  /\ (Console.format_amount (PyInt 0) = Raise InvalidAmount
      /\ APK.format_amount (PyInt 0) = Raise InvalidAmount)
  /\ (Console.format_amount (PyFloat (F64.of_decimal true 5 (-1)))
      = Raise InvalidAmount
      /\ APK.format_amount (PyFloat (F64.of_decimal true 5 (-1)))
         = Raise InvalidAmount).
Proof.
  split; [|split].
  - apply (proj1 (format_amount_nonempty_or_invalid (PyFloat f2_33))).
    vm_compute; reflexivity.
  - apply (proj2 (format_amount_nonempty_or_invalid (PyInt 0))).
    vm_compute; reflexivity.
  - apply (proj2 (format_amount_nonempty_or_invalid
                    (PyFloat (F64.of_decimal true 5 (-1))))).
    vm_compute; reflexivity.
Defined.

(** ** The scaling factor *)

Lemma float_leb_int (m : positive) (e K : Z) :
  e <= 0 -> Zpos m <= K * 2 ^ (- e) ->
  Num.leb (PyFloat (S754_finite false m e)) (PyInt K) = true.
Proof.
  intros He Hm. unfold Num.leb, Num.compare, Num.compare_float_int, F64.num_den.
  destruct e as [|p|k]; [| lia |].
  - change (2 ^ (- 0)) with 1 in Hm.
    destruct (Z.compare_spec (Zpos m * 2 ^ 0) (K * 1)); try reflexivity.
    change (2 ^ 0) with 1 in *. lia.
  - rewrite F64Sub.pow_pos_Z. change (- Zneg k) with (Zpos k) in Hm.
    destruct (Z.compare_spec (Zpos m) (K * 2 ^ Zpos k)); try reflexivity. lia.
Qed.

(** The quotient of two positive integers, when it is at most 100 and
    does not underflow, passes both assertions of
    [calculate_scaling_factor]. *)
Lemma truediv_int_bounds (original desired : Z) :
  0 < original -> 0 < desired ->
  desired <= 100 * original -> original <= desired * 2 ^ 1074 ->
  exists q,
    Num.truediv_int desired original = Ok q
    /\ Num.gtb (PyFloat q) (PyInt 0) = true
    /\ Num.leb (PyFloat q) (PyInt 100) = true.
Proof.
  intros Ho Hd Hle Hunder.
  destruct original as [|o|o]; try lia. destruct desired as [|n|n]; try lia.
  destruct (F64Div.of_ratio_bounds n o 100) as (m & e & Eq & He & Hm);
    [lia | lia | lia |].
  exists (S754_finite false m e). unfold Num.truediv_int.
  cbn [Z.ltb Z.compare xorb Z.abs_N Z.abs Z.to_pos].
  rewrite Eq. split; [reflexivity|]. split.
  - destruct (F64.num_den m e) as [n' d'] eqn:E.
    apply (float_gtb_zero m e n' d' E).
  - apply float_leb_int; assumption.
Qed.

(** C7, as stated, fails: [1] and [101] are strictly positive, and the
    quotient [101.0] fails the assertion [result <= 100]. *)
Lemma calculate_scaling_factor_large_raises :
  0 < 1 /\ 0 < 101
  /\ Console.calculate_scaling_factor 1 101
     = Raise (AssertionError "Scaling factor too large").
Proof. repeat split; vm_compute; reflexivity. Qed.

Example calculate_scaling_factor_underflow_raises :
  Console.calculate_scaling_factor (2 ^ 1076) 1
  = Raise (AssertionError "Scaling factor should be positive").
Proof. vm_compute. reflexivity. Qed.

(** Beyond the bound the outcome is not one: a quotient too large for a
    float overflows in the division, before any assertion, and a
    quotient just above 100 that rounds to 100 is returned. *)
Example calculate_scaling_factor_overflow_raises :
  Console.calculate_scaling_factor 1 (10 ^ 400) = Raise OverflowError.
Proof. vm_compute. reflexivity. Qed.

Example calculate_scaling_factor_rounds_to_100 :
  Console.calculate_scaling_factor (2 ^ 60) (100 * 2 ^ 60 + 1)
  = Ok (F64.of_Z 100).
Proof. vm_compute. reflexivity. Qed.

(** C7, amended. For strictly positive integers [original] and
    [desired] with [desired <= 100 * original], whose quotient does not
    underflow ([original <= desired * 2^1074]),
    [calculate_scaling_factor] returns the true quotient
    [desired / original] as Python computes it, the nearest float, not
    the integer quotient; it is strictly positive and at most 100.  So
    it is for [original = 12] and every [desired] from 1 to 100. *)
Theorem calculate_scaling_factor_correct :
  (forall original desired : Z,
     0 < original -> 0 < desired ->
     desired <= 100 * original -> original <= desired * 2 ^ 1074 ->
     exists q,
       Console.calculate_scaling_factor original desired = Ok q
       /\ Num.truediv_int desired original = Ok q
       /\ Num.gtb (PyFloat q) (PyInt 0) = true
       /\ Num.leb (PyFloat q) (PyInt 100) = true)
  /\ (forall desired : Z,
        Console.MIN_SERVINGS <= desired <= Console.MAX_SERVINGS ->
        exists q,
          Console.calculate_scaling_factor Console.ORIGINAL_SERVINGS desired
          = Ok q
          /\ Num.gtb (PyFloat q) (PyInt 0) = true
          /\ Num.leb (PyFloat q) (PyInt 100) = true).
Proof.
  assert (H : forall original desired : Z,
     0 < original -> 0 < desired ->
     desired <= 100 * original -> original <= desired * 2 ^ 1074 ->
     exists q,
       Console.calculate_scaling_factor original desired = Ok q
       /\ Num.truediv_int desired original = Ok q
       /\ Num.gtb (PyFloat q) (PyInt 0) = true
       /\ Num.leb (PyFloat q) (PyInt 100) = true).
  { intros original desired Ho Hd Hle Hunder.
    destruct (truediv_int_bounds original desired Ho Hd Hle Hunder)
      as (q & Hq & Hpos & Hmax).
    exists q. split; [|auto].
    unfold Console.calculate_scaling_factor.
    replace (original >? 0) with true by (symmetry; apply Z.gtb_lt; lia).
    replace (desired >? 0) with true by (symmetry; apply Z.gtb_lt; lia).
    cbn [py_assert bind]. rewrite Hq. cbn [bind].
    rewrite Hpos, Hmax. reflexivity. }
  split; [exact H|].
  intros desired Hd.
  unfold Console.MIN_SERVINGS, Console.MAX_SERVINGS in Hd.
  assert (Hunder : Console.ORIGINAL_SERVINGS <= desired * 2 ^ 1074).
  { pose proof (Z.pow_le_mono_r 2 4 1074 ltac:(lia) ltac:(lia)) as Hp.
    change (2 ^ 4) with 16 in Hp. unfold Console.ORIGINAL_SERVINGS.
    remember (2 ^ 1074) as P eqn:EP. clear EP. nia. }
  destruct (H Console.ORIGINAL_SERVINGS desired) as (q & Hq & _ & Hpos & Hmax);
    [unfold Console.ORIGINAL_SERVINGS; lia | lia
    | unfold Console.ORIGINAL_SERVINGS; lia | exact Hunder |].
  exists q. auto.
Qed.

Lemma calculate_scaling_factor_correct_witness :
  exists q,
    Console.calculate_scaling_factor 12 6 = Ok q
    /\ Num.truediv_int 6 12 = Ok q
    /\ Num.gtb (PyFloat q) (PyInt 0) = true
    /\ Num.leb (PyFloat q) (PyInt 100) = true.
Proof.
  apply (proj1 calculate_scaling_factor_correct 12 6); lia.
Defined.

(** ** More on the scaling factor *)

Lemma num_den_nonpos (m : positive) (e : Z) :
  e <= 0 ->
  exists d, F64.num_den m e = (Zpos m, d) /\ Zpos d = 2 ^ (- e).
Proof.
  intros He. destruct e as [|p|k]; [| lia |].
  - exists 1%positive. split; [|reflexivity].
    cbn [F64.num_den]. f_equal. change (2 ^ 0) with 1. lia.
  - exists (Pos.pow 2 k). split; [reflexivity|].
    now rewrite F64Sub.pow_pos_Z.
Qed.

(** A float [m * 2^e] with [e <= 0] compared with an integer. *)
Lemma float_compare_int (m : positive) (e K : Z) :
  e <= 0 ->
  Num.compare_float_int (S754_finite false m e) K
  = Some (Zpos m ?= K * 2 ^ (- e)).
Proof.
  intros He. destruct (num_den_nonpos m e He) as (d & E & Hd).
  unfold Num.compare_float_int. now rewrite E, Hd.
Qed.

(** The quotient of two positive integers that lies between two
    integers is computed, and lies between them as a float. *)
Lemma truediv_int_between (original desired K1 K : Z) :
  0 < original -> 0 < desired ->
  0 <= K1 -> K1 * original <= desired ->
  0 < K < 2 ^ 53 -> desired <= K * original ->
  original <= desired * 2 ^ 1074 ->
  exists m e,
    Num.truediv_int desired original = Ok (S754_finite false m e)
    /\ e <= 0 /\ K1 * 2 ^ (- e) <= Zpos m <= K * 2 ^ (- e).
Proof.
  intros Ho Hd HK1 Hge HK Hle Hunder.
  destruct original as [|o|o]; try lia. destruct desired as [|n|n]; try lia.
  destruct (F64Div.of_ratio_between n o K1 K) as (m & e & Hq & He & Hm);
    try lia.
  exists m, e. unfold Num.truediv_int.
  cbn [Z.ltb Z.compare xorb Z.abs_N Z.abs Z.to_pos].
  rewrite Hq. auto.
Qed.

Lemma calculate_scaling_factor_between (original desired K1 K : Z) :
  0 < original -> 0 < desired ->
  0 <= K1 -> K1 * original <= desired ->
  0 < K <= 100 -> desired <= K * original ->
  original <= desired * 2 ^ 1074 ->
  exists m e,
    Console.calculate_scaling_factor original desired
    = Ok (S754_finite false m e)
    /\ e <= 0 /\ K1 * 2 ^ (- e) <= Zpos m <= K * 2 ^ (- e).
Proof.
  intros Ho Hd HK1 Hge HK Hle Hunder.
  pose proof (Z.pow_le_mono_r 2 7 53 ltac:(lia) ltac:(lia)) as Hp.
  change (2 ^ 7) with 128 in Hp.
  destruct (truediv_int_between original desired K1 K) as (m & e & Hq & He & Hm);
    try lia.
  exists m, e. split; [|auto].
  unfold Console.calculate_scaling_factor.
  replace (original >? 0) with true by (symmetry; apply Z.gtb_lt; lia).
  replace (desired >? 0) with true by (symmetry; apply Z.gtb_lt; lia).
  cbn [py_assert bind]. rewrite Hq. cbn [bind].
  destruct (F64.num_den m e) as [n' d'] eqn:E.
  rewrite (float_gtb_zero m e n' d' E).
  assert (P : 0 < 2 ^ (- e)) by (apply Z.pow_pos_nonneg; lia).
  rewrite float_leb_int by (try assumption; nia).
  reflexivity.
Qed.

(** X1.  When [desired] is a multiple [k * original], with [k] from 1 to
    100, the factor is the integer [k] exactly. *)
Theorem calculate_scaling_factor_multiple (original k : Z) :
  0 < original -> 1 <= k <= 100 ->
  exists q,
    Console.calculate_scaling_factor original (k * original) = Ok q
    /\ Num.eqb (PyFloat q) (PyInt k) = true.
Proof.
  intros Ho Hk.
  assert (P : 0 < 2 ^ 1074) by (apply Z.pow_pos_nonneg; lia).
  destruct (calculate_scaling_factor_between original (k * original) k k)
    as (m & e & Hq & He & Hm); try lia; try nia.
  exists (S754_finite false m e). split; [exact Hq|].
  unfold Num.eqb, Num.compare. rewrite float_compare_int by exact He.
  replace (Zpos m ?= k * 2 ^ (- e)) with Eq; [reflexivity|].
  symmetry. apply Z.compare_eq_iff. lia.
Qed.

Lemma calculate_scaling_factor_multiple_witness :
  exists q,
    Console.calculate_scaling_factor 12 (3 * 12) = Ok q
    /\ Num.eqb (PyFloat q) (PyInt 3) = true.
Proof. apply (calculate_scaling_factor_multiple 12 3); lia. Defined.

(** X2.  Scaling up gives a factor of at least 1 and scaling down a factor
    of at most 1. *)
Theorem calculate_scaling_factor_direction (original desired : Z) :
  0 < original -> 0 < desired ->
  desired <= 100 * original -> original <= desired * 2 ^ 1074 ->
  exists q,
    Console.calculate_scaling_factor original desired = Ok q
    /\ (original <= desired -> Num.leb (PyInt 1) (PyFloat q) = true)
    /\ (desired <= original -> Num.leb (PyFloat q) (PyInt 1) = true).
Proof.
  intros Ho Hd Hle Hunder.
  destruct (Z.le_gt_cases original desired) as [Hup|Hdown].
  - destruct (Z.eq_dec original desired) as [->|Hne].
    + destruct (calculate_scaling_factor_between desired desired 1 1)
        as (m & e & Hq & He & Hm); try lia.
      exists (S754_finite false m e). split; [exact Hq|].
      unfold Num.leb, Num.compare. rewrite float_compare_int by exact He.
      replace (Zpos m ?= 1 * 2 ^ (- e)) with Eq
        by (symmetry; apply Z.compare_eq_iff; lia).
      split; reflexivity.
    + destruct (calculate_scaling_factor_between original desired 1 100)
        as (m & e & Hq & He & Hm); try lia.
      exists (S754_finite false m e). split; [exact Hq|].
      split; [|lia]. intros _.
      unfold Num.leb, Num.compare. rewrite float_compare_int by exact He.
      cbn [option_map].
      destruct (Z.compare_spec (Zpos m) (1 * 2 ^ (- e))); try reflexivity. lia.
  - destruct (calculate_scaling_factor_between original desired 0 1)
      as (m & e & Hq & He & Hm); try lia.
    exists (S754_finite false m e). split; [exact Hq|].
    split; [lia|]. intros _.
    unfold Num.leb, Num.compare. rewrite float_compare_int by exact He.
    destruct (Z.compare_spec (Zpos m) (1 * 2 ^ (- e))); try reflexivity. lia.
Qed.

Lemma calculate_scaling_factor_direction_witness :
  exists q,
    Console.calculate_scaling_factor 12 7 = Ok q
    /\ (12 <= 7 -> Num.leb (PyInt 1) (PyFloat q) = true)
    /\ (7 <= 12 -> Num.leb (PyFloat q) (PyInt 1) = true).
Proof. apply (calculate_scaling_factor_direction 12 7); lia. Defined.

(** ** More on the formatting of the amounts *)

Lemma of_int_digits (z : Z) :
  0 <= z ->
  Forall (fun c => Str.is_digit c = true) (list_ascii_of_string (Str.of_int z)).
Proof.
  intros Hz. destruct z as [|p|p]; [repeat constructor | | lia].
  rewrite of_int_Zpos. apply uint_chars_digits.
Qed.

Lemma digit_char_facts (x : Z) :
  0 <= x <= 9 ->
  Str.is_digit (Str.digit_char x) = true
  /\ Ascii.eqb "0" (Str.digit_char x) = (x =? 0)
  /\ Ascii.eqb "." (Str.digit_char x) = false.
Proof.
  intros Hx.
  assert (H : x = 0 \/ x = 1 \/ x = 2 \/ x = 3 \/ x = 4 \/ x = 5 \/ x = 6
              \/ x = 7 \/ x = 8 \/ x = 9) by lia.
  repeat (destruct H as [->|H]; [repeat split|]); subst; repeat split.
Qed.

Section RstripMore.

Variable drop : ascii -> bool.

Lemma rstrip_by_app_dropped (a b : string) :
  Str.rstrip_by drop b = "" ->
  Str.rstrip_by drop (a ++ b) = Str.rstrip_by drop a.
Proof.
  intros Hb. induction a as [|x a IH]; cbn [append Str.rstrip_by].
  - exact Hb.
  - now rewrite IH.
Qed.

Lemma rstrip_by_Forall (P : ascii -> Prop) (s : string) :
  Forall P (list_ascii_of_string s) ->
  Forall P (list_ascii_of_string (Str.rstrip_by drop s)).
Proof.
  induction s as [|c s IH]; cbn [list_ascii_of_string Str.rstrip_by];
    intros H; [constructor|].
  inversion H as [|? ? Hc Hs]; subst. specialize (IH Hs).
  destruct (Str.rstrip_by drop s).
  - destruct (drop c); repeat constructor. exact Hc.
  - constructor; assumption.
Qed.

End RstripMore.

Lemma chars_app (a b : string) :
  list_ascii_of_string (a ++ b)
  = (list_ascii_of_string a ++ list_ascii_of_string b)%list.
Proof. induction a as [|c a IH]; cbn; [reflexivity | now rewrite IH]. Qed.

Lemma string_app_assoc (a b c : string) :
  (a ++ (b ++ c) = (a ++ b) ++ c)%string.
Proof. induction a as [|x a IH]; cbn; [reflexivity | now rewrite IH]. Qed.

(** The stripped rendering in closed form. *)
Lemma stripped_fixed2 (h : Z) :
  0 <= h -> Str.rstrip "." (Str.rstrip "0" (fixed2 h)) = fixed2_stripped h.
Proof.
  intros Hh. unfold fixed2, fixed2_stripped, Str.rstrip, Str.two_digits.
  set (q := h / 100). set (r := h mod 100).
  assert (Hr : 0 <= r < 100) by (subst r; apply Z.mod_pos_bound; lia).
  assert (Hq : 0 <= q) by (subst q; apply Z.div_pos; lia).
  assert (H1 : 0 <= r / 10 <= 9).
  { split; [apply Z.div_pos; lia|].
    assert (r / 10 < 10) by (apply Z.div_lt_upper_bound; lia). lia. }
  assert (H2 : 0 <= r mod 10 <= 9)
    by (pose proof (Z.mod_pos_bound r 10 ltac:(lia)); lia).
  destruct (digit_char_facts _ H1) as (D1 & Z1 & P1).
  destruct (digit_char_facts _ H2) as (D2 & Z2 & P2).
  pose proof (of_int_digits q Hq) as Hdig.
  change ("." ++ String (Str.digit_char (r / 10))
                   (String (Str.digit_char (r mod 10)) ""))%string
    with (String "." (String (Str.digit_char (r / 10))
                        (String (Str.digit_char (r mod 10)) ""))).
  rewrite rstrip_by_app_keep by reflexivity.
  cbn [Str.rstrip_by]. rewrite Z1, Z2.
  assert (Hdiv : r = 10 * (r / 10) + r mod 10) by (apply Z.div_mod; lia).
  destruct (Z.eqb_spec (r mod 10) 0) as [E2|E2].
  - destruct (Z.eqb_spec (r / 10) 0) as [E1|E1].
    + replace (r =? 0) with true by (symmetry; apply Z.eqb_eq; lia).
      rewrite rstrip_by_app_dropped by reflexivity.
      apply rstrip_by_id. revert Hdig. apply Forall_impl.
      intros c Hc. destruct c as [[] [] [] [] [] [] [] []];
        try discriminate Hc; reflexivity.
    + replace (r =? 0) with false by (symmetry; apply Z.eqb_neq; lia).
      change (Str.of_int q ++ String "." (String (Str.digit_char (r / 10)) ""))%string
        with (Str.of_int q ++ "." ++ String (Str.digit_char (r / 10)) "")%string.
      rewrite (string_app_assoc (Str.of_int q) ".").
      rewrite rstrip_by_app_keep by exact P1.
      reflexivity.
  - replace (r =? 0) with false by (symmetry; apply Z.eqb_neq; lia).
    change (Str.of_int q
            ++ String "." (String (Str.digit_char (r / 10))
                             (String (Str.digit_char (r mod 10)) "")))%string
      with (Str.of_int q
            ++ ("." ++ String (Str.digit_char (r / 10)) "")
            ++ String (Str.digit_char (r mod 10)) "")%string.
    rewrite (string_app_assoc (Str.of_int q)).
    rewrite rstrip_by_app_keep by exact P2.
    reflexivity.
Qed.

Lemma round_half_even_nonneg (n d : Z) :
  0 <= n -> 0 < d -> 0 <= Num.round_half_even n d.
Proof.
  intros Hn Hd. unfold Num.round_half_even.
  assert (0 <= n / d) by (apply Z.div_pos; lia).
  destruct (2 * (n mod d) ?= d); [destruct (Z.even _)| |]; lia.
Qed.

Lemma positive_finite_exact (a : num) :
  positive_finite a = true -> 0 < fst (Num.exact a).
Proof.
  destruct a as [z|x]; intros Hpf.
  - cbn in *. now apply Z.ltb_lt.
  - destruct (positive_finite_float x Hpf) as (m & e & -> & _).
    unfold Num.exact. destruct (F64.num_den m e) as [n d] eqn:E.
    cbn [fst]. exact (num_den_pos _ _ _ _ E).
Qed.

(** X3.  An amount that is neither whole nor near a fraction of the table is
    written with two decimals rounded to the nearest, and then without
    the zeros at the end: no decimals when both are zero (2.999 gives
    ["3"]), one when the second is zero (2.1 gives ["2.1"]). *)
Theorem format_amount_decimal (a : num) (n : Z) (d : positive) :
  positive_finite a = true ->
  Num.exact a = (n, d) ->
  n mod Zpos d <> 0 ->
  fraction_of_hundredths
    (Num.round_half_even (100 * (n mod Zpos d)) (Zpos d)) = None ->
  Console.format_amount a
  = Ok (fixed2_stripped (Num.round_half_even (100 * n) (Zpos d))).
Proof.
  intros Hpf E Hr Hfr.
  pose proof (positive_finite_exact a Hpf) as Hn. rewrite E in Hn. cbn in Hn.
  rewrite (format_amount_positive_finite a Hpf), E.
  unfold format_amount_policy.
  replace (n mod Zpos d =? 0) with false by (symmetry; now apply Z.eqb_neq).
  rewrite Hfr, stripped_fixed2; [reflexivity|].
  apply round_half_even_nonneg; lia.
Qed.

Lemma format_amount_decimal_witness :
  Console.format_amount (PyFloat (F64.of_decimal false 2999 (-3)))
  = Ok (fixed2_stripped 300)
  /\ fixed2_stripped 300 = "3".
Proof.
  split; [|reflexivity].
  apply (format_amount_decimal (PyFloat (F64.of_decimal false 2999 (-3)))
           6753147641242059 (Pos.pow 2 51)); vm_compute; congruence.
Defined.

Lemma amount_char_digits (l : list ascii) :
  Forall (fun c => Str.is_digit c = true) l ->
  Forall (fun c => amount_char c = true) l.
Proof.
  apply Forall_impl. intros c Hc. unfold amount_char. now rewrite Hc.
Qed.

Lemma fraction_chars (h : Z) (fr : string) :
  fraction_of_hundredths h = Some fr ->
  Forall (fun c => amount_char c = true) (list_ascii_of_string fr).
Proof.
  unfold fraction_of_hundredths. intros H.
  repeat match type of H with
         | (if ?b then _ else _) = _ => destruct b
         end; inversion H; subst; repeat constructor.
Qed.

(** X4.  A formatted amount is made of digits, blanks, slashes and points:
    no sign, no exponent, no letter. *)
Theorem format_amount_charset (a : num) :
  positive_finite a = true ->
  exists s,
    Console.format_amount a = Ok s
    /\ Forall (fun c => amount_char c = true) (list_ascii_of_string s).
Proof.
  intros Hpf. exists (format_amount_policy (Num.exact a)).
  split; [exact (format_amount_positive_finite a Hpf)|].
  pose proof (positive_finite_exact a Hpf) as Hn.
  destruct (Num.exact a) as [n d]. cbn [fst] in Hn.
  unfold format_amount_policy.
  assert (Hw : 0 <= n / Zpos d) by (apply Z.div_pos; lia).
  pose proof (amount_char_digits _ (of_int_digits _ Hw)) as Hwhole.
  destruct (n mod Zpos d =? 0); [exact Hwhole|].
  destruct (fraction_of_hundredths _) as [fr|] eqn:Efr.
  - pose proof (fraction_chars _ _ Efr) as Hfr.
    destruct (n / Zpos d =? 0); [exact Hfr|].
    rewrite !chars_app. apply Forall_app. split; [exact Hwhole|].
    apply Forall_app. split; [repeat constructor | exact Hfr].
  - unfold Str.rstrip. do 2 apply rstrip_by_Forall.
    set (h := Num.round_half_even (100 * n) (Zpos d)).
    assert (Hh : 0 <= h) by (apply round_half_even_nonneg; lia).
    assert (Hr : 0 <= h mod 100 < 100) by (apply Z.mod_pos_bound; lia).
    assert (H1 : 0 <= h mod 100 / 10 <= 9).
    { split; [apply Z.div_pos; lia|].
      assert (h mod 100 / 10 < 10) by (apply Z.div_lt_upper_bound; lia). lia. }
    assert (H2 : 0 <= (h mod 100) mod 10 <= 9)
      by (pose proof (Z.mod_pos_bound (h mod 100) 10 ltac:(lia)); lia).
    destruct (digit_char_facts _ H1) as (D1 & _).
    destruct (digit_char_facts _ H2) as (D2 & _).
    assert (Hq : 0 <= h / 100) by (apply Z.div_pos; lia).
    unfold fixed2. rewrite !chars_app. apply Forall_app. split.
    + apply amount_char_digits, of_int_digits, Hq.
    + apply Forall_app. split; [repeat constructor|].
      unfold Str.two_digits. cbn [list_ascii_of_string].
      repeat constructor; unfold amount_char; [now rewrite D1 | now rewrite D2].
Qed.

Lemma format_amount_charset_witness :
  exists s,
    Console.format_amount (PyFloat f2_33) = Ok s
    /\ Forall (fun c => amount_char c = true) (list_ascii_of_string s).
Proof.
  apply (format_amount_charset (PyFloat f2_33)). vm_compute. reflexivity.
Defined.

(** X5.  A whole float is written as the integer it equals, with no point:
    [6.0] is written as [6] is. *)
Theorem format_amount_whole_float (z : Z) :
  0 < z < 2 ^ 53 ->
  Console.format_amount (PyFloat (F64.of_Z z)) = Ok (Str.of_int z)
  /\ Console.format_amount (PyInt z) = Ok (Str.of_int z).
Proof.
  intros Hz. split; [|apply format_amount_int; lia].
  destruct z as [|p|p]; try lia.
  destruct (of_Z_exact false p ltac:(lia)) as (m & e & d & Ef & E).
  change (if false then Zneg p else Zpos p) with (Zpos p) in Ef. rewrite Ef.
  unfold Console.format_amount.
  rewrite (float_gtb_zero _ _ _ _ E), (float_int _ _ _ _ E).
  cbn [py_assert bind]. rewrite (float_eqb_int _ _ _ _ E).
  rewrite Z.mod_mul, Z.div_mul by lia. reflexivity.
Qed.

Lemma format_amount_whole_float_witness :
  Console.format_amount (PyFloat (F64.of_Z 6)) = Ok (Str.of_int 6)
  /\ Console.format_amount (PyInt 6) = Ok (Str.of_int 6).
Proof. apply (format_amount_whole_float 6). vm_compute. split; reflexivity. Defined.

Lemma round_half_even_near (n d k : Z) :
  0 < d -> 2 * Z.abs (n - k * d) < d -> Num.round_half_even n d = k.
Proof.
  intros Hd Hnear. unfold Num.round_half_even.
  destruct (Z.le_gt_cases (k * d) n) as [Hge|Hlt].
  - assert (Hq : n / d = k).
    { symmetry. apply (Z.div_unique n d k (n - k * d)); lia. }
    assert (Hm : n mod d = n - k * d).
    { symmetry. apply (Z.mod_unique n d k (n - k * d)); lia. }
    rewrite Hq, Hm.
    destruct (Z.compare_spec (2 * (n - k * d)) d); lia.
  - assert (Hq : n / d = k - 1).
    { symmetry. apply (Z.div_unique n d (k - 1) (n - (k - 1) * d)); lia. }
    assert (Hm : n mod d = n - (k - 1) * d).
    { symmetry. apply (Z.mod_unique n d (k - 1) (n - (k - 1) * d)); lia. }
    rewrite Hq, Hm.
    destruct (Z.compare_spec (2 * (n - (k - 1) * d)) d); lia.
Qed.

(** X6.  The table of fractions is matched with a tolerance: an amount whose
    fractional part is within half a hundredth of 1/4, 1/2 or 3/4 is
    written as that fraction, as if it were exact. *)
Theorem format_amount_near_fraction (m : positive) (e : Z) (n : Z)
    (d : positive) (k : Z) (fr : string) :
  F64.valid (S754_finite false m e) = true ->
  F64.num_den m e = (n, d) ->
  fraction_of_hundredths k = Some fr ->
  2 * Z.abs (100 * (n mod Zpos d) - k * Zpos d) < Zpos d ->
  Console.format_amount (PyFloat (S754_finite false m e))
  = Ok (if n / Zpos d =? 0 then fr
        else (Str.of_int (n / Zpos d) ++ " " ++ fr)%string).
Proof.
  intros Hvalid E Hk Hnear.
  rewrite (format_amount_float m e Hvalid), E. unfold format_amount_policy.
  assert (Hk25 : 25 <= k).
  { unfold fraction_of_hundredths in Hk.
    destruct (Z.eqb_spec k 25); [lia|]. destruct (Z.eqb_spec k 50); [lia|].
    destruct (Z.eqb_spec k 75); [lia|discriminate]. }
  assert (Hr : n mod Zpos d <> 0).
  { intros H0. rewrite H0 in Hnear.
    replace (100 * 0 - k * Zpos d) with (- (k * Zpos d)) in Hnear by lia.
    rewrite Z.abs_opp, Z.abs_eq in Hnear by nia. nia. }
  replace (n mod Zpos d =? 0) with false by (symmetry; now apply Z.eqb_neq).
  rewrite (round_half_even_near _ _ k) by (try exact Hnear; lia).
  now rewrite Hk.
Qed.

Lemma format_amount_near_fraction_witness :
  Console.format_amount (PyFloat (F64.of_decimal false 2254 (-3)))
  = Ok "2 1/4".
Proof.
  apply (format_amount_near_fraction 5075556780046549 (-51)
           5075556780046549 (Pos.pow 2 51) 25 "1/4");
    vm_compute; congruence.
Defined.

(** ** More on the validation and on the scaling *)

Section StripTwice.

Variable drop : ascii -> bool.

Lemma rstrip_by_idem (s : string) :
  Str.rstrip_by drop (Str.rstrip_by drop s) = Str.rstrip_by drop s.
Proof.
  induction s as [|c s IH]; [reflexivity|]. cbn [Str.rstrip_by].
  destruct (Str.rstrip_by drop s) as [|a r] eqn:E.
  - destruct (drop c) eqn:Hc; [reflexivity|]. cbn [Str.rstrip_by]. now rewrite Hc.
  - cbn [Str.rstrip_by]. cbn [Str.rstrip_by] in IH. now rewrite IH.
Qed.

Lemma lstrip_by_head (s : string) :
  Str.lstrip_by drop s = ""
  \/ exists c r, Str.lstrip_by drop s = String c r /\ drop c = false.
Proof.
  induction s as [|c s IH]; [now left|]. cbn [Str.lstrip_by].
  destruct (drop c) eqn:Hc; [exact IH|]. right. now exists c, s.
Qed.

Lemma strip_by_idem (s : string) :
  Str.strip_by drop (Str.strip_by drop s) = Str.strip_by drop s.
Proof.
  unfold Str.strip_by.
  destruct (lstrip_by_head s) as [->|(c & r & -> & Hc)]; [reflexivity|].
  destruct (rstrip_by_keep drop c r Hc) as [r' Hr']. rewrite Hr'.
  rewrite lstrip_by_id by exact Hc. rewrite <- Hr'. apply rstrip_by_idem.
Qed.

End StripTwice.

(** X7.  Both callers trim the input before the call, and the function trims
    it again: as long as something is left of the input, trimming
    before the call changes nothing. *)
Theorem is_valid_servings_strip (s : string) :
  Str.strip s <> "" ->
  Console.is_valid_servings (Str.strip s) = Console.is_valid_servings s.
Proof.
  intros Hne. unfold Console.is_valid_servings.
  destruct (String.eqb_spec (Str.strip s) "") as [E|_]; [contradiction|].
  destruct (String.eqb_spec s "") as [E|_]; [now subst|].
  unfold Str.strip. now rewrite strip_by_idem.
Qed.

Lemma is_valid_servings_strip_witness :
  Console.is_valid_servings (Str.strip "  24  ")
  = Console.is_valid_servings "  24  ".
Proof. apply (is_valid_servings_strip "  24  "). discriminate. Defined.

Lemma mul_raises (a b : num) (e : exn) :
  Num.mul a b = Raise e -> e = OverflowError.
Proof.
  destruct a as [x|x], b as [y|y]; cbn [Num.mul]; try discriminate;
    unfold Num.float_of_int;
    match goal with |- context [F64.of_Z ?z] => destruct (F64.of_Z z) end;
    cbn [bind]; congruence.
Qed.

Section ScaleRecipeMore.

Variable f : num.

Lemma validate_inv (items : Recipe) :
  (Console.scale_recipe_validate items = Ok tt /\ Forall positive_amount items)
  \/ Console.scale_recipe_validate items
     = Raise (AssertionError "Amount must be positive").
Proof.
  induction items as [|[k d] items IH]; cbn [Console.scale_recipe_validate].
  - left. split; [reflexivity | constructor].
  - destruct (Num.gtb (amount d) (PyInt 0)) eqn:Hd; cbn [py_assert bind].
    + destruct IH as [ [-> IH] | -> ]; [left|now right].
      split; [reflexivity|]. constructor; [exact Hd | exact IH].
    + now right.
Qed.

Lemma loop_inv (items : Recipe) : forall acc : Recipe,
  (exists res, Console.scale_recipe_loop items f acc = Ok res
               /\ Forall (sane_product f) items)
  \/ (exists e, Console.scale_recipe_loop items f acc = Raise e
                /\ scale_recipe_rejection e).
Proof.
  induction items as [|[k d] items IH]; intros acc;
    cbn [Console.scale_recipe_loop].
  - left. eexists. split; [reflexivity | constructor].
  - destruct (Num.mul (amount d) f) as [p|e] eqn:Hmul; cbn [bind].
    2:{ right. exists e. split; [reflexivity|].
        left. exact (mul_raises _ _ _ Hmul). }
    destruct (Num.gtb p (PyInt 0)) eqn:Hpos; cbn [py_assert bind].
    2:{ right. eexists. split; [reflexivity|]. right. cbn. tauto. }
    destruct (Num.ltb p (PyInt 10000)) eqn:Hlt; cbn [py_assert bind].
    2:{ right. eexists. split; [reflexivity|]. right. cbn. tauto. }
    destruct (IH (Dict.setitem String.eqb acc k
                    {| amount := p; unit_ := unit_ d |}))
      as [(res & Hl & Hs)|(e & Hl & He)]; rewrite Hl.
    + left. exists res. split; [reflexivity|].
      constructor; [|exact Hs]. exists p. auto.
    + right. exists e. auto.
Qed.

Lemma getitem_scaled (items out : Recipe) (key : string) :
  Forall2 (scaled_entry f) items out ->
  match Dict.getitem String.eqb items key with
  | Ok e =>
      exists e', Dict.getitem String.eqb out key = Ok e'
                 /\ unit_ e' = unit_ e
                 /\ Num.mul (amount e) f = Ok (amount e')
  | Raise x => Dict.getitem String.eqb out key = Raise x
  end.
Proof.
  induction 1 as [|[k d] [k' d'] items out (Hk & Hu & Hm) _ IH];
    cbn [Dict.getitem]; [reflexivity|].
  cbn [fst snd] in *. subst k'.
  destruct (String.eqb key k); [|exact IH]. now exists d'.
Qed.

End ScaleRecipeMore.

(** X8.  When [scale_recipe] returns, its preconditions held and every
    product was between the bounds of the sanity checks. *)
Theorem scale_recipe_returns_only_if (recipe scaled : Recipe) (f : num) :
  Console.scale_recipe recipe f = Ok scaled ->
  recipe <> []
  /\ Num.gtb f (PyInt 0) = true
  /\ Forall positive_amount recipe
  /\ Forall (sane_product f) recipe.
Proof.
  unfold Console.scale_recipe. intros H.
  destruct recipe as [|x recipe]; [discriminate H|].
  split; [discriminate|].
  replace (Dict.len (x :: recipe) >? 0) with true in H
    by (symmetry; apply Z.gtb_lt; unfold Dict.len; cbn [List.length]; lia).
  cbn [py_assert bind] in H.
  destruct (Num.gtb f (PyInt 0)); [|discriminate H].
  split; [reflexivity|]. cbn [py_assert bind] in H.
  destruct (validate_inv (x :: recipe)) as [[Hv Hpos]|Hv];
    rewrite Hv in H; [|discriminate H].
  split; [exact Hpos|]. cbn [bind] in H.
  destruct (loop_inv f (x :: recipe) []) as [(res & Hl & Hs)|(e & Hl & _)];
    rewrite Hl in H; [exact Hs | discriminate H].
Qed.

Lemma scale_recipe_returns_only_if_witness :
  Console.ORIGINAL_RECIPE <> []
  /\ Num.gtb (PyFloat f0_5) (PyInt 0) = true
  /\ Forall positive_amount Console.ORIGINAL_RECIPE
  /\ Forall (sane_product (PyFloat f0_5)) Console.ORIGINAL_RECIPE.
Proof.
  eapply (scale_recipe_returns_only_if Console.ORIGINAL_RECIPE _ (PyFloat f0_5)).
  vm_compute. reflexivity.
Defined.

(** X9.  On a dictionary, [scale_recipe] raises nothing but the exceptions
    of a refusal: the two assertions on its own result, the same keys
    and the same size, never fail. *)
Theorem scale_recipe_raises_only (recipe : Recipe) (f : num) (e : exn) :
  NoDup (Dict.keys recipe) ->
  Console.scale_recipe recipe f = Raise e ->
  scale_recipe_rejection e.
Proof.
  unfold Console.scale_recipe. intros Hnd H.
  destruct (Dict.len recipe >? 0); cbn [py_assert bind] in H.
  2:{ injection H as <-. right. cbn. tauto. }
  destruct (Num.gtb f (PyInt 0)); cbn [py_assert bind] in H.
  2:{ injection H as <-. right. cbn. tauto. }
  destruct (validate_inv recipe) as [[Hv Hpos]|Hv]; rewrite Hv in H;
    cbn [bind] in H.
  2:{ injection H as <-. right. cbn. tauto. }
  destruct (loop_inv f recipe []) as [(res & Hl & Hs)|(e' & Hl & He)];
    rewrite Hl in H; cbn [bind] in H.
  2:{ now injection H as <-. }
  exfalso.
  destruct (loop_ok f recipe [] Hnd Hs) as (out & Hloop & Hout & _).
  cbn [app] in Hloop. rewrite Hloop in Hl. injection Hl as <-.
  rewrite (same_keys_refl out recipe (scaled_keys f recipe out Hout)) in H.
  cbn [py_assert bind] in H.
  unfold Dict.len in H.
  rewrite <- (Forall2_length Hout), Z.eqb_refl in H. discriminate H.
Qed.

Lemma scale_recipe_raises_only_witness :
  scale_recipe_rejection
    (AssertionError "Scaled amount seems unreasonably large").
Proof.
  apply (scale_recipe_raises_only Console.ORIGINAL_RECIPE
           (PyFloat (F64.of_Z 5000))).
  - repeat constructor; cbn; intuition discriminate.
  - vm_compute. reflexivity.
Defined.

(** X10.  Looking an ingredient up in the scaled recipe: a name of the source
    is found with its unit and its amount multiplied by the factor, and
    a name that is not in the source is not found. *)
Theorem scale_recipe_lookup (recipe scaled : Recipe) (f : num) (key : string) :
  NoDup (Dict.keys recipe) ->
  Console.scale_recipe recipe f = Ok scaled ->
  match Dict.getitem String.eqb recipe key with
  | Ok e =>
      exists e', Dict.getitem String.eqb scaled key = Ok e'
                 /\ unit_ e' = unit_ e
                 /\ Num.mul (amount e) f = Ok (amount e')
  | Raise x => Dict.getitem String.eqb scaled key = Raise x
  end.
Proof.
  intros Hnd H. unfold Console.scale_recipe in H.
  destruct (py_assert (Dict.len recipe >? 0) _); [|discriminate H].
  cbn [bind] in H.
  destruct (py_assert (Num.gtb f (PyInt 0)) _); [|discriminate H].
  cbn [bind] in H.
  destruct (Console.scale_recipe_validate recipe); [|discriminate H].
  cbn [bind] in H.
  destruct (loop_inv f recipe []) as [(res & Hl & Hs)|(e & Hl & _)];
    rewrite Hl in H; [|discriminate H].
  destruct (loop_ok f recipe [] Hnd Hs) as (out & Hloop & Hout & _).
  cbn [app] in Hloop. rewrite Hloop in Hl. injection Hl as <-.
  cbn [bind] in H.
  destruct (py_assert (Dict.same_keys _ _ _) _); [|discriminate H].
  cbn [bind] in H.
  destruct (py_assert (Dict.len out =? Dict.len recipe) _); [|discriminate H].
  cbn [bind] in H. injection H as <-. apply getitem_scaled, Hout.
Qed.

Lemma scale_recipe_lookup_witness :
  let scaled :=
    match Console.scale_recipe Console.ORIGINAL_RECIPE (PyFloat f0_5) with
    | Ok r => r
    | Raise _ => []
    end in
  exists e',
    Dict.getitem String.eqb scaled "milk" = Ok e'
    /\ unit_ e' = "cups"
    /\ Num.mul (PyFloat f1_5) (PyFloat f0_5) = Ok (amount e').
Proof.
  intros scaled.
  apply (scale_recipe_lookup Console.ORIGINAL_RECIPE scaled (PyFloat f0_5) "milk").
  - repeat constructor; cbn; intuition discriminate.
  - vm_compute. reflexivity.
Defined.

(** ** The names of the ingredients *)

Lemma to_lower_keeps_out_underscore (c : ascii) :
  Ascii.eqb c "_" = false -> Unicode.to_lower c <> 95%N.
Proof.
  destruct c as [[] [] [] [] [] [] [] []]; vm_compute; intros H E;
    first [discriminate H | discriminate E].
Qed.

Lemma to_title_keeps_out_underscore (c : ascii) :
  Ascii.eqb c "_" = false -> ~ In 95%N (Unicode.to_title c).
Proof.
  destruct c as [[] [] [] [] [] [] [] []]; vm_compute; intros H E;
    first [discriminate H
          | repeat (destruct E as [E|E]; [discriminate E|]); exact E].
Qed.

Lemma title_from_keeps_out_underscore (l : list ascii) : forall b : bool,
  Forall (fun c => Ascii.eqb c "_" = false) l ->
  ~ In 95%N (Unicode.title_from b l).
Proof.
  induction l as [|c l IH]; intros b Hl; cbn [Unicode.title_from].
  - intros [].
  - inversion Hl as [|? ? Hc Hr]; subst. intros Hin.
    apply in_app_or in Hin as [Hin|Hin].
    + destruct b.
      * destruct Hin as [E|[]]. now apply (to_lower_keeps_out_underscore c Hc).
      * now apply (to_title_keeps_out_underscore c Hc).
    + exact (IH _ Hr Hin).
Qed.

Lemma str_replace_chars (a b : ascii) (s : string) :
  list_ascii_of_string (str_replace a b s)
  = map (fun c => if Ascii.eqb c a then b else c) (list_ascii_of_string s).
Proof. unfold str_replace. apply list_ascii_of_string_of_list_ascii. Qed.

Lemma str_replace_removes (s : string) :
  Forall (fun c => Ascii.eqb c "_" = false)
    (list_ascii_of_string (str_replace "_" " " s)).
Proof.
  rewrite str_replace_chars. apply Forall_forall. intros c Hin.
  apply in_map_iff in Hin as (c0 & <- & _).
  destruct (Ascii.eqb c0 "_") eqn:E; [reflexivity | exact E].
Qed.

(** X11.  Whatever the key of an ingredient, the name displayed for it
    holds no underscore, in the console program and in the Kivy
    program. *)
Theorem format_ingredient_name_no_underscore (ingredient : string) :
  ~ In 95%N (ConsoleShell.format_ingredient_name ingredient)
  /\ ~ In 95%N (ApkShell.format_ingredient_name ingredient).
Proof.
  split; apply title_from_keeps_out_underscore, str_replace_removes.
Qed.

Lemma lower_letter_facts (c : ascii) :
  is_lower_letter c = true ->
  Ascii.eqb c "_" = false
  /\ Unicode.is_cased c = true
  /\ Unicode.to_lower c = N_of_ascii c
  /\ Unicode.to_title c = [Z.to_N (Str.code c - 32)].
Proof.
  destruct c as [[] [] [] [] [] [] [] []]; vm_compute; intros H;
    first [discriminate H | repeat split].
Qed.

(** The rest of a word, after a cased character. *)
Lemma title_from_word_rest (r : list ascii) (l : list ascii) :
  Forall (fun c => is_lower_letter c = true) r ->
  Unicode.title_from true (r ++ " "%char :: l)
  = (map N_of_ascii r ++ 32%N :: Unicode.title_from false l)%list.
Proof.
  induction 1 as [|c r Hc _ IH]; cbn [app map Unicode.title_from].
  - reflexivity.
  - destruct (lower_letter_facts c Hc) as (_ & -> & -> & _).
    now rewrite IH.
Qed.

Lemma title_from_word_end (r : list ascii) :
  Forall (fun c => is_lower_letter c = true) r ->
  Unicode.title_from true r = map N_of_ascii r.
Proof.
  induction 1 as [|c r Hc _ IH]; cbn [map Unicode.title_from].
  - reflexivity.
  - destruct (lower_letter_facts c Hc) as (_ & -> & -> & _).
    now rewrite IH.
Qed.

Lemma title_word_then (w : string) (l : list ascii) :
  lower_word w ->
  Unicode.title_from false (list_ascii_of_string w ++ " "%char :: l)
  = (capitalized w ++ 32%N :: Unicode.title_from false l)%list.
Proof.
  unfold lower_word. destruct w as [|c r]; cbn [list_ascii_of_string]; intros H.
  - reflexivity.
  - inversion H as [|? ? Hc Hr]; subst.
    cbn [app Unicode.title_from capitalized].
    destruct (lower_letter_facts c Hc) as (_ & -> & _ & ->).
    now rewrite (title_from_word_rest _ l Hr).
Qed.

Lemma title_word (w : string) :
  lower_word w ->
  Unicode.title_from false (list_ascii_of_string w) = capitalized w.
Proof.
  unfold lower_word. destruct w as [|c r]; cbn [list_ascii_of_string]; intros H.
  - reflexivity.
  - inversion H as [|? ? Hc Hr]; subst.
    cbn [Unicode.title_from capitalized].
    destruct (lower_letter_facts c Hc) as (_ & -> & _ & ->).
    now rewrite (title_from_word_end _ Hr).
Qed.

Lemma replace_word (w : string) :
  lower_word w ->
  map (fun c => if Ascii.eqb c "_" then " "%char else c)
    (list_ascii_of_string w)
  = list_ascii_of_string w.
Proof.
  unfold lower_word. induction 1 as [|c r Hc _ IH]; cbn [map].
  - reflexivity.
  - destruct (lower_letter_facts c Hc) as (-> & _). now rewrite IH.
Qed.

Lemma title_snake (words : list string) :
  Forall lower_word words ->
  Unicode.title (str_replace "_" " " (String.concat "_" words))
  = spaced (map capitalized words).
Proof.
  unfold Unicode.title. rewrite str_replace_chars.
  induction 1 as [|w rest Hw Hrest IH].
  - reflexivity.
  - destruct rest as [|w' rest'].
    + cbn [String.concat map spaced].
      rewrite (replace_word w Hw). now apply title_word.
    + change (String.concat "_" (w :: w' :: rest'))
        with (w ++ String "_" (String.concat "_" (w' :: rest')))%string.
      rewrite chars_app, map_app, (replace_word w Hw).
      cbn [list_ascii_of_string map]. change (Ascii.eqb "_" "_") with true.
      cbv iota. rewrite (title_word_then w _ Hw), IH. reflexivity.
Qed.

(** X12.  A key made of words of lower-case letters joined by
    underscores is displayed as the same words, each with its first
    letter in upper case, separated by blanks. *)
Theorem format_ingredient_name_snake_case (words : list string) :
  Forall lower_word words ->
  ConsoleShell.format_ingredient_name (String.concat "_" words)
  = spaced (map capitalized words)
  /\ ApkShell.format_ingredient_name (String.concat "_" words)
     = spaced (map capitalized words).
Proof. intros H. split; now apply title_snake. Qed.

Lemma format_ingredient_name_snake_case_witness :
  ConsoleShell.format_ingredient_name "baking_powder"
  = Text.of_string "Baking Powder"
  /\ ApkShell.format_ingredient_name "baking_powder"
     = Text.of_string "Baking Powder".
Proof.
  apply (format_ingredient_name_snake_case ["baking"; "powder"]).
  repeat constructor.
Defined.

(** ** Displaying and comparing recipes *)

Lemma out_bind_result {A B : Type} (c : out A) (k : A -> out B) :
  snd (Out.bind c k)
  = match snd c with
    | Ok a => snd (k a)
    | Raise e => Raise e
    end.
Proof.
  destruct c as [o [a|e]]; cbn; [|reflexivity]. now destruct (k a).
Qed.

Lemma out_bind_raise {A B : Type} (c : out A) (k : A -> out B) (o : text)
    (e : exn) :
  c = (o, Raise e) -> Out.bind c k = (o, Raise e).
Proof. now intros ->. Qed.

Lemma display_recipe_rows_result (items : Recipe) :
  snd (ConsoleShell.display_recipe_rows items) = Ok tt
  <-> Forall formattable items.
Proof.
  induction items as [|[k d] items IH]; cbn [ConsoleShell.display_recipe_rows].
  - split; [constructor | reflexivity].
  - rewrite out_bind_result. unfold Out.lift at 1. cbn [snd].
    destruct (Console.format_amount (amount d)) as [s|e] eqn:E.
    + rewrite out_bind_result. cbn [Out.print snd]. rewrite IH. split.
      * intros H. constructor; [now exists s | exact H].
      * intros H. now inversion H.
    + split; [discriminate|]. intros H. inversion H as [|? ? [s Hs] _]; subst.
      cbn in Hs. congruence.
Qed.

(** X13.  [display_recipe] returns exactly when the recipe is not
    empty, the servings are from 1 to 100 and every amount can be
    formatted; on an empty recipe or on servings outside 1 to 100 it
    fails an assertion before it prints anything. *)
Theorem display_recipe_returns_iff (recipe : Recipe) (servings : Z) :
  (snd (ConsoleShell.display_recipe recipe servings) = Ok tt
   <-> recipe <> [] /\ 1 <= servings <= 100 /\ Forall formattable recipe)
  /\ (recipe = [] \/ servings < 1 \/ 100 < servings ->
      exists msg,
        ConsoleShell.display_recipe recipe servings
        = ([], Raise (AssertionError msg))).
Proof.
  unfold ConsoleShell.display_recipe, Dict.len, Console.MIN_SERVINGS,
    Console.MAX_SERVINGS.
  destruct recipe as [|e recipe].
  { split.
    - split; [discriminate | now intros [H _]].
    - intros _. eexists. reflexivity. }
  replace (Z.of_nat (List.length (e :: recipe)) >? 0) with true
    by (symmetry; apply Z.gtb_lt; cbn [List.length]; lia).
  cbn [py_assert]. change (Out.lift (Ok tt)) with (@Out.ret unit tt).
  destruct (Z.ltb_spec servings 1) as [Hlo|Hlo].
  { replace (servings >? 0) with false by (symmetry; rewrite Z.gtb_ltb; apply Z.ltb_ge; lia).
    split.
    - split; [discriminate | lia].
    - intros _. eexists. reflexivity. }
  replace (servings >? 0) with true by (symmetry; apply Z.gtb_lt; lia).
  replace (1 <=? servings) with true by (symmetry; apply Z.leb_le; lia).
  destruct (Z.leb_spec servings 100) as [Hhi|Hhi].
  - cbn [andb py_assert]. split.
    + repeat (rewrite out_bind_result; cbn [Out.ret Out.lift Out.print snd]).
      destruct (snd (ConsoleShell.display_recipe_rows (e :: recipe)))
        as [[]|ex] eqn:E.
      * cbn [snd]. apply display_recipe_rows_result in E.
        split; [intros _; repeat split; try lia; [discriminate | exact E]
               | reflexivity].
      * split; [discriminate|]. intros (_ & _ & H).
        apply display_recipe_rows_result in H. congruence.
    + intros [H|H]; [discriminate | lia].
  - cbn [andb py_assert]. split.
    + split; [discriminate | lia].
    + intros _. eexists. reflexivity.
Qed.




Section CompareRecipes.

Variables original scaled : Recipe.



End CompareRecipes.


(** ** The console program *)

Lemma serves_all : forallb serves (Zseq 1 100) = true.
Proof. vm_compute. reflexivity. Qed.

(** The body of the loop depends on the line only through the outcome
    of the validation. *)
Lemma step_servings_ext (line line' : string) :
  Console.is_valid_servings (Str.strip line)
  = Console.is_valid_servings (Str.strip line') ->
  ConsoleShell.step ConsoleShell.AskServings line
  = ConsoleShell.step ConsoleShell.AskServings line'.
Proof. intros H. unfold ConsoleShell.step. now rewrite H. Qed.

Lemma step_servings (line : string) :
  (exists w, snd (ConsoleShell.step ConsoleShell.AskServings line) = Ok w
             /\ comparable w = true)
  \/ (snd (ConsoleShell.step ConsoleShell.AskServings line)
      = Raise OverflowError
      /\ overflows line).
Proof.
  destruct (is_valid_servings_outcomes (Str.strip line))
    as [(n & Hn & H)|[(e & H)|H]].
  - left.
    assert (Hs : serves n = true).
    { pose proof serves_all as Hall. rewrite forallb_forall in Hall.
      apply Hall, Zseq_In. cbn [Z.of_nat]. lia. }
    rewrite (step_servings_ext line (Str.of_int n)).
    + unfold serves in Hs.
      destruct (snd (ConsoleShell.step ConsoleShell.AskServings (Str.of_int n)))
        as [w|ex]; [now exists w | discriminate Hs].
    + rewrite H, strip_of_int. symmetry.
      apply is_valid_servings_in_range.
      unfold Console.MIN_SERVINGS, Console.MAX_SERVINGS. lia.
  - left. exists ConsoleShell.AskServings. split; [|reflexivity].
    unfold ConsoleShell.step. rewrite H. unfold failure.
    rewrite out_bind_result. cbn [Out.lift snd negb].
    rewrite out_bind_result. reflexivity.
  - right. split; [|exact H].
    unfold ConsoleShell.step. rewrite H. reflexivity.
Qed.

Lemma step_comparison (scaled : Recipe) (desired : Z) (line : string) :
  comparable (ConsoleShell.AskComparison scaled desired) = true ->
  snd (ConsoleShell.step (ConsoleShell.AskComparison scaled desired) line)
  = Ok ConsoleShell.AskAnother.
Proof.
  cbn [comparable ConsoleShell.step]. intros H. rewrite out_bind_result.
  destruct (ConsoleShell.is_yes _); [|reflexivity].
  destruct (snd (ConsoleShell.compare_recipes _ _ _ _)) as [[]|e];
    [reflexivity | discriminate H].
Qed.

Lemma step_another (line : string) :
  snd (ConsoleShell.step ConsoleShell.AskAnother line)
  = Ok (if ConsoleShell.is_yes (Unicode.lower (Str.strip line))
        then ConsoleShell.AskServings else ConsoleShell.Finished).
Proof.
  cbn [ConsoleShell.step].
  destruct (ConsoleShell.is_yes _); cbn [negb]; [reflexivity|].
  rewrite out_bind_result. reflexivity.
Qed.

(** One turn of the loop, from a state in which it can wait. *)
Lemma step_comparable (w : ConsoleShell.waiting) (line : string) :
  comparable w = true ->
  (exists w', snd (ConsoleShell.step w line) = Ok w' /\ comparable w' = true)
  \/ (snd (ConsoleShell.step w line) = Raise OverflowError /\ overflows line).
Proof.
  intros Hw. destruct w as [|scaled desired| |].
  - apply step_servings.
  - left. exists ConsoleShell.AskAnother.
    split; [now apply step_comparison | reflexivity].
  - left. rewrite step_another. eexists. split; [reflexivity|].
    now destruct (ConsoleShell.is_yes _).
  - left. exists ConsoleShell.Finished. split; reflexivity.
Qed.

Lemma run_unfold (w : ConsoleShell.waiting) (inputs : list string) :
  w <> ConsoleShell.Finished ->
  snd (ConsoleShell.run w inputs)
  = match inputs with
    | [] => Ok tt
    | line :: rest =>
        match snd (ConsoleShell.step w line) with
        | Ok w' => snd (ConsoleShell.run w' rest)
        | Raise e => Raise e
        end
    end.
Proof.
  intros Hw.
  destruct w; try congruence; destruct inputs as [|line rest];
    cbn [ConsoleShell.run]; rewrite out_bind_result; cbn [Out.write snd];
    try reflexivity; now rewrite out_bind_result.
Qed.

Lemma run_comparable (inputs : list string) :
  forall w : ConsoleShell.waiting,
  comparable w = true ->
  snd (ConsoleShell.run w inputs) = Ok tt
  \/ (snd (ConsoleShell.run w inputs) = Raise OverflowError
      /\ Exists overflows inputs).
Proof.
  induction inputs as [|line rest IH]; intros w Hw.
  - left. destruct w; reflexivity.
  - destruct w as [|scaled desired| |] eqn:Ew;
      [| | |left; reflexivity]; rewrite <- Ew in *;
      (rewrite run_unfold by (rewrite Ew; discriminate));
      (destruct (step_comparable w line Hw) as [(w' & -> & Hw')|[-> Ho]];
       [destruct (IH w' Hw') as [H|[H Ho]];
        [now left | right; split; [exact H | now apply Exists_cons_tl]]
       |right; split; [reflexivity | now apply Exists_cons_hd]]).
Qed.

Lemma recipe_adjuster_run (inputs : list string) :
  snd (ConsoleShell.recipe_adjuster inputs)
  = snd (ConsoleShell.run ConsoleShell.AskServings inputs).
Proof.
  unfold ConsoleShell.recipe_adjuster.
  repeat (rewrite out_bind_result;
          match goal with
          | |- context [match snd ?c with _ => _ end] =>
              let v := eval vm_compute in (snd c) in
              change (snd c) with v
          end; cbv iota).
  reflexivity.
Qed.

(** X15.  Whatever the lines of the standard input, and however many,
    the console program returns, at the answer that ends it or at the
    end of the input, or it stops on [OverflowError]; and it stops only
    when one of the lines makes the validation of the servings
    overflow.  No assertion of the functions it calls fails, and no
    other exception escapes. *)
Theorem recipe_adjuster_raises_only (inputs : list string) :
  snd (ConsoleShell.recipe_adjuster inputs) = Ok tt
  \/ (snd (ConsoleShell.recipe_adjuster inputs) = Raise OverflowError
      /\ Exists overflows inputs).
Proof.
  rewrite recipe_adjuster_run. now apply run_comparable.
Qed.

(** X16.  A first line on which the validation overflows ends the
    program at once with [OverflowError], which none of the two
    [except] clauses catches. *)
Theorem recipe_adjuster_overflow (line : string) (rest : list string) :
  overflows line ->
  snd (ConsoleShell.recipe_adjuster (line :: rest)) = Raise OverflowError.
Proof.
  intros H. rewrite recipe_adjuster_run, run_unfold by discriminate.
  unfold ConsoleShell.step. unfold overflows in H. now rewrite H.
Qed.

Lemma recipe_adjuster_overflow_witness :
  snd (ConsoleShell.recipe_adjuster ["inf"; "y"]) = Raise OverflowError.
Proof.
  apply (recipe_adjuster_overflow "inf" ["y"]). vm_compute. reflexivity.
Defined.

(** ** Texts of digits *)

Lemma all_digits_Forall (s : string) :
  all_digits s = true ->
  Forall (fun c => Str.is_digit c = true) (list_ascii_of_string s).
Proof. intros H. apply Forall_forall. now apply forallb_forall. Qed.

Lemma digit_val_bounds (c : ascii) :
  Str.is_digit c = true -> 0 <= Str.digit_val c <= 9.
Proof.
  unfold Str.is_digit, Str.digit_val.
  intros [H1 H2]%andb_true_iff. apply Z.leb_le in H1, H2. lia.
Qed.

Lemma digits_val_from_nonneg (l : list ascii) : forall acc : Z,
  Forall (fun c => Str.is_digit c = true) l -> 0 <= acc ->
  0 <= fold_left (fun a c => 10 * a + Str.digit_val c) l acc.
Proof.
  induction l as [|c l IH]; intros acc Hl Hacc; cbn [fold_left]; [exact Hacc|].
  inversion Hl as [|? ? Hc Hr]; subst.
  apply IH; [exact Hr|]. pose proof (digit_val_bounds c Hc). lia.
Qed.

Lemma digit_not_sign (c : ascii) (l : list ascii) :
  Str.is_digit c = true -> Str.parse_sign (c :: l) = (false, c :: l).
Proof.
  destruct c as [[] [] [] [] [] [] [] []]; intros H;
    first [discriminate H | reflexivity].
Qed.

(** [float] on a text of digits is the float of its value. *)
Lemma to_float_digits (s : string) :
  s <> "" -> all_digits s = true ->
  Str.to_float s = Ok (F64.of_Z (numeral_value s)).
Proof.
  intros Hne Hall. pose proof (all_digits_Forall s Hall) as Hd.
  rewrite to_float_plain by (now apply digits_plain).
  unfold numeral_value.
  destruct (list_ascii_of_string s) as [|c l] eqn:El.
  { destruct s; [congruence | discriminate El]. }
  unfold Str.parse_decimal.
  rewrite digit_not_sign by (now inversion Hd).
  rewrite (span_digits_all _ Hd), app_nil_r. cbn [List.length Z.of_nat Z.opp].
  pose proof (digits_val_from_nonneg (c :: l) 0 Hd ltac:(lia)) as Hv.
  fold (Str.digits_val (c :: l)) in Hv.
  destruct (Str.digits_val (c :: l)) as [|p|p]; [reflexivity| |lia].
  cbn [Z.to_N F64.of_decimal id]. now rewrite Z.mul_1_r.
Qed.

Lemma strip_digits (s : string) :
  all_digits s = true -> Str.strip s = s.
Proof.
  intros Hall. apply strip_by_id.
  pose proof (all_digits_Forall s Hall) as Hd. apply digits_plain in Hd.
  revert Hd. apply Forall_impl.
  intros c Hc. now destruct (plain_facts c Hc) as (-> & _).
Qed.

Lemma digits_validated (s : string) :
  s <> "" -> all_digits s = true -> numeral_value s < 2 ^ 53 ->
  Console.is_valid_servings s
  = if numeral_value s <? Console.MIN_SERVINGS then failure BelowMinimum
    else if numeral_value s >? Console.MAX_SERVINGS then failure AboveMaximum
    else success (numeral_value s).
Proof.
  intros Hne Hall Hv.
  assert (H0 : 0 <= numeral_value s).
  { apply digits_val_from_nonneg; [now apply all_digits_Forall | lia]. }
  destruct (int_of_float_of_Z (numeral_value s) ltac:(lia)) as [Hint Hneb].
  unfold Console.is_valid_servings.
  destruct s as [|c s'] eqn:Es; [congruence|]. cbn [String.eqb].
  rewrite <- Es in *. rewrite strip_digits by exact Hall.
  unfold Console.is_valid_servings_try.
  rewrite to_float_digits by (subst s; assumption || discriminate).
  cbn [bind]. rewrite Hint. cbn [bind]. rewrite Hneb.
  unfold Console.MIN_SERVINGS, Console.MAX_SERVINGS.
  destruct (Z.ltb_spec (numeral_value s) 1); [reflexivity|].
  destruct (Z.gtb_spec (numeral_value s) 100); [reflexivity|].
  replace ((1 <=? numeral_value s) && (numeral_value s <=? 100)) with true;
    [reflexivity|].
  symmetry. apply andb_true_iff. split; apply Z.leb_le; lia.
Qed.

(** X17.  A text of digits whose value is below [2^53] is validated as
    its value is, leading zeros or not: accepted from 1 to 100,
    rejected as too small at 0 and as too large above 100. *)
Theorem is_valid_servings_digits (s : string) :
  s <> "" -> all_digits s = true -> numeral_value s < 2 ^ 53 ->
  let outcome :=
    if numeral_value s <? 1 then failure BelowMinimum
    else if numeral_value s >? 100 then failure AboveMaximum
    else success (numeral_value s) in
  Console.is_valid_servings s = outcome /\ APK.is_valid_servings s = outcome.
Proof.
  intros Hne Hall Hv. split; now apply digits_validated.
Qed.

Lemma is_valid_servings_digits_witness :
  Console.is_valid_servings "007" = success 7
  /\ APK.is_valid_servings "007" = success 7.
Proof.
  apply (is_valid_servings_digits "007");
    [discriminate | reflexivity | vm_compute; reflexivity].
Defined.

(** An integer of more than 1024 bits is rounded to an infinity. *)
Lemma of_Z_overflow (p : positive) :
  2 ^ 1024 <= Zpos p -> F64.of_Z (Zpos p) = S754_infinity false.
Proof.
  intros Hp. apply F64Facts.digits_gt in Hp.
  set (dg := Zpos (digits2_pos p)) in *.
  change (F64.of_Z (Zpos p))
    with (binary_round F64.prec F64.emax false p 0).
  unfold binary_round, shl_align.
  rewrite F64Sub.fexp_eq, Z.add_0_r. fold dg.
  replace (Z.max (dg - 53) (-1074) - 0) with (dg - 53) by lia.
  destruct (dg - 53) as [|k|k] eqn:Ek; [lia| |lia].
  unfold binary_round_aux. unfold shr_fexp at 1. cbn [Zdigits2].
  rewrite F64Sub.fexp_eq, Z.add_0_r. fold dg.
  replace (Z.max (dg - 53) (-1074) - 0) with (Zpos k) by lia.
  set (x := shr_record_of_loc (Zpos p) loc_Exact).
  assert (Hx : 0 <= shr_m x) by (subst x; cbn; lia).
  destruct (F64Div.shr_shifted x 0 (Zpos k) Hx) as (k1 & _ & Hpos & _ & Hsh & He).
  rewrite (Hpos ltac:(lia)) in *.
  destruct (shr x 0 (Zpos k)) as [mrs1 e1]. cbn [fst snd] in Hsh, He. subst e1.
  pose proof (F64Div.round_nearest_even_bounds mrs1) as Hr. cbv zeta in Hr.
  set (m1 := round_nearest_even (shr_m mrs1) (loc_of_shr_record mrs1)) in *.
  assert (Hm1 : 1 <= shr_m mrs1).
  { destruct Hsh as [Hm _]. rewrite Hm. subst x. cbn [shr_record_of_loc shr_m].
    pose proof (F64Facts.digits_lower p) as Hl. fold dg in Hl.
    assert (E : 2 ^ dg = 2 * (2 ^ 52 * 2 ^ Zpos k)).
    { rewrite <- Z.pow_add_r, <- Z.pow_succ_r by lia. f_equal. lia. }
    assert (Pn : 0 < 2 ^ Zpos k) by (apply Z.pow_pos_nonneg; lia).
    assert (2 ^ 52 <= Zpos p / 2 ^ Zpos k); [|lia].
    apply Z.div_le_lower_bound; lia. }
  destruct m1 as [|mm1|mm1] eqn:Em1; [lia| |lia].
  destruct (F64Div.shr_fexp_spec mm1 (0 + Zpos k) loc_Exact ltac:(lia))
    as (k2 & mrs2 & E2 & Hk2 & _ & Hm2 & _).
  rewrite E2.
  destruct (shr_m mrs2) as [|mm2|mm2]; [lia| |lia].
  replace (0 + Zpos k + k2 <=? F64.emax - F64.prec) with false; [reflexivity|].
  symmetry. apply Z.leb_gt. unfold F64.emax, F64.prec. lia.
Qed.

Lemma long_numeral_overflows (s : string) :
  all_digits s = true -> 2 ^ 1024 <= numeral_value s ->
  Console.is_valid_servings s = Raise OverflowError.
Proof.
  intros Hall Hv.
  unfold Console.is_valid_servings.
  destruct s as [|c s'] eqn:Es; [vm_compute in Hv; now exfalso|].
  cbn [String.eqb]. rewrite <- Es in *. rewrite strip_digits by exact Hall.
  unfold Console.is_valid_servings_try.
  rewrite to_float_digits by (subst s; assumption || discriminate).
  destruct (numeral_value s) as [|p|p] eqn:Ev;
    [vm_compute in Hv; now exfalso | | lia].
  rewrite (of_Z_overflow p Hv). reflexivity.
Qed.

(** X18.  A text of digits whose value is [2^1024] or more, which takes
    309 digits or more, is not rejected as too large: the validation
    raises [OverflowError]. *)
Theorem is_valid_servings_long_numeral (s : string) :
  all_digits s = true -> 2 ^ 1024 <= numeral_value s ->
  Console.is_valid_servings s = Raise OverflowError
  /\ APK.is_valid_servings s = Raise OverflowError.
Proof.
  intros Hall Hv. split; now apply long_numeral_overflows.
Qed.

Lemma is_valid_servings_long_numeral_witness :
  Console.is_valid_servings (Str.of_int (10 ^ 309)) = Raise OverflowError
  /\ APK.is_valid_servings (Str.of_int (10 ^ 309)) = Raise OverflowError.
Proof.
  apply (is_valid_servings_long_numeral (Str.of_int (10 ^ 309)));
    vm_compute; [reflexivity | discriminate].
Defined.

(** ** From the servings to the display, and the Kivy program *)

Lemma goes_through_all : forallb goes_through (Zseq 1 100) = true.
Proof. vm_compute. reflexivity. Qed.

Lemma same_order_eq (a : list string) : forall b : list string,
  same_order a b = true -> a = b.
Proof.
  induction a as [|x a IH]; intros [|y b] H; cbn in H;
    try discriminate H; [reflexivity|].
  apply andb_true_iff in H as [Hx Hr]. apply String.eqb_eq in Hx.
  now rewrite Hx, (IH b Hr).
Qed.

Lemma formattable_all (items : Recipe) :
  forallb (fun e => returns (Console.format_amount (amount (snd e)))) items
  = true ->
  Forall formattable items.
Proof.
  intros H. apply Forall_forall. intros e Hin.
  pose proof (proj1 (forallb_forall _ _) H e Hin) as He. cbn beta in He.
  unfold formattable.
  destruct (Console.format_amount (amount (snd e))) as [s|ex];
    [now exists s | discriminate He].
Qed.

Lemma goes_through_spec (n : Z) :
  1 <= n <= 100 ->
  exists q scaled,
    Console.calculate_scaling_factor Console.ORIGINAL_SERVINGS n = Ok q
    /\ Console.scale_recipe Console.ORIGINAL_RECIPE (PyFloat q) = Ok scaled
    /\ Dict.keys scaled = Dict.keys Console.ORIGINAL_RECIPE
    /\ Forall formattable scaled.
Proof.
  intros Hn.
  assert (H : goes_through n = true).
  { pose proof goes_through_all as Hall. rewrite forallb_forall in Hall.
    apply Hall, Zseq_In. cbn [Z.of_nat]. lia. }
  unfold goes_through in H.
  destruct (Console.calculate_scaling_factor _ n) as [q|] eqn:Eq;
    [|discriminate H].
  destruct (Console.scale_recipe _ _) as [scaled|] eqn:Es; [|discriminate H].
  apply andb_true_iff in H as [Hk Hf].
  exists q, scaled. split; [reflexivity|]. split; [exact Es|].
  split; [now apply same_order_eq | now apply formattable_all].
Qed.

(** X19.  From the servings to the display: for every number of
    servings from 1 to 100 the factor exists, the original recipe is
    scaled by it without a failed sanity check, the scaled recipe has
    the ingredients of the original in their order, and [display_recipe]
    prints it and returns. *)
Theorem servings_to_display (n : Z) :
  1 <= n <= 100 ->
  exists q scaled,
    Console.calculate_scaling_factor Console.ORIGINAL_SERVINGS n = Ok q
    /\ Console.scale_recipe Console.ORIGINAL_RECIPE (PyFloat q) = Ok scaled
    /\ Dict.keys scaled = Dict.keys Console.ORIGINAL_RECIPE
    /\ snd (ConsoleShell.display_recipe scaled n) = Ok tt.
Proof.
  intros Hn. destruct (goes_through_spec n Hn) as (q & scaled & Hq & Hs & Hk & Hf).
  exists q, scaled. repeat split; try assumption.
  unfold ConsoleShell.display_recipe, Dict.len, Console.MIN_SERVINGS,
    Console.MAX_SERVINGS.
  destruct scaled as [|e scaled]; [discriminate Hk|].
  replace (Z.of_nat (List.length (e :: scaled)) >? 0) with true
    by (symmetry; apply Z.gtb_lt; cbn [List.length]; lia).
  replace (n >? 0) with true by (symmetry; apply Z.gtb_lt; lia).
  replace ((1 <=? n) && (n <=? 100)) with true
    by (symmetry; apply andb_true_iff; split; apply Z.leb_le; lia).
  repeat (rewrite out_bind_result;
          cbn [py_assert Out.ret Out.lift Out.print snd]).
  apply display_recipe_rows_result in Hf. now rewrite Hf.
Qed.

Lemma servings_to_display_witness :
  exists q scaled,
    Console.calculate_scaling_factor Console.ORIGINAL_SERVINGS 7 = Ok q
    /\ Console.scale_recipe Console.ORIGINAL_RECIPE (PyFloat q) = Ok scaled
    /\ Dict.keys scaled = Dict.keys Console.ORIGINAL_RECIPE
    /\ snd (ConsoleShell.display_recipe scaled 7) = Ok tt.
Proof. apply (servings_to_display 7). lia. Defined.

Lemma original_formattable : Forall formattable APK.ORIGINAL_RECIPE.
Proof. apply formattable_all. vm_compute. reflexivity. Qed.

Lemma ingredient_lines_returns (gap : string) (items : Recipe) :
  Forall formattable items ->
  forall t : text, exists t', ApkShell.ingredient_lines gap items t = Ok t'.
Proof.
  induction 1 as [|[k d] items [s Hs] _ IH]; intros t;
    cbn [ApkShell.ingredient_lines].
  - now exists t.
  - cbn [snd] in Hs. change APK.format_amount with Console.format_amount.
    rewrite Hs. cbn [bind]. apply IH.
Qed.

(** The three outcomes of a tap on the button. *)
Lemma on_scale_pressed_outcomes (app : ApkShell.App) :
  let s := Str.strip (ApkShell.servings_input_text app) in
  (exists e,
     Console.is_valid_servings s = failure e
     /\ ApkShell.on_scale_pressed app
        = ApkShell.show_error (error_message e) app)
  \/ (exists n app',
        1 <= n <= 100
        /\ Console.is_valid_servings s = success n
        /\ ApkShell.on_scale_pressed app = (app', Ok tt)
        /\ ApkShell.servings_input_text app' = ApkShell.servings_input_text app
        /\ ApkShell.popups app' = ApkShell.popups app
        /\ ApkShell.desired_servings app' = n
        /\ (ApkShell.scaled_recipe app' = ApkShell.scaled_recipe app
            \/ exists scaled,
                 ApkShell.scaled_recipe app' = Some scaled
                 /\ Dict.keys scaled = Dict.keys APK.ORIGINAL_RECIPE))
  \/ (Console.is_valid_servings s = Raise OverflowError
      /\ ApkShell.on_scale_pressed app = (app, Raise OverflowError)).
Proof.
  intros s. unfold ApkShell.on_scale_pressed.
  change APK.is_valid_servings with Console.is_valid_servings. fold s.
  destruct (is_valid_servings_outcomes s) as [(n & Hn & H)|[(e & H)|H]].
  - right. left. rewrite H. unfold success. cbn [negb].
    destruct (goes_through_spec n Hn) as (q & scaled & Hq & Hs & Hk & Hf).
    change APK.calculate_scaling_factor with Console.calculate_scaling_factor.
    change APK.ORIGINAL_SERVINGS with Console.ORIGINAL_SERVINGS.
    change APK.scale_recipe with Console.scale_recipe.
    change APK.ORIGINAL_RECIPE with Console.ORIGINAL_RECIPE.
    rewrite Hq.
    destruct (Num.eqb (PyFloat q) (PyFloat f1_0)).
    + unfold ApkShell.display_original_recipe.
      match goal with
      | |- context [ApkShell.ingredient_lines ?g ?r ?t] =>
          destruct (ingredient_lines_returns g r original_formattable t)
            as [t' Ht]
      end.
      rewrite Ht. cbn. exists n. eexists.
      repeat split; try reflexivity; try lia. now left.
    + rewrite Hs. unfold ApkShell.display_scaled_recipe.
      match goal with
      | |- context [ApkShell.ingredient_lines ?g ?r ?t] =>
          destruct (ingredient_lines_returns g r Hf t) as [t' Ht]
      end.
      rewrite Ht. cbn. exists n. eexists.
      repeat split; try reflexivity; try lia. right. now exists scaled.
  - left. exists e. rewrite H. unfold failure. cbn [negb]. now split.
  - right. right. rewrite H. now split.
Qed.

(** X20.  A tap on the button never fails an assertion: it returns, or
    it raises [OverflowError] from the validation of the servings, and
    then no popup is opened and the state is what it was. *)
Theorem on_scale_pressed_raises_only (app : ApkShell.App) :
  snd (ApkShell.on_scale_pressed app) = Ok tt
  \/ (ApkShell.on_scale_pressed app = (app, Raise OverflowError)
      /\ overflows (ApkShell.servings_input_text app)).
Proof.
  destruct (on_scale_pressed_outcomes app)
    as [(e & _ & ->)|[(n & app' & _ & _ & -> & _)|[H ->]]].
  - now left.
  - now left.
  - right. now split.
Qed.

(** X21.  With a text of digits in the input field, which is what the
    field is set to accept, and a value below [2^53], a tap on the
    button returns: from 1 to 100 it opens no popup and remembers the
    value as the desired servings; otherwise, and on the empty text, it
    opens a popup with a message of the validation and changes nothing
    else. *)
Theorem on_scale_pressed_digits (app : ApkShell.App) :
  let s := ApkShell.servings_input_text app in
  all_digits s = true -> numeral_value s < 2 ^ 53 ->
  if (1 <=? numeral_value s) && (numeral_value s <=? 100)
  then exists app',
         ApkShell.on_scale_pressed app = (app', Ok tt)
         /\ ApkShell.popups app' = ApkShell.popups app
         /\ ApkShell.desired_servings app' = numeral_value s
  else exists e,
         ApkShell.on_scale_pressed app
         = ApkShell.show_error (error_message e) app.
Proof.
  intros s Hall Hv.
  pose proof (on_scale_pressed_outcomes app) as Hout. cbv zeta in Hout.
  fold s in Hout. rewrite (strip_digits s Hall) in Hout.
  destruct (string_dec s "") as [E|Hne].
  - rewrite E in *. cbn.
    destruct Hout as [(e & _ & H)|[(n & app' & _ & Hs & _)|[Hs _]]];
      [now exists e | discriminate Hs | discriminate Hs].
  - rewrite (digits_validated s Hne Hall Hv) in Hout.
    unfold Console.MIN_SERVINGS, Console.MAX_SERVINGS in Hout.
    destruct (Z.ltb_spec (numeral_value s) 1) as [Hlo|Hlo].
    { replace (1 <=? numeral_value s) with false
        by (symmetry; apply Z.leb_gt; lia). cbn [andb].
      destruct Hout as [(e & _ & H)|[(n & app' & _ & Hs & _)|[Hs _]]];
        [now exists e | discriminate Hs | discriminate Hs]. }
    replace (1 <=? numeral_value s) with true
      by (symmetry; apply Z.leb_le; lia). cbn [andb].
    destruct (Z.gtb_spec (numeral_value s) 100) as [Hhi|Hhi].
    { replace (numeral_value s <=? 100) with false
        by (symmetry; apply Z.leb_gt; lia).
      destruct Hout as [(e & _ & H)|[(n & app' & _ & Hs & _)|[Hs _]]];
        [now exists e | discriminate Hs | discriminate Hs]. }
    replace (numeral_value s <=? 100) with true
      by (symmetry; apply Z.leb_le; lia).
    destruct Hout
      as [(e & Hs & _)|[(n & app' & _ & Hs & H & _ & Hp & Hd & _)|[Hs _]]];
      [discriminate Hs | | discriminate Hs].
    injection Hs as Hn. exists app'. rewrite Hn. now repeat split.
Qed.

Lemma on_scale_pressed_digits_witness :
  exists app',
    ApkShell.on_scale_pressed (typed "024") = (app', Ok tt)
    /\ ApkShell.popups app' = []
    /\ ApkShell.desired_servings app' = 24.
Proof.
  apply (on_scale_pressed_digits (typed "024"));
    [reflexivity | vm_compute; reflexivity].
Defined.

Lemma error_message_listed (e : ValidationError) :
  In (error_message e) validation_messages.
Proof. destruct e; cbn; tauto. Qed.

(** One event keeps the state sound. *)
Lemma handle_sound (ev : ApkShell.event) (app : ApkShell.App) :
  sound app ->
  sound (fst (ApkShell.handle ev app))
  /\ (snd (ApkShell.handle ev app) = Ok tt
      \/ snd (ApkShell.handle ev app) = Raise OverflowError).
Proof.
  intros (Hd & Hr & Hp). destruct ev as [s| |]; cbn [ApkShell.handle].
  - split; [|now left]. repeat split; assumption || apply Hd.
  - destruct (on_scale_pressed_outcomes app)
      as [(e & _ & ->)
         |[(n & app' & Hn & _ & -> & _ & Hp' & Hd' & Hr')|[_ ->]]].
    + split; [|now left]. cbn. repeat split; try assumption; try apply Hd.
      apply Forall_app. split; [exact Hp|].
      constructor; [apply error_message_listed | constructor].
    + split; [|now left]. cbn [fst]. unfold sound.
      rewrite Hp', Hd'. repeat split; try lia; try assumption.
      destruct Hr' as [->|(scaled & -> & Hk)]; [exact Hr | exact Hk].
    + split; [|now right]. repeat split; assumption || apply Hd.
  - split; [|now left]. cbn. repeat split; try assumption; apply Hd.
Qed.

(** X22.  Whatever the user types and taps, from a sound state the
    Kivy program stays in a sound state, and its handlers raise nothing
    but [OverflowError]. *)
Theorem handle_all_sound (evs : list ApkShell.event) (app : ApkShell.App) :
  sound app ->
  sound (fst (ApkShell.handle_all evs app))
  /\ (snd (ApkShell.handle_all evs app) = Ok tt
      \/ snd (ApkShell.handle_all evs app) = Raise OverflowError).
Proof.
  revert app. induction evs as [|ev evs IH]; intros app Hs;
    cbn [ApkShell.handle_all].
  - split; [exact Hs | now left].
  - destruct (handle_sound ev app Hs) as [Hs' Hr].
    destruct (ApkShell.handle ev app) as [app' [[]|e]]; cbn [fst snd] in *.
    + now apply IH.
    + split; [exact Hs'|]. destruct Hr as [Hr|Hr]; [discriminate Hr|].
      right. exact Hr.
Qed.

Lemma handle_all_sound_witness :
  sound
    (fst (ApkShell.handle_all
            [ApkShell.Type_text "24"; ApkShell.Tap_scale; ApkShell.Tap_reset;
             ApkShell.Type_text "0"; ApkShell.Tap_scale]
            ApkShell.build))
  /\ (snd (ApkShell.handle_all
             [ApkShell.Type_text "24"; ApkShell.Tap_scale; ApkShell.Tap_reset;
              ApkShell.Type_text "0"; ApkShell.Tap_scale]
             ApkShell.build) = Ok tt
      \/ snd (ApkShell.handle_all
                [ApkShell.Type_text "24"; ApkShell.Tap_scale;
                 ApkShell.Tap_reset; ApkShell.Type_text "0";
                 ApkShell.Tap_scale]
                ApkShell.build) = Raise OverflowError).
Proof.
  apply (handle_all_sound
           [ApkShell.Type_text "24"; ApkShell.Tap_scale; ApkShell.Tap_reset;
            ApkShell.Type_text "0"; ApkShell.Tap_scale]
           ApkShell.build).
  unfold sound. cbn. repeat split; try lia. constructor.
Defined.
